(** * The assistant bot of hw7.py: fields, records, address book, birthdays

    A shallow embedding of [src/hw7.py] together with the parts of the
    Python standard library its classes lean on ([str.isdigit], [int],
    [datetime.strptime], [date.replace], date arithmetic, [strftime]).

    Python strings are sequences of Unicode code points, so a [str] is a
    list of code points in [Z].  Exceptions are values of an error monad.
    The clock reading [datetime.today().date()] is an explicit argument. *)

From Stdlib Require Import ZArith List Bool Lia String Ascii DecimalString.
Import ListNotations.
Open Scope Z_scope.

(** ** Python strings *)

Definition str := list Z.

(** A literal of the source, as code points. *)
Fixpoint u (s : string) : str :=
  match s with
  | EmptyString => []
  | String a s' => Z.of_N (N_of_ascii a) :: u s'
  end.

Fixpoint str_eqb (a b : str) : bool :=
  match a, b with
  | [], [] => true
  | x :: a', y :: b' => (x =? y) && str_eqb a' b'
  | _, _ => false
  end.

Definition in_range (lo hi c : Z) : bool := (lo <=? c) && (c <=? hi).

(** Code points of the characters whose decimal value is zero (Unicode
    category Nd comes in runs of ten, zero to nine; Unicode 14.0.0, the
    database of CPython 3.11). *)
Definition DECIMAL_ZEROS : list Z :=
  [48; 1632; 1776; 1984; 2406; 2534; 2662; 2790; 2918; 3046; 3174; 3302;
   3430; 3558; 3664; 3792; 3872; 4160; 4240; 6112; 6160; 6470; 6608; 6784;
   6800; 6992; 7088; 7232; 7248; 42528; 43216; 43264; 43472; 43504; 43600;
   44016; 65296; 66720; 68912; 69734; 69872; 69942; 70096; 70384; 70736;
   70864; 71248; 71360; 71472; 71904; 72016; 72784; 73040; 73120; 92768;
   92864; 93008; 120782; 120792; 120802; 120812; 120822; 123200; 123632;
   125264; 130032].

(** [Py_UNICODE_TODECIMAL]: the value of a decimal digit character. *)
Definition to_decimal (c : Z) : option Z :=
  match find (fun z => in_range z (z + 9) c) DECIMAL_ZEROS with
  | Some z => Some (c - z)
  | None => None
  end.

(** [Py_UNICODE_ISDECIMAL]; it is also what [\d] matches in a [str] pattern. *)
Definition is_decimal (c : Z) : bool :=
  match to_decimal c with Some _ => true | None => false end.

(** Ranges of the characters with Numeric_Type Digit or Decimal. *)
Definition DIGIT_RANGES : list (Z * Z) :=
  [(48, 57); (178, 179); (185, 185); (1632, 1641); (1776, 1785);
   (1984, 1993); (2406, 2415); (2534, 2543); (2662, 2671); (2790, 2799);
   (2918, 2927); (3046, 3055); (3174, 3183); (3302, 3311); (3430, 3439);
   (3558, 3567); (3664, 3673); (3792, 3801); (3872, 3881); (4160, 4169);
   (4240, 4249); (4969, 4977); (6112, 6121); (6160, 6169); (6470, 6479);
   (6608, 6618); (6784, 6793); (6800, 6809); (6992, 7001); (7088, 7097);
   (7232, 7241); (7248, 7257); (8304, 8304); (8308, 8313); (8320, 8329);
   (9312, 9320); (9332, 9340); (9352, 9360); (9450, 9450); (9461, 9469);
   (9471, 9471); (10102, 10110); (10112, 10120); (10122, 10130);
   (42528, 42537); (43216, 43225); (43264, 43273); (43472, 43481);
   (43504, 43513); (43600, 43609); (44016, 44025); (65296, 65305);
   (66720, 66729); (68160, 68163); (68912, 68921); (69216, 69224);
   (69714, 69722); (69734, 69743); (69872, 69881); (69942, 69951);
   (70096, 70105); (70384, 70393); (70736, 70745); (70864, 70873);
   (71248, 71257); (71360, 71369); (71472, 71481); (71904, 71913);
   (72016, 72025); (72784, 72793); (73040, 73049); (73120, 73129);
   (92768, 92777); (92864, 92873); (93008, 93017); (120782, 120831);
   (123200, 123209); (123632, 123641); (125264, 125273); (127232, 127242);
   (130032, 130041)].

(** [Py_UNICODE_ISDIGIT]. *)
Definition is_unicode_digit (c : Z) : bool :=
  existsb (fun r => in_range (fst r) (snd r) c) DIGIT_RANGES.

(** [str.isdigit()]: every character is a digit and there is at least one. *)
Definition isdigit (s : str) : bool :=
  match s with
  | [] => false
  | _ => forallb is_unicode_digit s
  end.

(** [len(s)]. *)
Definition len (s : str) : Z := Z.of_nat (List.length s).

(** [int(s)] on the tokens a [strptime] pattern can capture: leading blanks
    are skipped, then one or more decimal digits of any script follow.
    (Signs and underscores, which [int] also reads, never reach it here.) *)
Fixpoint int_digits (acc : Z) (s : str) : option Z :=
  match s with
  | [] => Some acc
  | c :: s' =>
      match to_decimal c with
      | Some v => int_digits (10 * acc + v) s'
      | None => None
      end
  end.

Fixpoint lstrip (s : str) : str :=
  match s with
  | c :: s' => if c =? 32 then lstrip s' else s
  | [] => []
  end.

Definition int (s : str) : option Z :=
  match lstrip s with
  | [] => None
  | t => int_digits 0 t
  end.

(** Decimal rendering of a non-negative integer, and zero padding, as the
    conversions [%d] and [%02d] of the C library produce them. *)
Fixpoint decimal_fuel (fuel : nat) (n : Z) : str :=
  match fuel with
  | O => []
  | S f =>
      if n <? 10 then [48 + n]
      else decimal_fuel f (n / 10) ++ [48 + n mod 10]
  end.

Definition decimal (n : Z) : str := decimal_fuel (S (Z.to_nat (Z.log2 n))) n.

Definition zfill (width : nat) (s : str) : str :=
  repeat 48 (width - List.length s) ++ s.

(** ** Exceptions *)

Inductive exn : Type :=
| ValueError (msg : string)
| OverflowError (msg : string).

Inductive result (A : Type) : Type :=
| Ok (a : A)
| Raise (e : exn).
Arguments Ok {A} a.
Arguments Raise {A} e.

Definition bind {A B} (m : result A) (k : A -> result B) : result B :=
  match m with
  | Ok a => k a
  | Raise e => Raise e
  end.

Notation "x <- m ;; k" := (bind m (fun x => k))
  (at level 61, m at next level, right associativity).

(** [try: body except ValueError: raise ValueError(msg)]. *)
Definition except_ValueError {A} (body : result A) (msg : string) : result A :=
  match body with
  | Raise (ValueError _) => Raise (ValueError msg)
  | r => r
  end.

(** ** The [datetime] module

    The algorithms of CPython's [datetime]: proleptic Gregorian ordinals
    with 01-Jan-0001 as day 1.  Python's [//] and [%] are floor division
    and its remainder, which on [Z] are [/] and [mod]. *)

Module datetime.

Definition MINYEAR : Z := 1.
Definition MAXYEAR : Z := 9999.
Definition MAXORDINAL : Z := 3652059.

Definition DAYS_IN_MONTH : list Z :=
  [-1; 31; 28; 31; 30; 31; 30; 31; 31; 30; 31; 30; 31].

Definition DAYS_BEFORE_MONTH : list Z :=
  [-1; 0; 31; 59; 90; 120; 151; 181; 212; 243; 273; 304; 334].

Definition index (table : list Z) (i : Z) : Z := nth (Z.to_nat i) table 0.

Definition is_leap (year : Z) : bool :=
  (year mod 4 =? 0) && (negb (year mod 100 =? 0) || (year mod 400 =? 0)).

Definition days_before_year (year : Z) : Z :=
  let y := year - 1 in
  y * 365 + y / 4 - y / 100 + y / 400.

Definition days_in_month (year month : Z) : Z :=
  if (month =? 2) && is_leap year then 29 else index DAYS_IN_MONTH month.

Definition days_before_month (year month : Z) : Z :=
  index DAYS_BEFORE_MONTH month
  + (if (2 <? month) && is_leap year then 1 else 0).

Definition ymd2ord (year month day : Z) : Z :=
  days_before_year year + days_before_month year month + day.

Definition DI400Y : Z := Eval cbv in days_before_year 401.
Definition DI100Y : Z := Eval cbv in days_before_year 101.
Definition DI4Y : Z := Eval cbv in days_before_year 5.

Definition ord2ymd (n : Z) : Z * Z * Z :=
  let n := n - 1 in
  let n400 := n / DI400Y in
  let n := n mod DI400Y in
  let year := n400 * 400 + 1 in
  let n100 := n / DI100Y in
  let n := n mod DI100Y in
  let n4 := n / DI4Y in
  let n := n mod DI4Y in
  let n1 := n / 365 in
  let n := n mod 365 in
  let year := year + (n100 * 100 + n4 * 4 + n1) in
  if (n1 =? 4) || (n100 =? 4) then (year - 1, 12, 31)
  else
    let leapyear := (n1 =? 3) && (negb (n4 =? 24) || (n100 =? 3)) in
    let month := Z.shiftr (n + 50) 5 in
    let preceding :=
      index DAYS_BEFORE_MONTH month
      + (if (2 <? month) && leapyear then 1 else 0) in
    if n <? preceding then
      let month := month - 1 in
      let preceding :=
        preceding
        - (index DAYS_IN_MONTH month
           + (if (month =? 2) && leapyear then 1 else 0)) in
      (year, month, n - preceding + 1)
    else (year, month, n - preceding + 1).

(** A [date] object; every constructor call goes through the field check. *)
Record date : Type := mkdate { year : Z; month : Z; day : Z }.

(** A [datetime] object (naive: no time zone). *)
Record datetime : Type := mkdatetime {
  dt_year : Z; dt_month : Z; dt_day : Z;
  dt_hour : Z; dt_minute : Z; dt_second : Z; dt_microsecond : Z }.

Definition show_int (z : Z) : string := NilZero.string_of_int (Z.to_int z).

Definition check_date_fields (y m d : Z) : result unit :=
  if negb ((MINYEAR <=? y) && (y <=? MAXYEAR)) then
    Raise (ValueError ("year " ++ show_int y ++ " is out of range"))
  else if negb ((1 <=? m) && (m <=? 12)) then
    Raise (ValueError "month must be in 1..12")
  else if negb ((1 <=? d) && (d <=? days_in_month y m)) then
    Raise (ValueError "day is out of range for month")
  else Ok tt.

(** [date(year, month, day)]. *)
Definition new_date (y m d : Z) : result date :=
  _ <- check_date_fields y m d ;; Ok (mkdate y m d).

(** [datetime(year, month, day)], at midnight. *)
Definition new_datetime (y m d : Z) : result datetime :=
  _ <- check_date_fields y m d ;; Ok (mkdatetime y m d 0 0 0 0).

(** [datetime.date()]. *)
Definition date_of (dt : datetime) : date :=
  mkdate (dt_year dt) (dt_month dt) (dt_day dt).

(** [date.replace(year=y)]. *)
Definition replace_year (self : date) (y : Z) : result date :=
  new_date y (month self) (day self).

Definition toordinal (self : date) : Z :=
  ymd2ord (year self) (month self) (day self).

Definition fromordinal (n : Z) : date :=
  let '(y, m, d) := ord2ymd n in mkdate y m d.

(** [self < other]: comparison of the (year, month, day) triples. *)
Definition lt (self other : date) : bool :=
  (year self <? year other)
  || ((year self =? year other)
      && ((month self <? month other)
          || ((month self =? month other) && (day self <? day other)))).

(** [(self - other).days]. *)
Definition sub_days (self other : date) : Z :=
  toordinal self - toordinal other.

(** [self + timedelta(days=n)]. *)
Definition add_days (self : date) (n : Z) : result date :=
  let o := toordinal self + n in
  if (0 <? o) && (o <=? MAXORDINAL) then Ok (fromordinal o)
  else Raise (OverflowError "date value out of range").

(** [date.weekday()]: Monday is 0, Sunday is 6. *)
Definition weekday (self : date) : Z := (toordinal self + 6) mod 7.

(** [strftime('%d.%m.%Y')]: day and month zero padded to two digits.  The
    call goes to the C library, whose [%Y] is the year as a plain decimal
    number: glibc, under CPython 3.11, writes the year 999 as [999] and
    not as [0999].  Four digits come out from the year 1000 on. *)
Definition strftime_dmY (y m d : Z) : str :=
  zfill 2 (decimal d) ++ [46] ++ zfill 2 (decimal m) ++ [46]
  ++ decimal y.

Definition date_strftime (self : date) : str :=
  strftime_dmY (year self) (month self) (day self).

Definition datetime_strftime (self : datetime) : str :=
  strftime_dmY (dt_year self) (dt_month self) (dt_day self).

End datetime.

(** ** Regular expressions, as [_strptime] uses them

    The patterns of [TimeRE] have no repetition: literals, character
    ranges, [\d], sequence, ordered alternative and named groups.
    [matches r s] lists every way [r] matches a prefix of [s] in the order
    a backtracking matcher tries them: the consumed prefix, the rest of the
    string, the groups captured.  [re.match] returns the first.  (The
    IGNORECASE flag of the compiled pattern changes nothing here: no
    character has a digit, a blank or a full stop as its other case.) *)

Inductive regex : Type :=
| Lit (c : Z)
| Rng (lo hi : Z)
| Dig
| Cat (r1 r2 : regex)
| Alt (r1 r2 : regex)
| Grp (name : string) (r : regex).

Definition groups := list (string * str).

Definition accepts (r : regex) (c : Z) : bool :=
  match r with
  | Lit a => c =? a
  | Rng lo hi => in_range lo hi c
  | Dig => is_decimal c
  | _ => false
  end.

Fixpoint matches (r : regex) (s : str) : list (str * str * groups) :=
  match r with
  | Cat r1 r2 =>
      flat_map
        (fun m1 : str * str * groups =>
           let '(t1, s1, g1) := m1 in
           map (fun m2 : str * str * groups =>
                  let '(t2, s2, g2) := m2 in (t1 ++ t2, s2, g1 ++ g2))
               (matches r2 s1))
        (matches r1 s)
  | Alt r1 r2 => matches r1 s ++ matches r2 s
  | Grp name r1 =>
      map (fun m : str * str * groups =>
             let '(t, s1, g) := m in (t, s1, g ++ [(name, t)]))
          (matches r1 s)
  | _ =>
      match s with
      | c :: s1 => if accepts r c then [([c], s1, [])] else []
      | [] => []
      end
  end.

Definition re_match (r : regex) (s : str) : option (str * str * groups) :=
  hd_error (matches r s).

Fixpoint groupdict (g : groups) (name : string) : option str :=
  match g with
  | [] => None
  | (n, t) :: g' => if String.eqb n name then Some t else groupdict g' name
  end.

Module _strptime.

(** The entries of [TimeRE] for the directives of ['%d.%m.%Y']:
    [(?P<d>3[0-1]|[1-2]\d|0[1-9]|[1-9]| [1-9])],
    [(?P<m>1[0-2]|0[1-9]|[1-9])] and [(?P<Y>\d\d\d\d)].
    Code points: 48 to 57 are the digits 0 to 9, 32 the blank, 46 the
    full stop. *)
Definition directive_d : regex :=
  Grp "d" (Alt (Cat (Lit 51) (Rng 48 49))
          (Alt (Cat (Rng 49 50) Dig)
          (Alt (Cat (Lit 48) (Rng 49 57))
          (Alt (Rng 49 57)
               (Cat (Lit 32) (Rng 49 57)))))).

Definition directive_m : regex :=
  Grp "m" (Alt (Cat (Lit 49) (Rng 48 50))
          (Alt (Cat (Lit 48) (Rng 49 57))
               (Rng 49 57))).

Definition directive_Y : regex :=
  Grp "Y" (Cat Dig (Cat Dig (Cat Dig Dig))).

(** [TimeRE.compile('%d.%m.%Y')]; the full stops are escaped literals. *)
Definition format_regex : regex :=
  Cat directive_d (Cat (Lit 46) (Cat directive_m (Cat (Lit 46) directive_Y))).

Definition int_group (g : groups) (name : string) : result Z :=
  match groupdict g name with
  | Some t =>
      match int t with
      | Some z => Ok z
      | None => Raise (ValueError "invalid literal for int() with base 10")
      end
  | None => Raise (ValueError "invalid literal for int() with base 10")
  end.

(** [datetime.strptime(data_string, '%d.%m.%Y')]: the first match of the
    pattern must consume the whole string; the groups are converted with
    [int] and the date is built, which checks its fields.  (The messages
    of the library's exceptions are shortened; the caller replaces them.) *)
Definition strptime (data_string : str) : result datetime.datetime :=
  match re_match format_regex data_string with
  | None => Raise (ValueError "time data does not match format")
  | Some (found, _, g) =>
      if negb (len data_string =? len found) then
        Raise (ValueError "unconverted data remains")
      else
        year <- int_group g "Y" ;;
        month <- int_group g "m" ;;
        day <- int_group g "d" ;;
        _ <- datetime.new_date year month day ;;
        datetime.new_datetime year month day
  end.

End _strptime.

(** ** hw7.py: the fields *)

Record Name : Type := mkName { name_value : str }.

Record Birthday : Type := mkBirthday { birthday_value : datetime.datetime }.

Record Phone : Type := mkPhone { phone_value : str }.

(** [Birthday.__init__]. *)
Definition Birthday_init (value : str) : result Birthday :=
  except_ValueError
    (v <- _strptime.strptime value ;; Ok (mkBirthday v))
    "Invalid date format. Use DD.MM.YYYY".

(** [Phone.__init__]. *)
Definition Phone_init (value : str) : result Phone :=
  if negb (isdigit value) || negb (len value =? 10) then
    Raise (ValueError "Phone number must contain 10 digits.")
  else Ok (mkPhone value).

(** [Field.__str__] on a phone: [str(self.value)]. *)
Definition Phone_str (p : Phone) : str := phone_value p.

(** The objects a method of [Record] may be handed. *)
Inductive object : Type :=
| PhoneObj (p : Phone)
| BirthdayObj (b : Birthday)
| StrObj (s : str)
| NoneObj.

(** ** hw7.py: [Record]

    A method that mutates [self] returns the record it leaves behind and
    the exception it raised, if any. *)

Record Record_ : Type := mkRecord {
  name : Name;
  phones : list Phone;
  birthday : option Birthday }.

Definition Record_init (n : str) : Record_ := mkRecord (mkName n) [] None.

Definition add_phone (self : Record_) (phone : object) : Record_ * option exn :=
  match phone with
  | PhoneObj p =>
      (mkRecord (name self) (phones self ++ [p]) (birthday self), None)
  | _ => (self, Some (ValueError "Invalid phone value. Use Phone instance"))
  end.

Definition add_birthday (self : Record_) (b : object) : Record_ * option exn :=
  match b with
  | BirthdayObj b' => (mkRecord (name self) (phones self) (Some b'), None)
  | _ =>
      (self, Some (ValueError "Invalid birthday value. Use Birthday instance"))
  end.

Definition remove_phone (self : Record_) (phone : str) : Record_ :=
  mkRecord (name self)
    (filter (fun p => negb (str_eqb (Phone_str p) phone)) (phones self))
    (birthday self).

Definition edit_phone (self : Record_) (old_phone : str) (new_phone : object)
  : Record_ * option exn :=
  add_phone (remove_phone self old_phone) new_phone.

Fixpoint find_phone_in (ps : list Phone) (phone : str) : option Phone :=
  match ps with
  | [] => None
  | p :: ps' =>
      if str_eqb (Phone_str p) phone then Some p else find_phone_in ps' phone
  end.

Definition find_phone (self : Record_) (phone : str) : option Phone :=
  find_phone_in (phones self) phone.

(** The birthday part of [Record.__str__]. *)
Definition birthday_str (self : Record_) : str :=
  match birthday self with
  | Some b => datetime.datetime_strftime (birthday_value b)
  | None => u "Not Set"
  end.

(** ** hw7.py: [AddressBook]

    The [data] of a [UserDict] is a [dict]: one binding for a key, kept in
    the order the keys were first inserted. *)

Definition dict := list (str * Record_).

Fixpoint dict_get (d : dict) (k : str) : option Record_ :=
  match d with
  | [] => None
  | (k', v) :: d' => if str_eqb k' k then Some v else dict_get d' k
  end.

Fixpoint dict_set (d : dict) (k : str) (v : Record_) : dict :=
  match d with
  | [] => [(k, v)]
  | (k', v') :: d' =>
      if str_eqb k' k then (k', v) :: d' else (k', v') :: dict_set d' k v
  end.

Fixpoint dict_del (d : dict) (k : str) : dict :=
  match d with
  | [] => []
  | (k', v') :: d' => if str_eqb k' k then d' else (k', v') :: dict_del d' k
  end.

Definition dict_contains (d : dict) (k : str) : bool :=
  match dict_get d k with Some _ => true | None => false end.

Definition dict_values (d : dict) : list Record_ := map snd d.

Definition dict_keys (d : dict) : list str := map fst d.

Record AddressBook : Type := mkAddressBook { data : dict }.

Definition add_record (self : AddressBook) (record : Record_) : AddressBook :=
  mkAddressBook (dict_set (data self) (name_value (name record)) record).

Definition find (self : AddressBook) (n : str) : option Record_ :=
  dict_get (data self) n.

Definition delete (self : AddressBook) (n : str) : AddressBook :=
  if dict_contains (data self) n then mkAddressBook (dict_del (data self) n)
  else self.

(** An entry of the list [get_upcoming_birthdays] returns. *)
Record entry : Type := mkEntry { e_name : str; e_congradulation_date : str }.

(** The body of the loop of [get_upcoming_birthdays] for one record. *)
Definition upcoming_step (today : datetime.date)
    (upcoming_birthdays : list entry) (record : Record_)
  : result (list entry) :=
  match birthday record with
  | Some b =>
      let birthday_date := datetime.date_of (birthday_value b) in
      birthday_this_year <-
        datetime.replace_year birthday_date (datetime.year today) ;;
      birthday_this_year <-
        (if datetime.lt birthday_this_year today then
           datetime.replace_year birthday_this_year (datetime.year today + 1)
         else Ok birthday_this_year) ;;
      let days_until_birthday := datetime.sub_days birthday_this_year today in
      if (0 <=? days_until_birthday) && (days_until_birthday <=? 7) then
        congradulation_date <-
          (if (datetime.weekday birthday_this_year =? 5)
              || (datetime.weekday birthday_this_year =? 6) then
             monday_after_birthday <-
               datetime.add_days birthday_this_year
                 (7 - datetime.weekday birthday_this_year) ;;
             Ok (datetime.date_strftime monday_after_birthday)
           else Ok (datetime.date_strftime birthday_this_year)) ;;
        Ok (upcoming_birthdays
              ++ [mkEntry (name_value (name record)) congradulation_date])
      else Ok upcoming_birthdays
  | None => Ok upcoming_birthdays
  end.

Fixpoint upcoming_loop (today : datetime.date) (records : list Record_)
    (upcoming_birthdays : list entry) : result (list entry) :=
  match records with
  | [] => Ok upcoming_birthdays
  | record :: rest =>
      upcoming <- upcoming_step today upcoming_birthdays record ;;
      upcoming_loop today rest upcoming
  end.

(** [AddressBook.get_upcoming_birthdays], with the day the clock shows. *)
Definition get_upcoming_birthdays (self : AddressBook) (today : datetime.date)
  : result (list entry) :=
  upcoming_loop today (dict_values (data self)) [].

(** ** Notions the statements below are written in *)

Definition str_eq_dec : forall a b : str, {a = b} + {a <> b} :=
  list_eq_dec Z.eq_dec.

(** One of the ten characters 0 to 9. *)
Definition ascii_digit (c : Z) : bool := in_range 48 57 c.

(** Solely the digits 0-9, and length exactly 10. *)
Definition ten_ascii_digits (v : str) : bool :=
  forallb ascii_digit v && (List.length v =? 10)%nat.

(** Solely digits in the sense of [str.isdigit], and length exactly 10. *)
Definition ten_unicode_digits (v : str) : bool :=
  forallb is_unicode_digit v && (List.length v =? 10)%nat.

(** What a caller can pass to the methods of a record: strings, [None],
    and the fields the constructors returned. *)
Inductive constructed : object -> Prop :=
| constructed_phone v p : Phone_init v = Ok p -> constructed (PhoneObj p)
| constructed_birthday v b :
    Birthday_init v = Ok b -> constructed (BirthdayObj b)
| constructed_str s : constructed (StrObj s)
| constructed_none : constructed NoneObj.

(** The records a session can build, whether a call raised or not. *)
Inductive reachable : Record_ -> Prop :=
| reach_init n : reachable (Record_init n)
| reach_add_phone r o :
    reachable r -> constructed o -> reachable (fst (add_phone r o))
| reach_add_birthday r o :
    reachable r -> constructed o -> reachable (fst (add_birthday r o))
| reach_remove_phone r t : reachable r -> reachable (remove_phone r t)
| reach_edit_phone r t o :
    reachable r -> constructed o -> reachable (fst (edit_phone r t o)).

(** The phone sequence with every entry whose text is [t] taken out. *)
Fixpoint without (t : str) (ps : list Phone) : list Phone :=
  match ps with
  | [] => []
  | p :: ps' =>
      if str_eq_dec (Phone_str p) t then without t ps'
      else p :: without t ps'
  end.

(** A [dict] has one binding for a key. *)
Definition dict_wf (d : dict) : Prop := NoDup (dict_keys d).

(** The fields are those of a date the constructor accepts. *)
Definition date_valid (d : datetime.date) : bool :=
  (1 <=? datetime.year d) && (datetime.year d <=? 9999)
  && (1 <=? datetime.month d) && (datetime.month d <=? 12)
  && (1 <=? datetime.day d)
  && (datetime.day d
      <=? datetime.days_in_month (datetime.year d) (datetime.month d)).

(** The birthday's month and day in today's year, advanced to next year
    when that date is strictly before today. *)
Definition rebased (today birthday_date : datetime.date) : datetime.date :=
  let this_year :=
    datetime.mkdate (datetime.year today) (datetime.month birthday_date)
      (datetime.day birthday_date) in
  if datetime.lt this_year today then
    datetime.mkdate (datetime.year today + 1) (datetime.month birthday_date)
      (datetime.day birthday_date)
  else this_year.

Definition days_until (today birthday_date : datetime.date) : Z :=
  datetime.sub_days (rebased today birthday_date) today.

Definition birthday_date (b : Birthday) : datetime.date :=
  datetime.date_of (birthday_value b).

(** The record has a birthday and [0 <= days_until <= 7]. *)
Definition in_window (today : datetime.date) (r : Record_) : bool :=
  match birthday r with
  | Some b =>
      (0 <=? days_until today (birthday_date b))
      && (days_until today (birthday_date b) <=? 7)
  | None => false
  end.

Definition is_weekend (d : datetime.date) : bool :=
  (datetime.weekday d =? 5) || (datetime.weekday d =? 6).

Definition plus_days (d : datetime.date) (n : Z) : datetime.date :=
  datetime.fromordinal (datetime.toordinal d + n).

(** The adjusted birthday, moved to the following Monday from a weekend. *)
Definition congratulation (d : datetime.date) : datetime.date :=
  if is_weekend d then plus_days d (7 - datetime.weekday d) else d.

(** Two digits, a full stop, two digits, a full stop, four digits. *)
Definition is_DDMMYYYY (v : str) : bool :=
  match v with
  | [d1; d2; p1; m1; m2; p2; y1; y2; y3; y4] =>
      forallb ascii_digit [d1; d2; m1; m2; y1; y2; y3; y4]
      && (p1 =? 46) && (p2 =? 46)
  | _ => false
  end.

(** A bounded universal check, for facts settled by running through a
    whole range. *)
Fixpoint forall_range (n : nat) (lo : Z) (P : Z -> bool) : bool :=
  match n with
  | O => true
  | S k => if P lo then forall_range k (lo + 1) P else false
  end.

(** What [ord2ymd] must satisfy on the first 400-year cycle. *)
Definition cycle_ok (r : Z) : bool :=
  let '(y, m, d) := datetime.ord2ymd (r + 1) in
  (datetime.ymd2ord y m d =? r + 1)
  && (1 <=? y) && (y <=? 400)
  && (1 <=? m) && (m <=? 12)
  && (1 <=? d) && (d <=? datetime.days_in_month y m).

(** The two [replace] calls of the loop body go through. *)
Definition rebasable (today birthday_date : datetime.date) : bool :=
  let this_year :=
    datetime.mkdate (datetime.year today) (datetime.month birthday_date)
      (datetime.day birthday_date) in
  date_valid this_year
  && (if datetime.lt this_year today then
        date_valid
          (datetime.mkdate (datetime.year today + 1)
             (datetime.month birthday_date) (datetime.day birthday_date))
      else true).

(** The entry a record in the window gets. *)
Definition entry_of (today : datetime.date) (r : Record_) : entry :=
  mkEntry (name_value (name r))
    (match birthday r with
     | Some b =>
         datetime.date_strftime
           (congratulation (rebased today (birthday_date b)))
     | None => []
     end).

Definition record_name (r : Record_) : str := name_value (name r).

(** A small address book and a day, for the examples below. *)
Definition sample_today : datetime.date := datetime.mkdate 2024 6 10.

Definition sample_record (n : string) (y m d : Z) : Record_ :=
  mkRecord (mkName (u n)) [] (Some (mkBirthday (datetime.mkdatetime y m d 0 0 0 0))).

Definition sample_book : AddressBook :=
  add_record
    (add_record
       (add_record
          (add_record (mkAddressBook []) (sample_record "Ann" 1990 6 12))
          (sample_record "Bob" 1985 6 15))
       (sample_record "Cat" 2000 1 1))
    (Record_init (u "Eve")).

Definition leap_book : AddressBook :=
  add_record (mkAddressBook []) (sample_record "Leo" 2024 2 29).

(** What it is for a regular expression to match the whole of a token,
    with the groups it captures on the way. *)
Inductive parses : regex -> str -> groups -> Prop :=
| parses_char r c : accepts r c = true -> parses r [c] []
| parses_cat r1 r2 t1 t2 g1 g2 :
    parses r1 t1 g1 -> parses r2 t2 g2 ->
    parses (Cat r1 r2) (t1 ++ t2) (g1 ++ g2)
| parses_alt_l r1 r2 t g : parses r1 t g -> parses (Alt r1 r2) t g
| parses_alt_r r1 r2 t g : parses r2 t g -> parses (Alt r1 r2) t g
| parses_grp n r t g : parses r t g -> parses (Grp n r) t (g ++ [(n, t)]).

(** The day of the month as [%d] reads it: 1 to 31 in one or two digits,
    a one-digit day possibly after a zero or a blank. *)
Definition day_token (t : str) : bool :=
  match t with
  | [a] => in_range 49 57 a
  | [a; b] =>
      ((a =? 51) && in_range 48 49 b)
      || (in_range 49 50 a && is_decimal b)
      || ((a =? 48) && in_range 49 57 b)
      || ((a =? 32) && in_range 49 57 b)
  | _ => false
  end.

(** The month as [%m] reads it: 1 to 12 in one or two digits. *)
Definition month_token (t : str) : bool :=
  match t with
  | [a] => in_range 49 57 a
  | [a; b] =>
      ((a =? 49) && in_range 48 50 b) || ((a =? 48) && in_range 49 57 b)
  | _ => false
  end.

(** The year as [%Y] reads it: exactly four decimal digits. *)
Definition year_token (t : str) : bool :=
  match t with
  | [a; b; c; d] => is_decimal a && is_decimal b && is_decimal c && is_decimal d
  | _ => false
  end.

(** [value] is a day, a full stop, a month, a full stop and a year in the
    forms above, with the numbers [D], [M] and [Y]. *)
Definition reads_as (value : str) (Y M D : Z) : Prop :=
  exists d m y,
    value = d ++ [46] ++ m ++ [46] ++ y
    /\ day_token d = true /\ month_token m = true /\ year_token y = true
    /\ int d = Some D /\ int m = Some M /\ int y = Some Y.

(** The year, month and day a string of the form DD.MM.YYYY denotes. *)
Definition DDMMYYYY_fields (v : str) : option (Z * Z * Z) :=
  match v with
  | [d1; d2; _; m1; m2; _; y1; y2; y3; y4] =>
      if is_DDMMYYYY v then
        Some (1000 * (y1 - 48) + 100 * (y2 - 48) + 10 * (y3 - 48) + (y4 - 48),
              10 * (m1 - 48) + (m2 - 48),
              10 * (d1 - 48) + (d2 - 48))
      else None
  | _ => None
  end.

(** ** hw7.py: rendering, the handlers and the command loop *)

(** Ranges of the characters [str.isspace] holds of; [str.split()] splits
    at runs of them. *)
Definition SPACE_RANGES : list (Z * Z) :=
  [(9, 13); (28, 32); (133, 133); (160, 160); (5760, 5760); (8192, 8202);
   (8232, 8233); (8239, 8239); (8287, 8287); (12288, 12288)].

Definition isspace (c : Z) : bool :=
  existsb (fun r => in_range (fst r) (snd r) c) SPACE_RANGES.

(** [s.split()]: the maximal runs of characters that are not whitespace,
    in order; [word] is the run being read. *)
Fixpoint split_from (word : str) (s : str) : list str :=
  match s with
  | [] => match word with [] => [] | _ => [word] end
  | c :: s' =>
      if isspace c then
        match word with
        | [] => split_from [] s'
        | _ => word :: split_from [] s'
        end
      else split_from (word ++ [c]) s'
  end.

Definition str_split (s : str) : list str := split_from [] s.

(** [sep.join(parts)]. *)
Fixpoint str_join (sep : str) (parts : list str) : str :=
  match parts with
  | [] => []
  | [p] => p
  | p :: rest => p ++ sep ++ str_join sep rest
  end.

(** [Record.__str__]. *)
Definition Record_str (self : Record_) : str :=
  let phones_str := str_join (u "; ") (map Phone_str (phones self)) in
  u "Contact name: " ++ name_value (name self) ++ u ", phones: "
  ++ phones_str ++ u ", birthday: " ++ birthday_str self.

(** What reaches the terminal: a line written by [print], or the prompt
    [input] writes before it reads. *)
Inductive event : Type :=
| Print (line : str)
| Prompt (text : str).

(** The exceptions of the command layer: those of the calls below it, the
    ones indexing, dictionaries and [input] raise, and the
    UnicodeEncodeError of [print], with the text [str(e)] gives.
    UnicodeEncodeError is a subclass of ValueError: [except ValueError]
    catches it. *)
Inductive error : Type :=
| Lib (e : exn)
| KeyError (msg : string)
| IndexError (msg : string)
| UnicodeEncodeError (msg : str)
| EOFError.

Inductive outcome (A : Type) : Type :=
| Returns (a : A)
| Throws (e : error).
Arguments Returns {A} a.
Arguments Throws {A} e.

(** A call that prints, may change the book, and returns or raises. *)
Definition run (A : Type) : Type := list event * AddressBook * outcome A.

(** The terminal behind [sys.stdout].  [print] encodes its line for it;
    every encoding a terminal has writes the ASCII characters, [writes]
    tells which others it has.  For a line with a character it lacks,
    [print] raises a UnicodeEncodeError before anything of the line is
    written; [complaint] is the text of that exception, which names the
    encoding and shows the character as an escape: it is ASCII. *)
Record terminal : Type := mkTerminal {
  writes : Z -> bool;
  complaint : str -> str;
  complaint_ascii :
    forall line, forallb (fun c => c <? 128) (complaint line) = true
}.

Definition writable (t : terminal) (line : str) : bool :=
  forallb (fun c => (c <? 128) || writes t c) line.

(** [print(line)]. *)
Definition print (t : terminal) (book : AddressBook) (line : str)
  : run (option str) :=
  if writable t line then ([Print line], book, Returns None)
  else ([], book, Throws (UnicodeEncodeError (complaint t line))).

(** One statement after another: the second runs when the first returned. *)
Definition and_then {A B : Type} (first : run A)
    (next : AddressBook -> run B) : run B :=
  match first with
  | (out, book, Returns _) =>
      let '(out', book', r) := next book in (out ++ out', book', r)
  | (out, book, Throws e) => (out, book, Throws e)
  end.

(** [for line in lines: print(line)]. *)
Fixpoint print_lines (t : terminal) (book : AddressBook) (lines : list str)
  : run (option str) :=
  match lines with
  | [] => ([], book, Returns None)
  | line :: rest =>
      and_then (print t book line) (fun book' => print_lines t book' rest)
  end.

(** [try: body except ValueError as e: print(str(e))]. *)
Definition except_ValueError_print (t : terminal) (body : run (option str))
  : run (option str) :=
  match body with
  | (out, book, Throws (Lib (ValueError msg))) =>
      let '(out', book', r) := print t book (u msg) in (out ++ out', book', r)
  | (out, book, Throws (UnicodeEncodeError msg)) =>
      let '(out', book', r) := print t book msg in (out ++ out', book', r)
  | other => other
  end.

(** The decorator [input_error]: it catches ValueError, KeyError and
    IndexError with their subclasses, and looks the message up by the
    exact type of the exception.  A ValueError or an IndexError gives
    "Invalid command format.", a KeyError "Contact not found."; a
    UnicodeEncodeError is caught as a ValueError but is not a key of the
    table, and gives the fallback. *)
Definition input_error (call : run (option str)) : run (option str) :=
  match call with
  | (out, book, Throws (Lib (ValueError _))) =>
      (out, book, Returns (Some (u "Invalid command format.")))
  | (out, book, Throws (IndexError _)) =>
      (out, book, Returns (Some (u "Invalid command format.")))
  | (out, book, Throws (KeyError _)) =>
      (out, book, Returns (Some (u "Contact not found.")))
  | (out, book, Throws (UnicodeEncodeError _)) =>
      (out, book, Returns (Some (u "An error occured. Please try again.")))
  | other => other
  end.

(** The record under a key of the book after a method changed it in place. *)
Definition store (book : AddressBook) (key : str) (record : Record_)
  : AddressBook :=
  mkAddressBook (dict_set (data book) key record).

Module handlers.

(** [add_birthday(args, book)]. *)
Definition add_birthday (t : terminal) (args : list str)
    (book : AddressBook) : run (option str) :=
  input_error
    match args with
    | [n; birthday_text] =>
        except_ValueError_print t
          match find book n with
          | Some record =>
              match Birthday_init birthday_text with
              | Ok b =>
                  match add_birthday record (BirthdayObj b) with
                  | (record', None) =>
                      print t (store book n record')
                        (u "Birthday added for " ++ n ++ u ".")
                  | (record', Some e) =>
                      ([], store book n record', Throws (Lib e))
                  end
              | Raise e => ([], book, Throws (Lib e))
              end
          | None => print t book (u "Contact " ++ n ++ u " not found.")
          end
    | _ => print t book (u "Usage: add birthday [name] [birthdaydate]")
    end.

(** [show_birthday(args, book)]. *)
Definition show_birthday (t : terminal) (args : list str)
    (book : AddressBook) : run (option str) :=
  input_error
    match args with
    | [n] =>
        except_ValueError_print t
          match find book n with
          | Some record =>
              match birthday record with
              | Some b =>
                  print t book
                    (n ++ u " birthday is on "
                     ++ datetime.datetime_strftime (birthday_value b)
                     ++ u ".")
              | None => print t book (u "No birthday set for " ++ n ++ u ".")
              end
          | None => print t book (u "Contact " ++ n ++ u " not found.")
          end
    | _ => print t book (u "Usage: show birthday [name]")
    end.

(** [birthdays(args, book)], on the day the clock shows. *)
Definition birthdays (t : terminal) (today : datetime.date)
    (args : list str) (book : AddressBook) : run (option str) :=
  input_error
    match get_upcoming_birthdays book today with
    | Ok upcoming_birthdays =>
        match upcoming_birthdays with
        | [] => print t book (u "No upcoming birthdays for next week.")
        | _ =>
            print_lines t book
              (u "Upcoming birthdays for next week:"
               :: map (fun contact =>
                         e_name contact ++ u " birthday is on "
                         ++ e_congradulation_date contact ++ u ".")
                    upcoming_birthdays)
        end
    | Raise e => ([], book, Throws (Lib e))
    end.

End handlers.

(** The terminal of a session of [main].  What the loop prints there was
    typed at the same terminal and read by [input] in its encoding, which
    therefore writes it: the loop runs on a terminal that writes every
    character. *)
Definition console : terminal :=
  mkTerminal (fun _ => true) (fun _ => []) (fun _ => eq_refl).

(** How an iteration of the loop of [main] ends. *)
Inductive control : Type :=
| Continue
| Break.

(** The branch of [main] for [add]. *)
Definition main_add (args : list str) (book : AddressBook) : run control :=
  match args with
  | [n; phone] =>
      match Phone_init phone with
      | Ok p =>
          match add_phone (Record_init n) (PhoneObj p) with
          | (record, None) =>
              ([Print (u "Contact " ++ n ++ u " with phone " ++ phone
                       ++ u " added.")],
               add_record book record, Returns Continue)
          | (_, Some (ValueError msg)) =>
              ([Print (u msg)], book, Returns Continue)
          | (_, Some e) => ([], book, Throws (Lib e))
          end
      | Raise (ValueError msg) => ([Print (u msg)], book, Returns Continue)
      | Raise e => ([], book, Throws (Lib e))
      end
  | _ => ([Print (u "Usage: add [name] [phone number]")], book,
          Returns Continue)
  end.

(** The branch of [main] for [change phone]. *)
Definition main_change_phone (args : list str) (book : AddressBook)
  : run control :=
  match args with
  | [n; new_phone] =>
      match find book n with
      | Some record =>
          match phones record with
          | [] => ([], book, Throws (IndexError "list index out of range"))
          | first :: _ =>
              let old_phone := Phone_str first in
              match Phone_init new_phone with
              | Ok p =>
                  match edit_phone record old_phone (PhoneObj p) with
                  | (record', None) =>
                      ([Print (u "Phone number for " ++ n ++ u " changed from "
                               ++ old_phone ++ u " to " ++ new_phone
                               ++ u ".")],
                       store book n record', Returns Continue)
                  | (record', Some (ValueError msg)) =>
                      ([Print (u msg)], store book n record',
                       Returns Continue)
                  | (record', Some e) =>
                      ([], store book n record', Throws (Lib e))
                  end
              | Raise (ValueError msg) =>
                  ([Print (u msg)], book, Returns Continue)
              | Raise e => ([], book, Throws (Lib e))
              end
          end
      | None =>
          ([Print (u "Contact " ++ n ++ u " not found.")], book,
           Returns Continue)
      end
  | _ =>
      ([Print (u "Usage: change phone [name] [new phone number]")], book,
       Returns Continue)
  end.

(** The branch of [main] for [phone]. *)
Definition main_phone (args : list str) (book : AddressBook) : run control :=
  match args with
  | [n] =>
      match find book n with
      | Some record =>
          match phones record with
          | first :: _ =>
              ([Print (u "Phone number for " ++ n ++ u ": "
                       ++ Phone_str first)], book, Returns Continue)
          | [] =>
              ([Print (u "No phone number found for " ++ n ++ u ".")], book,
               Returns Continue)
          end
      | None =>
          ([Print (u "Contact " ++ n ++ u " not found.")], book,
           Returns Continue)
      end
  | _ => ([Print (u "Usage: phone [name]")], book, Returns Continue)
  end.

(** The branch of [main] for [all]. *)
Definition main_all (book : AddressBook) : run control :=
  match data book with
  | [] => ([Print (u "No contacts found.")], book, Returns Continue)
  | items =>
      (Print (u "All contacts:")
       :: map (fun item => Print (Record_str (snd item))) items,
       book, Returns Continue)
  end.

(** A handler called from [main]: what it returns is dropped. *)
Definition call_handler (call : run (option str)) : run control :=
  match call with
  | (out, book, Returns _) => (out, book, Returns Continue)
  | (out, book, Throws e) => (out, book, Throws e)
  end.

(** One iteration of the loop of [main], after [input] handed over
    [user_input]. *)
Definition main_step (today : datetime.date) (book : AddressBook)
    (user_input : str) : run control :=
  match str_split user_input with
  | [] =>
      ([], book,
       Throws (Lib (ValueError
         "not enough values to unpack (expected at least 1, got 0)")))
  | command :: args =>
      if str_eqb command (u "close") || str_eqb command (u "exit") then
        ([Print (u "Good bye!")], book, Returns Break)
      else if str_eqb command (u "hello") then
        ([Print (u "How can I help you?")], book, Returns Continue)
      else if str_eqb command (u "add") then main_add args book
      else if str_eqb command (u "change phone") then
        main_change_phone args book
      else if str_eqb command (u "phone") then main_phone args book
      else if str_eqb command (u "all") then main_all book
      else if str_eqb command (u "add birthday") then
        call_handler (handlers.add_birthday console args book)
      else if str_eqb command (u "show birthday") then
        call_handler (handlers.show_birthday console args book)
      else if str_eqb command (u "birthdays") then
        call_handler (handlers.birthdays console today args book)
      else ([Print (u "Invalid command.")], book, Returns Continue)
  end.

(** The loop of [main] over the lines [input] will return, each with the
    day the clock shows while it is handled; [input] raises EOFError when
    they run out. *)
Fixpoint main_loop (book : AddressBook) (inputs : list (datetime.date * str))
  : run unit :=
  match inputs with
  | [] => ([Prompt (u "Enter a command: ")], book, Throws EOFError)
  | (today, user_input) :: rest =>
      match main_step today book user_input with
      | (out, book', Returns Continue) =>
          let '(out', book'', r) := main_loop book' rest in
          (Prompt (u "Enter a command: ") :: out ++ out', book'', r)
      | (out, book', Returns Break) =>
          (Prompt (u "Enter a command: ") :: out, book', Returns tt)
      | (out, book', Throws e) =>
          (Prompt (u "Enter a command: ") :: out, book', Throws e)
      end
  end.

(** [main()]. *)
Definition main (inputs : list (datetime.date * str)) : run unit :=
  let '(out, book, r) := main_loop (mkAddressBook []) inputs in
  (Print (u "Welcome to the assistant bot!") :: out, book, r).

(** ** More notions for the statements below *)

Definition nonspace (c : Z) : bool := negb (isspace c).

(** A word: not empty, no whitespace in it. *)
Definition is_word (w : str) : Prop := w <> [] /\ forallb nonspace w = true.

(** The books a caller can build from the empty one. *)
Inductive built : AddressBook -> Prop :=
| built_empty : built (mkAddressBook [])
| built_add book record : built book -> built (add_record book record)
| built_delete book n : built book -> built (delete book n).

(** Every key is the name of the record it holds. *)
Definition keyed_by_name (book : AddressBook) : Prop :=
  Forall (fun item => name_value (name (snd item)) = fst item) (data book).

(** A record as the loop of [main] makes them: one valid phone, no
    birthday. *)
Definition fresh_contact (r : Record_) : Prop :=
  birthday r = None
  /\ exists p, phones r = [p] /\ ten_unicode_digits (phone_value p) = true.

(** The books a session of [main] can hold. *)
Definition session_book (book : AddressBook) : Prop :=
  dict_wf (data book) /\ keyed_by_name book
  /\ Forall (fun item => fresh_contact (snd item)) (data book).

(** The lines of a sequence up to the first the terminal cannot write. *)
Fixpoint written (t : terminal) (lines : list str) : list str :=
  match lines with
  | [] => []
  | line :: rest => if writable t line then line :: written t rest else []
  end.

(** The line the handler [birthdays] prints for a record in the window. *)
Definition birthday_line (today : datetime.date) (r : Record_) : str :=
  record_name r ++ u " birthday is on "
  ++ e_congradulation_date (entry_of today r) ++ u ".".

(** A terminal whose encoding is ASCII. *)
Definition ascii_terminal : terminal :=
  mkTerminal (fun _ => false)
    (fun _ => u "'ascii' codec can't encode character")
    (fun _ => eq_refl).

(** A book with a leap-day birthday beside one in the window of
    10.06.2025, and one with a name beyond ASCII between two others. *)
Definition mixed_book : AddressBook :=
  add_record
    (add_record (mkAddressBook []) (sample_record "Ann" 1990 6 12))
    (sample_record "Leo" 2024 2 29).

Definition accent_book : AddressBook :=
  add_record
    (add_record
       (add_record (mkAddressBook []) (sample_record "Ann" 1990 6 12))
       (mkRecord (mkName [90; 111; 235]) []
          (Some (mkBirthday (datetime.mkdatetime 1995 6 13 0 0 0 0)))))
    (sample_record "Bob" 1985 6 15).

(** The book, the terminal and the result of a call. *)
Definition printed {A : Type} (call : run A) : list event := fst (fst call).
Definition book_after {A : Type} (call : run A) : AddressBook :=
  snd (fst call).
Definition result_of {A : Type} (call : run A) : outcome A := snd call.

(** * Properties *)

Example ord2ymd_2024_06_15 :
  datetime.ord2ymd (datetime.ymd2ord 2024 6 15) = (2024, 6, 15)
  /\ datetime.weekday (datetime.mkdate 2024 6 15) = 5
  /\ datetime.date_strftime (datetime.mkdate 2024 6 5) = u "05.06.2024"
  /\ datetime.ord2ymd 3652059 = (9999, 12, 31)
  /\ datetime.ord2ymd 146097 = (400, 12, 31)
  /\ datetime.ord2ymd 1 = (1, 1, 1).
Proof. vm_compute. repeat split. Qed.

(** ** Strings *)

Lemma str_eqb_spec (a b : str) : str_eqb a b = true <-> a = b.
Proof.
  revert b; induction a as [|x a IH]; intros [|y b]; simpl;
    try (split; congruence).
  rewrite andb_true_iff, Z.eqb_eq, IH. split.
  - intros [-> ->]; reflexivity.
  - intros H; injection H; auto.
Qed.

Lemma str_eqb_refl (a : str) : str_eqb a a = true.
Proof. apply str_eqb_spec; reflexivity. Qed.

Lemma str_eqb_neq (a b : str) : str_eqb a b = false <-> a <> b.
Proof.
  rewrite <- str_eqb_spec. destruct (str_eqb a b); split; congruence.
Qed.

Lemma in_range_spec (lo hi c : Z) : in_range lo hi c = true <-> lo <= c <= hi.
Proof. unfold in_range. rewrite andb_true_iff, !Z.leb_le. tauto. Qed.

Lemma ascii_digit_is_unicode_digit (c : Z) :
  ascii_digit c = true -> is_unicode_digit c = true.
Proof.
  unfold ascii_digit, is_unicode_digit; intros H.
  apply existsb_exists. exists (48, 57). split; [left; reflexivity | exact H].
Qed.

Lemma unicode_digit_below_128 (c : Z) :
  is_unicode_digit c = true -> c < 128 -> ascii_digit c = true.
Proof.
  unfold is_unicode_digit, ascii_digit. intros H Hc.
  apply existsb_exists in H. destruct H as [[lo hi] [Hin H]].
  apply in_range_spec in H. apply in_range_spec. simpl in H.
  unfold DIGIT_RANGES in Hin. simpl in Hin.
  repeat (destruct Hin as [Hin|Hin];
          [injection Hin as <- <-; lia|]).
  contradiction.
Qed.

Lemma length_eq_len (v : str) (n : nat) :
  (len v =? Z.of_nat n) = (List.length v =? n)%nat.
Proof.
  unfold len. destruct (Nat.eqb_spec (List.length v) n) as [->|Hn].
  - apply Z.eqb_refl.
  - apply Z.eqb_neq. lia.
Qed.

(** ** Phone construction *)

Lemma Phone_init_cases (value : str) :
  Phone_init value =
    if ten_unicode_digits value then Ok (mkPhone value)
    else Raise (ValueError "Phone number must contain 10 digits.").
Proof.
  unfold Phone_init, ten_unicode_digits.
  change 10 with (Z.of_nat 10). rewrite length_eq_len.
  destruct value as [|c v]; [reflexivity|].
  unfold isdigit.
  destruct (forallb is_unicode_digit (c :: v));
    destruct (List.length (c :: v) =? 10)%nat; reflexivity.
Qed.

Lemma Phone_init_Ok (value : str) (p : Phone) :
  Phone_init value = Ok p ->
  p = mkPhone value /\ ten_unicode_digits value = true.
Proof.
  rewrite Phone_init_cases.
  destruct (ten_unicode_digits value); [|discriminate].
  intros H; injection H as <-; auto.
Qed.

Lemma ten_ascii_is_unicode (value : str) :
  ten_ascii_digits value = true -> ten_unicode_digits value = true.
Proof.
  unfold ten_ascii_digits, ten_unicode_digits.
  rewrite !andb_true_iff, !forallb_forall.
  intros [H ->]; split; [|reflexivity].
  intros c Hc; apply ascii_digit_is_unicode_digit; auto.
Qed.

Lemma ten_unicode_ascii_agree (value : str) :
  Forall (fun c => c < 128) value ->
  ten_unicode_digits value = ten_ascii_digits value.
Proof.
  unfold ten_ascii_digits, ten_unicode_digits. intros H. f_equal.
  induction H as [|c v Hc _ IH]; [reflexivity|]. simpl. rewrite IH. f_equal.
  destruct (is_unicode_digit c) eqn:E.
  - symmetry; apply unicode_digit_below_128; assumption.
  - destruct (ascii_digit c) eqn:E'; [|reflexivity].
    apply ascii_digit_is_unicode_digit in E'. congruence.
Qed.

Lemma constructed_phone_valid (p : Phone) :
  constructed (PhoneObj p) -> ten_unicode_digits (phone_value p) = true.
Proof.
  intros H; inversion H as [v p' Hv| | |]; subst.
  apply Phone_init_Ok in Hv. destruct Hv as [-> Hv]. exact Hv.
Qed.

Lemma reachable_phones_valid (r : Record_) :
  reachable r ->
  Forall (fun p => ten_unicode_digits (phone_value p) = true) (phones r).
Proof.
  assert (Hfilter : forall f ps,
    Forall (fun p => ten_unicode_digits (phone_value p) = true) ps ->
    Forall (fun p => ten_unicode_digits (phone_value p) = true)
           (filter f ps)).
  { intros f ps H. rewrite Forall_forall in *. intros p Hp.
    apply filter_In in Hp. apply H, Hp. }
  assert (Hadd : forall r0 o,
    Forall (fun p => ten_unicode_digits (phone_value p) = true) (phones r0) ->
    constructed o ->
    Forall (fun p => ten_unicode_digits (phone_value p) = true)
           (phones (fst (add_phone r0 o)))).
  { intros r0 o H Ho. destruct o; simpl; try assumption.
    apply Forall_app; split; [assumption|].
    constructor; [apply constructed_phone_valid; assumption | constructor]. }
  induction 1 as [n | r o _ IH Ho | r o _ IH Ho | r t _ IH | r t o _ IH Ho].
  - constructor.
  - apply Hadd; assumption.
  - destruct o; simpl; assumption.
  - simpl. apply Hfilter, IH.
  - unfold edit_phone. apply Hadd; [|assumption]. simpl. apply Hfilter, IH.
Qed.

(** C3, as the spec words it, fails: ten Arabic-Indic digits are no
    characters 0-9, and [str.isdigit] takes them. *)
Lemma Phone_init_accepts_other_digits :
  let value := [1633; 1634; 1635; 1636; 1637; 1638; 1639; 1640; 1641; 1632] in
  ~ ((exists p, Phone_init value = Ok p) <-> ten_ascii_digits value = true).
Proof.
  intros value [H _].
  assert (E : ten_ascii_digits value = true).
  { apply H. exists (mkPhone value). reflexivity. }
  vm_compute in E. discriminate.
Qed.

(** C3 (amended): Phone construction succeeds if and only if the value has
    length exactly 10 and every character is a digit in the sense of
    [str.isdigit]; on strings of ASCII characters that is: solely the
    digits 0-9.  Every string of ten digits 0-9 is accepted.  Every other
    outcome is the ValueError "Phone number must contain 10 digits.", and
    no phone that failed this test is ever stored in a record. *)
Theorem Phone_init_spec (value : str) :
  ((exists p, Phone_init value = Ok p) <-> ten_unicode_digits value = true)
  /\ (forall p, Phone_init value = Ok p -> phone_value p = value)
  /\ (ten_ascii_digits value = true -> Phone_init value = Ok (mkPhone value))
  /\ (Forall (fun c => c < 128) value ->
      ((exists p, Phone_init value = Ok p) <-> ten_ascii_digits value = true))
  /\ (ten_unicode_digits value = false ->
      Phone_init value =
        Raise (ValueError "Phone number must contain 10 digits."))
  /\ (forall r, reachable r ->
      Forall (fun p => ten_unicode_digits (phone_value p) = true) (phones r)).
Proof.
  assert (Hiff : (exists p, Phone_init value = Ok p)
                 <-> ten_unicode_digits value = true).
  { split.
    - intros [p Hp]. apply Phone_init_Ok in Hp. tauto.
    - intros H. exists (mkPhone value). rewrite Phone_init_cases, H.
      reflexivity. }
  repeat split.
  - apply Hiff.
  - apply Hiff.
  - intros p Hp. apply Phone_init_Ok in Hp. destruct Hp as [-> _].
    reflexivity.
  - intros H. apply ten_ascii_is_unicode in H.
    rewrite Phone_init_cases, H. reflexivity.
  - rewrite <- (ten_unicode_ascii_agree value) by assumption. apply Hiff.
  - rewrite <- (ten_unicode_ascii_agree value) by assumption. apply Hiff.
  - intros H. rewrite Phone_init_cases, H. reflexivity.
  - apply reachable_phones_valid.
Qed.

Lemma Phone_init_spec_witness :
  Phone_init (u "0501234567") = Ok (mkPhone (u "0501234567"))
  /\ Phone_init (u "12345") =
       Raise (ValueError "Phone number must contain 10 digits.")
  /\ Forall (fun p => ten_unicode_digits (phone_value p) = true)
       (phones (fst (add_phone (Record_init (u "Ann"))
                       (PhoneObj (mkPhone (u "0501234567")))))).
Proof.
  split; [|split].
  - apply (Phone_init_spec (u "0501234567")). reflexivity.
  - apply (Phone_init_spec (u "12345")). reflexivity.
  - apply (Phone_init_spec (u "12345")).
    apply reach_add_phone; [apply reach_init|].
    apply (constructed_phone (u "0501234567")). reflexivity.
Defined.

(** ** Editing and finding phones *)

Lemma filter_without (t : str) (ps : list Phone) :
  filter (fun p => negb (str_eqb (Phone_str p) t)) ps = without t ps.
Proof.
  induction ps as [|p ps IH]; [reflexivity|]. simpl.
  destruct (str_eq_dec (Phone_str p) t) as [E|E].
  - apply str_eqb_spec in E. rewrite E. exact IH.
  - apply str_eqb_neq in E. rewrite E. simpl. f_equal. exact IH.
Qed.

Lemma without_absent (t : str) (ps : list Phone) :
  (forall p, In p ps -> Phone_str p <> t) -> without t ps = ps.
Proof.
  induction ps as [|p ps IH]; intros H; [reflexivity|]. simpl.
  destruct (str_eq_dec (Phone_str p) t) as [E|E].
  - exfalso. apply (H p); [left; reflexivity | exact E].
  - f_equal. apply IH. intros q Hq. apply H. right; exact Hq.
Qed.

Lemma find_phone_in_app (ps qs : list Phone) (t : str) :
  find_phone_in (ps ++ qs) t =
    match find_phone_in ps t with
    | Some p => Some p
    | None => find_phone_in qs t
    end.
Proof.
  induction ps as [|p ps IH]; [reflexivity|]. simpl.
  destruct (str_eqb (Phone_str p) t); [reflexivity | exact IH].
Qed.

Lemma find_phone_in_without (t : str) (ps : list Phone) :
  find_phone_in (without t ps) t = None.
Proof.
  induction ps as [|p ps IH]; [reflexivity|]. simpl.
  destruct (str_eq_dec (Phone_str p) t) as [E|E]; [exact IH|].
  simpl. apply str_eqb_neq in E. rewrite E. exact IH.
Qed.

Lemma find_phone_in_Some (ps : list Phone) (t : str) (p : Phone) :
  find_phone_in ps t = Some p -> In p ps /\ Phone_str p = t.
Proof.
  induction ps as [|q ps IH]; [discriminate|]. simpl.
  destruct (str_eqb (Phone_str q) t) eqn:E.
  - intros H; injection H as <-. apply str_eqb_spec in E. auto.
  - intros H. apply IH in H. tauto.
Qed.

(** C6: [edit_phone(oldPhoneText, newPhone)] leaves the phone sequence
    equal to the original one with every entry whose string form equals
    [oldPhoneText] removed and [newPhone] appended at the end, and raises
    nothing; when no entry matched, the new phone is simply appended. *)
Theorem edit_phone_spec (r : Record_) (oldPhoneText : str) (newPhone : Phone) :
  edit_phone r oldPhoneText (PhoneObj newPhone) =
    (mkRecord (name r) (without oldPhoneText (phones r) ++ [newPhone])
       (birthday r), None)
  /\ ((forall p, In p (phones r) -> Phone_str p <> oldPhoneText) ->
      edit_phone r oldPhoneText (PhoneObj newPhone) =
        (mkRecord (name r) (phones r ++ [newPhone]) (birthday r), None)).
Proof.
  assert (E : edit_phone r oldPhoneText (PhoneObj newPhone) =
    (mkRecord (name r) (without oldPhoneText (phones r) ++ [newPhone])
       (birthday r), None)).
  { unfold edit_phone, add_phone, remove_phone. simpl.
    rewrite filter_without. reflexivity. }
  split; [exact E|].
  intros H. rewrite E, (without_absent _ _ H). reflexivity.
Qed.

Lemma edit_phone_spec_witness :
  let r := mkRecord (mkName (u "Ann")) [mkPhone (u "0501234567")] None in
  edit_phone r (u "0999999999") (PhoneObj (mkPhone (u "0670000000"))) =
    (mkRecord (mkName (u "Ann"))
       [mkPhone (u "0501234567"); mkPhone (u "0670000000")] None, None).
Proof.
  intros r.
  apply (edit_phone_spec r (u "0999999999") (mkPhone (u "0670000000"))).
  intros p [<-|[]]. vm_compute. discriminate.
Defined.




(** ** The address book *)

Lemma dict_get_set_same (d : dict) (k : str) (v : Record_) :
  dict_get (dict_set d k v) k = Some v.
Proof.
  induction d as [|[k' v'] d IH]; simpl.
  - rewrite str_eqb_refl. reflexivity.
  - destruct (str_eqb k' k) eqn:E; simpl; rewrite E; [reflexivity | exact IH].
Qed.

Lemma dict_get_None (d : dict) (k : str) :
  dict_get d k = None <-> ~ In k (dict_keys d).
Proof.
  induction d as [|[k' v'] d IH]; simpl; [tauto|].
  destruct (str_eqb k' k) eqn:E.
  - apply str_eqb_spec in E. split; [discriminate | tauto].
  - apply str_eqb_neq in E. rewrite IH. tauto.
Qed.

Lemma dict_keys_del (d : dict) (k x : str) :
  In x (dict_keys (dict_del d k)) -> In x (dict_keys d).
Proof.
  induction d as [|[k' v'] d IH]; simpl; [tauto|].
  destruct (str_eqb k' k); simpl; tauto.
Qed.

Lemma dict_get_del_same (d : dict) (k : str) :
  dict_wf d -> dict_get (dict_del d k) k = None.
Proof.
  unfold dict_wf. induction d as [|[k' v'] d IH]; simpl; [reflexivity|].
  intros H. inversion H as [|? ? Hnin Hnd]; subst.
  destruct (str_eqb k' k) eqn:E.
  - apply str_eqb_spec in E. subst k'. apply dict_get_None. exact Hnin.
  - simpl. rewrite E. apply IH. exact Hnd.
Qed.

Lemma dict_keys_set (d : dict) (k : str) (v : Record_) :
  dict_keys (dict_set d k v) =
    if dict_contains d k then dict_keys d else dict_keys d ++ [k].
Proof.
  unfold dict_contains. induction d as [|[k' v'] d IH]; simpl; [reflexivity|].
  destruct (str_eqb k' k) eqn:E; simpl; [reflexivity|].
  rewrite IH. destruct (dict_get d k); reflexivity.
Qed.

Lemma dict_set_wf (d : dict) (k : str) (v : Record_) :
  dict_wf d -> dict_wf (dict_set d k v).
Proof.
  unfold dict_wf. intros H. rewrite dict_keys_set. unfold dict_contains.
  destruct (dict_get d k) eqn:E; [exact H|].
  apply dict_get_None in E.
  apply NoDup_rev in H. rewrite <- (rev_involutive (dict_keys d ++ [k])).
  apply NoDup_rev. rewrite rev_app_distr. simpl.
  constructor; [rewrite <- in_rev; exact E | exact H].
Qed.

Lemma dict_del_wf (d : dict) (k : str) : dict_wf d -> dict_wf (dict_del d k).
Proof.
  unfold dict_wf. induction d as [|[k' v'] d IH]; simpl; [auto|].
  intros H. inversion H as [|? ? Hnin Hnd]; subst.
  destruct (str_eqb k' k); [exact Hnd|]. simpl.
  constructor; [|apply IH; exact Hnd].
  intros Hin. apply Hnin. eapply dict_keys_del; exact Hin.
Qed.

(** C9: after [add_record(record)], [find] of the record's name returns a
    record with that name (the record added); after [delete(name)],
    [find(name)] returns absent; [find] raises nothing, and returns the
    absence value exactly when the name is not a key. *)
Theorem add_delete_find (book : AddressBook) (record : Record_) (n : str) :
  dict_wf (data book) ->
  (exists r, find (add_record book record) (name_value (name record)) = Some r
             /\ name r = name record /\ r = record)
  /\ find (delete book n) n = None
  /\ (find book n = None <-> ~ In n (dict_keys (data book)))
  /\ dict_wf (data (add_record book record))
  /\ dict_wf (data (delete book n)).
Proof.
  intros Hwf. unfold find, add_record, delete. simpl.
  split; [|split; [|split; [|split]]].
  - exists record. rewrite dict_get_set_same. auto.
  - unfold dict_contains. destruct (dict_get (data book) n) eqn:E.
    + simpl. apply dict_get_del_same. exact Hwf.
    + exact E.
  - apply dict_get_None.
  - apply dict_set_wf. exact Hwf.
  - destruct (dict_contains (data book) n); [|exact Hwf].
    simpl. apply dict_del_wf. exact Hwf.
Qed.

Lemma add_delete_find_witness :
  let ann := mkRecord (mkName (u "Ann")) [mkPhone (u "0501234567")] None in
  let book := add_record (mkAddressBook []) (Record_init (u "Bob")) in
  find (add_record book ann) (u "Ann") = Some ann
  /\ find (delete book (u "Bob")) (u "Bob") = None.
Proof.
  intros ann book.
  assert (Hwf : dict_wf (data book)).
  { unfold dict_wf. simpl. constructor; [simpl; tauto | constructor]. }
  destruct (add_delete_find book ann (u "Bob") Hwf)
    as [[r [Hr [_ ->]]] [Hd _]].
  split; [exact Hr | exact Hd].
Defined.

(** ** Calendar arithmetic *)

Import datetime.

Lemma forall_range_spec (n : nat) (lo : Z) (P : Z -> bool) :
  forall_range n lo P = true ->
  forall z, lo <= z < lo + Z.of_nat n -> P z = true.
Proof.
  revert lo; induction n as [|n IH]; intros lo H z Hz; [lia|].
  simpl in H. destruct (P lo) eqn:E; [|discriminate].
  destruct (Z.eq_dec z lo) as [->|Hne]; [exact E|].
  apply (IH (lo + 1) H). lia.
Qed.

Lemma first_cycle_checked :
  forall_range (Z.to_nat 146097) 0 cycle_ok = true.
Proof. vm_cast_no_check (@eq_refl bool true). Qed.

Lemma first_cycle_ok (r : Z) : 0 <= r < 146097 -> cycle_ok r = true.
Proof.
  intros H.
  apply (forall_range_spec (Z.to_nat 146097) 0 cycle_ok first_cycle_checked).
  rewrite Z2Nat.id; lia.
Qed.

Lemma is_leap_shift (y q : Z) : is_leap (y + 400 * q) = is_leap y.
Proof.
  unfold is_leap.
  replace ((y + 400 * q) mod 4) with (y mod 4)
    by (replace (y + 400 * q) with (y + (100 * q) * 4) by ring;
        symmetry; apply Z_mod_plus_full).
  replace ((y + 400 * q) mod 100) with (y mod 100)
    by (replace (y + 400 * q) with (y + (4 * q) * 100) by ring;
        symmetry; apply Z_mod_plus_full).
  replace ((y + 400 * q) mod 400) with (y mod 400)
    by (replace (y + 400 * q) with (y + q * 400) by ring;
        symmetry; apply Z_mod_plus_full).
  reflexivity.
Qed.

Lemma days_before_year_shift (y q : Z) :
  days_before_year (y + 400 * q) = days_before_year y + 146097 * q.
Proof.
  unfold days_before_year. cbv zeta.
  replace ((y + 400 * q - 1) / 4) with ((y - 1) / 4 + 100 * q)
    by (replace (y + 400 * q - 1) with (y - 1 + (100 * q) * 4) by ring;
        symmetry; apply Z_div_plus_full; lia).
  replace ((y + 400 * q - 1) / 100) with ((y - 1) / 100 + 4 * q)
    by (replace (y + 400 * q - 1) with (y - 1 + (4 * q) * 100) by ring;
        symmetry; apply Z_div_plus_full; lia).
  replace ((y + 400 * q - 1) / 400) with ((y - 1) / 400 + q)
    by (replace (y + 400 * q - 1) with (y - 1 + q * 400) by ring;
        symmetry; apply Z_div_plus_full; lia).
  ring.
Qed.

Lemma ymd2ord_shift (y m d q : Z) :
  ymd2ord (y + 400 * q) m d = ymd2ord y m d + 146097 * q.
Proof.
  unfold ymd2ord, days_before_month.
  rewrite days_before_year_shift, is_leap_shift. ring.
Qed.

Lemma days_in_month_shift (y m q : Z) :
  days_in_month (y + 400 * q) m = days_in_month y m.
Proof. unfold days_in_month. rewrite is_leap_shift. reflexivity. Qed.

Lemma ord2ymd_shift (n q : Z) :
  ord2ymd (n + 146097 * q) =
    let '(y, m, d) := ord2ymd n in (y + 400 * q, m, d).
Proof.
  unfold ord2ymd. cbv zeta. change DI400Y with 146097.
  replace ((n + 146097 * q - 1) / 146097) with ((n - 1) / 146097 + q)
    by (replace (n + 146097 * q - 1) with (n - 1 + q * 146097) by ring;
        symmetry; apply Z_div_plus_full; lia).
  replace ((n + 146097 * q - 1) mod 146097) with ((n - 1) mod 146097)
    by (replace (n + 146097 * q - 1) with (n - 1 + q * 146097) by ring;
        symmetry; apply Z_mod_plus_full).
  set (r := (n - 1) mod 146097).
  repeat match goal with
         | |- context [if ?b then _ else _] => destruct b
         end; f_equal; f_equal; ring.
Qed.

Lemma cycle_ok_spec (r y m d : Z) :
  cycle_ok r = true -> ord2ymd (r + 1) = (y, m, d) ->
  ymd2ord y m d = r + 1 /\ 1 <= y <= 400 /\ 1 <= m <= 12
  /\ 1 <= d <= days_in_month y m.
Proof.
  unfold cycle_ok. intros H E. rewrite E in H.
  rewrite !andb_true_iff, Z.eqb_eq, !Z.leb_le in H. lia.
Qed.

Lemma ord2ymd_spec (n y m d : Z) :
  1 <= n -> ord2ymd n = (y, m, d) ->
  ymd2ord y m d = n /\ 1 <= y /\ 1 <= m <= 12
  /\ 1 <= d <= days_in_month y m.
Proof.
  intros Hn E.
  pose proof (Z.div_mod (n - 1) 146097 ltac:(lia)) as Hdm.
  pose proof (Z.mod_pos_bound (n - 1) 146097 ltac:(lia)) as Hr.
  assert (Hq : 0 <= (n - 1) / 146097) by (apply Z.div_pos; lia).
  set (q := (n - 1) / 146097) in *. set (r := (n - 1) mod 146097) in *.
  replace n with (r + 1 + 146097 * q) in E by lia.
  rewrite ord2ymd_shift in E.
  destruct (ord2ymd (r + 1)) as [[y0 m0] d0] eqn:E0.
  apply pair_equal_spec in E. destruct E as [E <-].
  apply pair_equal_spec in E. destruct E as [<- <-].
  destruct (cycle_ok_spec r y0 m0 d0 (first_cycle_ok r Hr) E0)
    as (Ho & Hy & Hm & Hd).
  rewrite ymd2ord_shift, days_in_month_shift. lia.
Qed.

Lemma days_before_year_lower (y : Z) :
  10000 <= y -> 3652059 <= days_before_year y.
Proof.
  intros H. unfold days_before_year. cbv zeta.
  Z.div_mod_to_equations. lia.
Qed.

Lemma date_valid_spec (d : date) :
  date_valid d = true <->
  1 <= year d <= 9999 /\ 1 <= month d <= 12
  /\ 1 <= day d <= days_in_month (year d) (month d).
Proof.
  unfold date_valid. rewrite !andb_true_iff, !Z.leb_le. tauto.
Qed.

Lemma month_cases (m : Z) :
  1 <= m <= 12 ->
  m = 1 \/ m = 2 \/ m = 3 \/ m = 4 \/ m = 5 \/ m = 6 \/ m = 7 \/ m = 8
  \/ m = 9 \/ m = 10 \/ m = 11 \/ m = 12.
Proof. lia. Qed.

Ltac calc_index :=
  repeat match goal with
         | |- context [index ?t ?k] =>
             let v := eval vm_compute in (index t k) in
             change (index t k) with v
         | H : context [index ?t ?k] |- _ =>
             let v := eval vm_compute in (index t k) in
             change (index t k) with v in H
         | |- context [if ?b then ?x else ?z] =>
             let v := eval vm_compute in (if b then x else z) in
             change (if b then x else z) with v
         | H : context [if ?b then ?x else ?z] |- _ =>
             let v := eval vm_compute in (if b then x else z) in
             change (if b then x else z) with v in H
         end.

Lemma days_in_year_bound (y m d : Z) :
  1 <= m <= 12 -> 1 <= d <= days_in_month y m ->
  1 <= days_before_month y m + d <= (if is_leap y then 366 else 365)
  /\ d <= 31.
Proof.
  intros Hm Hd. unfold days_before_month, days_in_month in *.
  destruct (month_cases m Hm) as
    [->|[->|[->|[->|[->|[->|[->|[->|[->|[->|[->| ->]]]]]]]]]]];
    destruct (is_leap y); calc_index; lia.
Qed.

Lemma fromordinal_valid (n : Z) :
  1 <= n <= MAXORDINAL ->
  date_valid (fromordinal n) = true /\ toordinal (fromordinal n) = n.
Proof.
  unfold MAXORDINAL, fromordinal, toordinal. intros Hn.
  destruct (ord2ymd n) as [[y m] d] eqn:E. simpl.
  destruct (ord2ymd_spec n y m d ltac:(lia) E) as (Ho & Hy & Hm & Hd).
  split; [|exact Ho].
  apply date_valid_spec. simpl. repeat split; try lia.
  destruct (Z_le_gt_dec y 9999) as [Hle|Hgt]; [exact Hle|exfalso].
  pose proof (days_before_year_lower y ltac:(lia)).
  pose proof (days_in_year_bound y m d Hm Hd).
  unfold ymd2ord in Ho. lia.
Qed.

Lemma year_end_bound (y : Z) :
  y <= 9999 ->
  days_before_year y + (if is_leap y then 366 else 365) <= 3652059.
Proof.
  intros Hy. unfold is_leap, days_before_year. cbv zeta.
  destruct (y mod 4 =? 0) eqn:E4.
  - apply Z.eqb_eq in E4.
    destruct (negb (y mod 100 =? 0) || (y mod 400 =? 0)); simpl;
      Z.div_mod_to_equations; lia.
  - simpl. Z.div_mod_to_equations. lia.
Qed.

Lemma toordinal_bounds (d : date) :
  date_valid d = true -> 1 <= toordinal d <= MAXORDINAL.
Proof.
  intros H. apply date_valid_spec in H. destruct H as (Hy & Hm & Hd).
  pose proof (days_in_year_bound _ _ _ Hm Hd) as [Hb _].
  pose proof (year_end_bound (year d) ltac:(lia)).
  assert (0 <= days_before_year (year d)).
  { unfold days_before_year. cbv zeta. Z.div_mod_to_equations. lia. }
  unfold toordinal, ymd2ord, MAXORDINAL.
  destruct (is_leap (year d)); lia.
Qed.

Lemma weekday_range (d : date) : 0 <= weekday d <= 6.
Proof.
  unfold weekday.
  pose proof (Z.mod_pos_bound (toordinal d + 6) 7 ltac:(lia)). lia.
Qed.

Lemma weekday_plus_days (d : date) (n : Z) :
  1 <= toordinal d + n <= MAXORDINAL ->
  weekday (plus_days d n) = (weekday d + n) mod 7.
Proof.
  intros H. unfold weekday, plus_days.
  destruct (fromordinal_valid _ H) as [_ ->].
  rewrite Zplus_mod_idemp_l. f_equal. ring.
Qed.

Lemma weekend_monday_in_range (d : date) :
  date_valid d = true -> is_weekend d = true ->
  1 <= toordinal d + (7 - weekday d) <= MAXORDINAL.
Proof.
  intros Hv Hw. pose proof (toordinal_bounds d Hv) as Hb.
  unfold is_weekend in Hw. rewrite orb_true_iff, !Z.eqb_eq in Hw.
  unfold weekday, MAXORDINAL in *.
  Z.div_mod_to_equations. lia.
Qed.

Lemma congratulation_spec (d : date) :
  date_valid d = true ->
  date_valid (congratulation d) = true
  /\ 0 <= weekday (congratulation d) <= 4
  /\ (is_weekend d = true -> weekday (congratulation d) = 0).
Proof.
  intros Hv. unfold congratulation.
  destruct (is_weekend d) eqn:Hw.
  - pose proof (weekend_monday_in_range d Hv Hw) as Hr.
    rewrite weekday_plus_days by exact Hr.
    replace (weekday d + (7 - weekday d)) with 7 by ring.
    split; [apply fromordinal_valid; exact Hr|]. 
    change (7 mod 7) with 0. lia.
  - split; [exact Hv|]. split; [|discriminate].
    unfold is_weekend in Hw. rewrite orb_false_iff, !Z.eqb_neq in Hw.
    pose proof (weekday_range d). lia.
Qed.

Lemma days_before_year_succ (y : Z) :
  days_before_year (y + 1)
  = days_before_year y + (if is_leap y then 366 else 365).
Proof.
  unfold days_before_year, is_leap. cbv zeta.
  destruct (y mod 4 =? 0) eqn:E4; destruct (y mod 100 =? 0) eqn:E100;
    destruct (y mod 400 =? 0) eqn:E400; cbn [andb orb negb];
    rewrite ?Z.eqb_eq, ?Z.eqb_neq in *;
    Z.div_mod_to_equations; lia.
Qed.

Lemma days_before_year_mono (y1 y2 : Z) :
  y1 <= y2 -> days_before_year y1 <= days_before_year y2.
Proof.
  intros H. unfold days_before_year. cbv zeta.
  Z.div_mod_to_equations. lia.
Qed.




Lemma new_date_cases (y m d : Z) :
  (date_valid (mkdate y m d) = true /\ new_date y m d = Ok (mkdate y m d))
  \/ (date_valid (mkdate y m d) = false
      /\ exists msg, new_date y m d = Raise (ValueError msg)).
Proof.
  unfold new_date, check_date_fields, date_valid, MINYEAR, MAXYEAR. simpl.
  destruct (1 <=? y), (y <=? 9999); simpl; eauto.
  destruct (1 <=? m), (m <=? 12); simpl; eauto.
  destruct (1 <=? d), (d <=? days_in_month y m); simpl; eauto.
Qed.

Lemma add_days_weekend (d : date) :
  date_valid d = true -> is_weekend d = true ->
  add_days d (7 - weekday d) = Ok (plus_days d (7 - weekday d)).
Proof.
  intros Hv Hw. unfold add_days, plus_days.
  pose proof (weekend_monday_in_range d Hv Hw) as Hr.
  assert (E : (0 <? toordinal d + (7 - weekday d))
              && (toordinal d + (7 - weekday d) <=? MAXORDINAL) = true).
  { rewrite andb_true_iff, Z.ltb_lt, Z.leb_le. lia. }
  rewrite E. reflexivity.
Qed.

Lemma congratulate_Ok (d : date) (acc : list entry) (n : str) :
  date_valid d = true ->
  (congradulation_date <-
     (if (weekday d =? 5) || (weekday d =? 6) then
        monday_after_birthday <- add_days d (7 - weekday d) ;;
        Ok (date_strftime monday_after_birthday)
      else Ok (date_strftime d)) ;;
   Ok (acc ++ [mkEntry n congradulation_date]))
  = Ok (acc ++ [mkEntry n (date_strftime (congratulation d))]).
Proof.
  intros Hv. unfold congratulation. fold (is_weekend d).
  destruct (is_weekend d) eqn:Hw; [|reflexivity].
  rewrite (add_days_weekend d Hv Hw). reflexivity.
Qed.

(** *** The loop of [get_upcoming_birthdays], for a fixed reading of the
    clock *)

Section upcoming.

Variable today : date.

Lemma upcoming_step_cases (acc : list entry) (r : Record_) :
  match birthday r with
  | None => upcoming_step today acc r = Ok acc
  | Some b =>
      if rebasable today (birthday_date b) then
        date_valid (rebased today (birthday_date b)) = true
        /\ upcoming_step today acc r =
             Ok (acc ++ if in_window today r then [entry_of today r] else [])
      else exists msg, upcoming_step today acc r = Raise (ValueError msg)
  end.
Proof.
  unfold upcoming_step, in_window, entry_of, rebasable, days_until, rebased.
  destruct (birthday r) as [b|]; [|reflexivity].
  fold (birthday_date b). generalize (birthday_date b). intros bd.
  unfold replace_year. cbv zeta. cbn [year month day].
  destruct (new_date_cases (year today) (month bd) (day bd))
    as [[Hv ->]|[Hv [msg ->]]]; rewrite Hv; cbn [bind andb]; [|eauto].
  destruct (lt (mkdate (year today) (month bd) (day bd)) today) eqn:Hlt;
    cbn [year month day].
  - destruct (new_date_cases (year today + 1) (month bd) (day bd))
      as [[Hv' ->]|[Hv' [msg ->]]]; rewrite Hv'; cbn [bind]; [|eauto].
    split; [reflexivity|].
    set (d := mkdate (year today + 1) (month bd) (day bd)) in *.
    destruct ((0 <=? sub_days d today) && (sub_days d today <=? 7));
      cbv iota; [|rewrite app_nil_r; reflexivity].
    apply congratulate_Ok. exact Hv'.
  - cbn [bind]. split; [exact Hv|].
    set (d := mkdate (year today) (month bd) (day bd)) in *.
    destruct ((0 <=? sub_days d today) && (sub_days d today <=? 7));
      cbv iota; [|rewrite app_nil_r; reflexivity].
    apply congratulate_Ok. exact Hv.
Qed.

Lemma upcoming_loop_Ok (rs : list Record_) :
  forall acc out,
  upcoming_loop today rs acc = Ok out ->
  out = acc ++ map (entry_of today) (filter (in_window today) rs)
  /\ (forall r b, In r rs -> birthday r = Some b ->
      rebasable today (birthday_date b) = true
      /\ date_valid (rebased today (birthday_date b)) = true).
Proof.
  induction rs as [|r rs IH]; intros acc out H; simpl in H.
  - injection H as <-. rewrite app_nil_r. split; [reflexivity|].
    intros r b [].
  - pose proof (upcoming_step_cases acc r) as Hs.
    destruct (upcoming_step today acc r) as [acc'|e] eqn:E;
      [|discriminate]. cbn [bind] in H.
    destruct (IH _ _ H) as [-> Hrs]. simpl.
    destruct (birthday r) as [b|] eqn:Hb.
    + destruct (rebasable today (birthday_date b)) eqn:Hreb;
        [|destruct Hs as [msg Hs]; discriminate].
      destruct Hs as [Hv Hs]. injection Hs as ->. split.
      * destruct (in_window today r); simpl; rewrite <- app_assoc;
          reflexivity.
      * intros r' b' [<-|Hin] Hb'; [|eapply Hrs; eassumption].
        rewrite Hb in Hb'. injection Hb' as <-. auto.
    + injection Hs as ->. split.
      * replace (in_window today r) with false
          by (unfold in_window; rewrite Hb; reflexivity).
        reflexivity.
      * intros r' b' [<-|Hin] Hb'; [congruence|eapply Hrs; eassumption].
Qed.

Lemma upcoming_loop_returns (rs : list Record_) :
  (forall r b, In r rs -> birthday r = Some b ->
   rebasable today (birthday_date b) = true) ->
  forall acc, exists out, upcoming_loop today rs acc = Ok out.
Proof.
  induction rs as [|r rs IH]; intros Hall acc; simpl; [eauto|].
  pose proof (upcoming_step_cases acc r) as Hs.
  destruct (birthday r) as [b|] eqn:Hb.
  - rewrite (Hall r b (or_introl eq_refl) Hb) in Hs. destruct Hs as [_ ->].
    cbn [bind]. apply IH. intros r' b' Hin. apply Hall. right; exact Hin.
  - rewrite Hs. cbn [bind]. apply IH. intros r' b' Hin. apply Hall.
    right; exact Hin.
Qed.

Lemma upcoming_loop_raises (rs : list Record_) :
  forall r b, In r rs -> birthday r = Some b ->
  rebasable today (birthday_date b) = false ->
  forall acc, exists msg, upcoming_loop today rs acc = Raise (ValueError msg).
Proof.
  induction rs as [|r0 rs IH]; intros r b Hin Hb Hreb acc; [destruct Hin|].
  simpl. pose proof (upcoming_step_cases acc r0) as Hs.
  destruct (birthday r0) as [b0|] eqn:Hb0.
  - destruct (rebasable today (birthday_date b0)) eqn:Hreb0.
    + destruct Hs as [_ ->]. cbn [bind].
      destruct Hin as [->|Hin]; [congruence|]. eapply IH; eassumption.
    + destruct Hs as [msg ->]. cbn [bind]. eauto.
  - rewrite Hs. cbn [bind].
    destruct Hin as [->|Hin]; [congruence|]. eapply IH; eassumption.
Qed.

End upcoming.

Lemma zfill2_decimal (n : Z) :
  0 <= n < 100 -> zfill 2 (decimal n) = [48 + n / 10; 48 + n mod 10].
Proof.
  intros H. apply str_eqb_spec.
  apply (forall_range_spec (Z.to_nat 100) 0
           (fun n => str_eqb (zfill 2 (decimal n))
                       [48 + n / 10; 48 + n mod 10])).
  - vm_compute. reflexivity.
  - rewrite Z2Nat.id; lia.
Qed.

(** From 1000 on a year is written in four digits. *)
Lemma decimal_four_digits (n : Z) :
  1000 <= n < 10000 ->
  decimal n =
    [48 + n / 1000; 48 + (n / 100) mod 10; 48 + (n / 10) mod 10;
     48 + n mod 10].
Proof.
  intros H. apply str_eqb_spec.
  assert (G : (n <? 1000)
              || str_eqb (decimal n)
                   [48 + n / 1000; 48 + (n / 100) mod 10;
                    48 + (n / 10) mod 10; 48 + n mod 10] = true).
  { apply (forall_range_spec (Z.to_nat 10000) 0
             (fun n => (n <? 1000)
                       || str_eqb (decimal n)
                            [48 + n / 1000; 48 + (n / 100) mod 10;
                             48 + (n / 10) mod 10; 48 + n mod 10])).
    - vm_compute. reflexivity.
    - rewrite Z2Nat.id; lia. }
  apply orb_true_iff in G. destruct G as [G|G]; [|exact G].
  apply Z.ltb_lt in G. lia.
Qed.

(** Below 1000 it takes three digits at most. *)
Lemma decimal_short (n : Z) :
  0 <= n < 1000 -> (List.length (decimal n) <= 3)%nat.
Proof.
  intros H. apply Nat.leb_le.
  apply (forall_range_spec (Z.to_nat 1000) 0
           (fun n => (List.length (decimal n) <=? 3)%nat)).
  - vm_compute. reflexivity.
  - rewrite Z2Nat.id; lia.
Qed.

(** [int] reads back the number [decimal] wrote. *)
Lemma int_decimal (n : Z) : 0 <= n < 10000 -> int (decimal n) = Some n.
Proof.
  intros H.
  assert (G : match int (decimal n) with
              | Some v => v =? n
              | None => false
              end = true).
  { apply (forall_range_spec (Z.to_nat 10000) 0
             (fun n => match int (decimal n) with
                       | Some v => v =? n
                       | None => false
                       end)).
    - vm_compute. reflexivity.
    - rewrite Z2Nat.id; lia. }
  destruct (int (decimal n)) as [v|]; [|discriminate].
  apply Z.eqb_eq in G. congruence.
Qed.

Lemma strftime_dmY_prefix (y m d : Z) :
  0 <= m < 100 -> 0 <= d < 100 ->
  strftime_dmY y m d =
    [48 + d / 10; 48 + d mod 10; 46; 48 + m / 10; 48 + m mod 10; 46]
    ++ decimal y.
Proof.
  intros Hm Hd. unfold strftime_dmY.
  rewrite (zfill2_decimal d Hd), (zfill2_decimal m Hm). reflexivity.
Qed.

Lemma strftime_dmY_shape (y m d : Z) :
  1000 <= y < 10000 -> 0 <= m < 100 -> 0 <= d < 100 ->
  strftime_dmY y m d =
    [48 + d / 10; 48 + d mod 10; 46; 48 + m / 10; 48 + m mod 10; 46;
     48 + y / 1000; 48 + (y / 100) mod 10; 48 + (y / 10) mod 10;
     48 + y mod 10].
Proof.
  intros Hy Hm Hd.
  rewrite strftime_dmY_prefix by assumption.
  rewrite (decimal_four_digits y Hy). reflexivity.
Qed.

Lemma date_valid_ranges (d : date) :
  date_valid d = true ->
  1 <= year d < 10000 /\ 1 <= month d <= 12 /\ 1 <= day d <= 31.
Proof.
  intros H. apply date_valid_spec in H. destruct H as (Hy & Hm & Hd).
  pose proof (days_in_year_bound _ _ _ Hm Hd). lia.
Qed.


Lemma cons_eq_inv {A : Type} (x y : A) (l l' : list A) :
  x :: l = y :: l' -> x = y /\ l = l'.
Proof. intros H; split; congruence. Qed.

Lemma date_strftime_inj (d d' : date) :
  date_valid d = true -> date_valid d' = true ->
  date_strftime d = date_strftime d' -> d = d'.
Proof.
  intros H H' E.
  apply date_valid_ranges in H. destruct H as (Hy & Hm & Hd).
  apply date_valid_ranges in H'. destruct H' as (Hy' & Hm' & Hd').
  unfold date_strftime in E.
  rewrite !strftime_dmY_prefix in E by lia.
  destruct d as [y m dd], d' as [y' m' dd']. cbn [year month day app] in *.
  repeat (apply cons_eq_inv in E; destruct E as [? E]).
  apply (f_equal int) in E. rewrite !int_decimal in E by lia.
  injection E as ->.
  f_equal; Z.div_mod_to_equations; lia.
Qed.

Lemma Forall2_map_r {A B : Type} (P : A -> B -> Prop) (f : A -> B)
    (l : list A) :
  (forall a, In a l -> P a (f a)) -> Forall2 P l (map f l).
Proof.
  induction l as [|a l IH]; intros H; simpl; constructor.
  - apply H. left; reflexivity.
  - apply IH. intros a' Ha'. apply H. right; exact Ha'.
Qed.

Lemma in_window_spec (today : date) (r : Record_) :
  in_window today r = true <->
  exists b, birthday r = Some b
            /\ 0 <= days_until today (birthday_date b) <= 7.
Proof.
  unfold in_window. destruct (birthday r) as [b|].
  - rewrite andb_true_iff, !Z.leb_le. split.
    + intros H. exists b. split; [reflexivity | lia].
    + intros [b' [E H]]. injection E as <-. lia.
  - split; [discriminate | intros [b [E _]]; discriminate].
Qed.

(** X27: whenever [get_upcoming_birthdays] returns, the names it emits
    are, in the order of the directory, those of exactly the records that
    have a birthday attached and whose birthday, re-based onto today's year
    (advanced to next year when strictly before today), has
    [0 <= days_until <= 7].  A record whose adjusted birthday falls on
    today is included; a record with no birthday is never included.  The
    function does return when both [replace] calls go through for every
    birthday of the directory. *)
Theorem upcoming_birthdays_window (book : AddressBook) (today : date) :
  ((forall r b, In r (dict_values (data book)) -> birthday r = Some b ->
    rebasable today (birthday_date b) = true) ->
   exists out, get_upcoming_birthdays book today = Ok out)
  /\ forall out, get_upcoming_birthdays book today = Ok out ->
     map e_name out =
       map record_name (filter (in_window today) (dict_values (data book)))
     /\ (forall r, In r (filter (in_window today) (dict_values (data book)))
         <-> In r (dict_values (data book))
             /\ exists b, birthday r = Some b
                  /\ 0 <= days_until today (birthday_date b) <= 7)
     /\ (forall r b, In r (dict_values (data book)) ->
         birthday r = Some b -> days_until today (birthday_date b) = 0 ->
         In (record_name r) (map e_name out))
     /\ (forall r, In r (dict_values (data book)) -> birthday r = None ->
         ~ In r (filter (in_window today) (dict_values (data book)))).
Proof.
  unfold get_upcoming_birthdays. split.
  - intros H. apply upcoming_loop_returns. exact H.
  - intros out Hout. apply upcoming_loop_Ok in Hout.
    destruct Hout as [-> _]. simpl.
    assert (Hnames : map e_name
              (map (entry_of today)
                 (filter (in_window today) (dict_values (data book)))) =
            map record_name
              (filter (in_window today) (dict_values (data book)))).
    { rewrite map_map. reflexivity. }
    split; [exact Hnames|]. split; [|split].
    + intros r. rewrite filter_In, in_window_spec. reflexivity.
    + intros r b Hin Hb H0. rewrite Hnames. apply in_map.
      apply filter_In. split; [exact Hin|].
      apply in_window_spec. exists b. split; [exact Hb | lia].
    + intros r Hin Hb Hf. apply filter_In in Hf. destruct Hf as [_ Hf].
      unfold in_window in Hf. rewrite Hb in Hf. discriminate.
Qed.


(** C10: every congratulation date emitted is the rendering of a date, and
    the date it renders falls on Monday to Friday, never on a Saturday or
    a Sunday. *)
Theorem congratulation_on_working_day (book : AddressBook) (today : date)
    (out : list entry) :
  get_upcoming_birthdays book today = Ok out ->
  Forall
    (fun e =>
       (exists d, date_valid d = true
                  /\ date_strftime d = e_congradulation_date e)
       /\ forall d, date_valid d = true ->
                    date_strftime d = e_congradulation_date e ->
                    0 <= weekday d <= 4)
    out.
Proof.
  unfold get_upcoming_birthdays. intros Hout.
  apply upcoming_loop_Ok in Hout. destruct Hout as [-> Hvalid]. simpl.
  apply Forall_forall. intros e He. apply in_map_iff in He.
  destruct He as [r [<- Hr]]. apply filter_In in Hr.
  destruct Hr as [Hin Hw].
  apply in_window_spec in Hw. destruct Hw as [b [Hb _]].
  destruct (Hvalid r b Hin Hb) as [_ Hv].
  unfold entry_of. rewrite Hb. cbn [e_congradulation_date].
  destruct (congratulation_spec _ Hv) as (Hcv & Hwd & _).
  split.
  - eexists. split; [exact Hcv | reflexivity].
  - intros d Hd E. apply date_strftime_inj in E; [|assumption|assumption].
    subst d. exact Hwd.
Qed.

Lemma leap_day_not_rebasable (today bd : date) :
  month bd = 2 -> day bd = 29 -> is_leap (year today) = false ->
  rebasable today bd = false.
Proof.
  intros Hm Hd Hl. unfold rebasable, date_valid, days_in_month. cbv zeta.
  cbn [year month day]. rewrite Hm, Hd, Hl.
  change ((2 =? 2) && false) with false. cbv iota.
  change (index DAYS_IN_MONTH 2) with 28. change (29 <=? 28) with false.
  rewrite !andb_false_r. reflexivity.
Qed.

(** C5 (what the code does instead of resolving the date): with a record
    whose birthday is February 29 in the directory and a today whose year
    is not a leap year, [get_upcoming_birthdays] raises a ValueError. *)
Theorem leap_day_birthday_raises (book : AddressBook) (today : date)
    (r : Record_) (b : Birthday) :
  In r (dict_values (data book)) -> birthday r = Some b ->
  month (birthday_date b) = 2 -> day (birthday_date b) = 29 ->
  is_leap (year today) = false ->
  exists msg, get_upcoming_birthdays book today = Raise (ValueError msg).
Proof.
  intros Hin Hb Hm Hd Hl. unfold get_upcoming_birthdays.
  eapply upcoming_loop_raises; [exact Hin | exact Hb|].
  apply leap_day_not_rebasable; assumption.
Qed.

(** C1 (where the code departs from it): a record that has a birthday
    with [0 <= days_until <= 7] is not included when the directory also
    holds a record whose birthday is February 29 and today's year is not a
    leap year.  [replace] raises for that record, so
    [get_upcoming_birthdays] raises a ValueError and returns no list: no
    record at all is included. *)
Theorem upcoming_birthdays_lost_with_leap_day (book : AddressBook)
    (today : date) (r l : Record_) (b : Birthday) :
  In r (dict_values (data book)) -> in_window today r = true ->
  In l (dict_values (data book)) -> birthday l = Some b ->
  month (birthday_date b) = 2 -> day (birthday_date b) = 29 ->
  is_leap (year today) = false ->
  (exists b', birthday r = Some b'
              /\ 0 <= days_until today (birthday_date b') <= 7)
  /\ (exists msg, get_upcoming_birthdays book today = Raise (ValueError msg))
  /\ ~ (exists out, get_upcoming_birthdays book today = Ok out
                    /\ In (record_name r) (map e_name out)).
Proof.
  intros Hr Hw Hl Hb Hm Hd Hleap.
  assert (Hraise : exists msg,
            get_upcoming_birthdays book today = Raise (ValueError msg)).
  { unfold get_upcoming_birthdays.
    eapply upcoming_loop_raises; [exact Hl | exact Hb|].
    apply leap_day_not_rebasable; assumption. }
  split; [apply in_window_spec; exact Hw|]. split; [exact Hraise|].
  intros (out & Hout & _). destruct Hraise as [msg Hraise]. congruence.
Qed.

Lemma sample_book_rebasable (r : Record_) (b : Birthday) :
  In r (dict_values (data sample_book)) -> birthday r = Some b ->
  rebasable sample_today (birthday_date b) = true.
Proof.
  intros Hin Hb. vm_compute in Hin.
  destruct Hin as [<-|[<-|[<-|[<-|[]]]]]; vm_compute in Hb;
    try discriminate; injection Hb as <-; reflexivity.
Qed.

Lemma upcoming_birthdays_window_witness :
  exists out,
    get_upcoming_birthdays sample_book sample_today = Ok out
    /\ map e_name out = [u "Ann"; u "Bob"].
Proof.
  destruct (upcoming_birthdays_window sample_book sample_today)
    as [Hret Hspec].
  destruct (Hret sample_book_rebasable) as [out Hout].
  exists out. split; [exact Hout|].
  destruct (Hspec out Hout) as [-> _]. reflexivity.
Defined.


Lemma congratulation_on_working_day_witness :
  0 <= weekday (mkdate 2024 6 17) <= 4.
Proof.
  pose proof (congratulation_on_working_day sample_book sample_today
                [mkEntry (u "Ann") (u "12.06.2024");
                 mkEntry (u "Bob") (u "17.06.2024")] eq_refl) as H.
  apply Forall_inv_tail, Forall_inv in H. destruct H as [_ H].
  apply H; reflexivity.
Defined.

Lemma upcoming_birthdays_lost_with_leap_day_witness :
  (exists b', birthday (sample_record "Ann" 1990 6 12) = Some b'
              /\ 0 <= days_until (mkdate 2025 6 10) (birthday_date b') <= 7)
  /\ (exists msg,
        get_upcoming_birthdays mixed_book (mkdate 2025 6 10)
        = Raise (ValueError msg))
  /\ ~ (exists out,
          get_upcoming_birthdays mixed_book (mkdate 2025 6 10) = Ok out
          /\ In (record_name (sample_record "Ann" 1990 6 12))
               (map e_name out)).
Proof.
  apply (upcoming_birthdays_lost_with_leap_day mixed_book (mkdate 2025 6 10)
           (sample_record "Ann" 1990 6 12) (sample_record "Leo" 2024 2 29)
           (mkBirthday (mkdatetime 2024 2 29 0 0 0 0)));
    try reflexivity.
  - left; reflexivity.
  - right; left; reflexivity.
Defined.

Example mixed_book_example :
  in_window (mkdate 2025 6 10) (sample_record "Ann" 1990 6 12) = true
  /\ days_until (mkdate 2025 6 10) (mkdate 1990 6 12) = 2
  /\ get_upcoming_birthdays mixed_book (mkdate 2025 6 10)
     = Raise (ValueError "day is out of range for month")
  /\ get_upcoming_birthdays sample_book (mkdate 2025 6 10)
     = Ok [mkEntry (u "Ann") (u "12.06.2025");
           mkEntry (u "Bob") (u "16.06.2025")].
Proof. repeat split. Qed.

Lemma leap_day_birthday_raises_witness :
  exists msg,
    get_upcoming_birthdays leap_book (mkdate 2025 2 25)
    = Raise (ValueError msg).
Proof.
  apply (leap_day_birthday_raises leap_book (mkdate 2025 2 25)
           (sample_record "Leo" 2024 2 29)
           (mkBirthday (mkdatetime 2024 2 29 0 0 0 0)));
    try reflexivity.
  left; reflexivity.
Defined.

Example feb29_birthday_example :
  Birthday_init (u "29.02.2024")
  = Ok (mkBirthday (mkdatetime 2024 2 29 0 0 0 0))
  /\ get_upcoming_birthdays leap_book (mkdate 2025 2 25)
     = Raise (ValueError "day is out of range for month").
Proof. split; reflexivity. Qed.

Example upcoming_birthdays_of_the_spec :
  get_upcoming_birthdays sample_book sample_today
  = Ok [mkEntry (u "Ann") (u "12.06.2024"); mkEntry (u "Bob") (u "17.06.2024")].
Proof. reflexivity. Qed.

(** ** Matching the pattern of [strptime] *)

Lemma matches_sound (r : regex) :
  forall s t rest g,
  In (t, rest, g) (matches r s) -> s = t ++ rest /\ parses r t g.
Proof.
  assert (Hleaf : forall r0 s t rest g,
    In (t, rest, g)
       match s with
       | c :: s1 => if accepts r0 c then [([c], s1, [])] else []
       | [] => []
       end -> s = t ++ rest /\ parses r0 t g).
  { intros r0 [|c s1] t rest g H; [destruct H|].
    destruct (accepts r0 c) eqn:E; [|destruct H].
    destruct H as [H|[]]. injection H as <- <- <-.
    split; [reflexivity | constructor; exact E]. }
  induction r as [c|lo hi| |r1 IH1 r2 IH2|r1 IH1 r2 IH2|n r1 IH1];
    intros s t rest g H; try (apply Hleaf; exact H); simpl in H.
  - apply in_flat_map in H. destruct H as [[[t1 s1] g1] [H1 H2]].
    apply in_map_iff in H2. destruct H2 as [[[t2 s2] g2] [E H2]].
    injection E as <- <- <-.
    apply IH1 in H1. apply IH2 in H2. destruct H1 as [-> P1], H2 as [-> P2].
    split; [rewrite app_assoc; reflexivity | constructor; assumption].
  - apply in_app_iff in H. destruct H as [H|H].
    + apply IH1 in H. destruct H as [-> P]. split; [reflexivity|].
      apply parses_alt_l; exact P.
    + apply IH2 in H. destruct H as [-> P]. split; [reflexivity|].
      apply parses_alt_r; exact P.
  - apply in_map_iff in H. destruct H as [[[t1 s1] g1] [E H]].
    injection E as <- <- <-. apply IH1 in H. destruct H as [-> P].
    split; [reflexivity | constructor; exact P].
Qed.

Lemma matches_complete (r : regex) (t : str) (g : groups) :
  parses r t g -> forall rest, In (t, rest, g) (matches r (t ++ rest)).
Proof.
  induction 1 as [r c Hc|r1 r2 t1 t2 g1 g2 _ IH1 _ IH2|r1 r2 t g _ IH
                 |r1 r2 t g _ IH|n r t g _ IH]; intros rest.
  - destruct r; simpl in *; try discriminate; rewrite Hc; left; reflexivity.
  - simpl. apply in_flat_map. exists (t1, t2 ++ rest, g1).
    split; [rewrite <- app_assoc; apply IH1|].
    apply in_map_iff. exists (t2, rest, g2). split; [reflexivity | apply IH2].
  - simpl. apply in_app_iff. left. apply IH.
  - simpl. apply in_app_iff. right. apply IH.
  - simpl. apply in_map_iff. exists (t, rest, g). split; [reflexivity|apply IH].
Qed.

Lemma parses_cat_inv (r1 r2 : regex) (t : str) (g : groups) :
  parses (Cat r1 r2) t g ->
  exists t1 t2 g1 g2,
    t = t1 ++ t2 /\ g = g1 ++ g2 /\ parses r1 t1 g1 /\ parses r2 t2 g2.
Proof.
  intros H. inversion H; subst; [discriminate|].
  do 4 eexists. repeat split; eassumption.
Qed.

Lemma parses_alt_inv (r1 r2 : regex) (t : str) (g : groups) :
  parses (Alt r1 r2) t g -> parses r1 t g \/ parses r2 t g.
Proof. intros H. inversion H; subst; [discriminate| |]; auto. Qed.

Lemma parses_grp_inv (n : string) (r : regex) (t : str) (g : groups) :
  parses (Grp n r) t g -> exists g1, g = g1 ++ [(n, t)] /\ parses r t g1.
Proof. intros H. inversion H; subst; [discriminate|]. eauto. Qed.

Lemma parses_lit_inv (a : Z) (t : str) (g : groups) :
  parses (Lit a) t g -> t = [a] /\ g = [].
Proof.
  intros H. inversion H as [r c Hc| | | |]; subst. simpl in Hc.
  apply Z.eqb_eq in Hc. subst. auto.
Qed.

Lemma parses_rng_inv (lo hi : Z) (t : str) (g : groups) :
  parses (Rng lo hi) t g ->
  exists c, t = [c] /\ g = [] /\ in_range lo hi c = true.
Proof. intros H. inversion H as [r c Hc| | | |]; subst. eauto. Qed.

Lemma parses_dig_inv (t : str) (g : groups) :
  parses Dig t g -> exists c, t = [c] /\ g = [] /\ is_decimal c = true.
Proof. intros H. inversion H as [r c Hc| | | |]; subst. eauto. Qed.

(** Takes a hypothesis on a concrete pattern apart, down to characters. *)
Ltac parses_inv :=
  repeat match goal with
  | H : parses (Cat _ _) _ _ |- _ =>
      apply parses_cat_inv in H;
      destruct H as (? & ? & ? & ? & ? & ? & ? & ?); subst
  | H : parses (Alt _ _) _ _ |- _ =>
      apply parses_alt_inv in H; destruct H
  | H : parses (Grp _ _) _ _ |- _ =>
      apply parses_grp_inv in H; destruct H as (? & ? & ?); subst
  | H : parses (Lit _) _ _ |- _ =>
      apply parses_lit_inv in H; destruct H; subst
  | H : parses (Rng _ _) _ _ |- _ =>
      apply parses_rng_inv in H; destruct H as (? & ? & ? & ?); subst
  | H : parses Dig _ _ |- _ =>
      apply parses_dig_inv in H; destruct H as (? & ? & ? & ?); subst
  end.

Lemma parses_lit (a : Z) : parses (Lit a) [a] [].
Proof. constructor. simpl. apply Z.eqb_refl. Qed.

Lemma parses_rng (lo hi c : Z) :
  in_range lo hi c = true -> parses (Rng lo hi) [c] [].
Proof. intros H. constructor. exact H. Qed.

Lemma parses_dig (c : Z) : is_decimal c = true -> parses Dig [c] [].
Proof. intros H. constructor. exact H. Qed.

Lemma parses_two (r1 r2 : regex) (a b : Z) :
  parses r1 [a] [] -> parses r2 [b] [] -> parses (Cat r1 r2) [a; b] [].
Proof. intros H1 H2. apply (parses_cat r1 r2 [a] [b] [] [] H1 H2). Qed.

Lemma parses_directive_d (t : str) (g : groups) :
  parses _strptime.directive_d t g <->
  day_token t = true /\ g = [("d"%string, t)].
Proof.
  unfold _strptime.directive_d. split.
  - intros H. parses_inv; simpl; split; try reflexivity;
      repeat match goal with
             | H : _ = true |- _ => rewrite H; clear H
             end; rewrite ?orb_true_r; reflexivity.
  - intros [H ->]. apply (parses_grp "d" _ t []).
    destruct t as [|a [|b [|c t]]]; simpl in H; try discriminate.
    + do 3 apply parses_alt_r. apply parses_alt_l. apply parses_rng. exact H.
    + rewrite !orb_true_iff, !andb_true_iff, !Z.eqb_eq in H.
      destruct H as [[[[-> H]|[Ha H]]|[-> H]]|[-> H]].
      * apply parses_alt_l. apply parses_two;
          [apply parses_lit | apply parses_rng; exact H].
      * apply parses_alt_r, parses_alt_l. apply parses_two;
          [apply parses_rng; exact Ha | apply parses_dig; exact H].
      * do 2 apply parses_alt_r. apply parses_alt_l. apply parses_two;
          [apply parses_lit | apply parses_rng; exact H].
      * do 4 apply parses_alt_r. apply parses_two;
          [apply parses_lit | apply parses_rng; exact H].
Qed.

Lemma parses_directive_m (t : str) (g : groups) :
  parses _strptime.directive_m t g <->
  month_token t = true /\ g = [("m"%string, t)].
Proof.
  unfold _strptime.directive_m. split.
  - intros H. parses_inv; simpl; split; try reflexivity;
      repeat match goal with
             | H : _ = true |- _ => rewrite H; clear H
             end; rewrite ?orb_true_r; reflexivity.
  - intros [H ->]. apply (parses_grp "m" _ t []).
    destruct t as [|a [|b [|c t]]]; simpl in H; try discriminate.
    + do 2 apply parses_alt_r. apply parses_rng. exact H.
    + rewrite !orb_true_iff, !andb_true_iff, !Z.eqb_eq in H.
      destruct H as [[-> H]|[-> H]].
      * apply parses_alt_l. apply parses_two;
          [apply parses_lit | apply parses_rng; exact H].
      * apply parses_alt_r, parses_alt_l. apply parses_two;
          [apply parses_lit | apply parses_rng; exact H].
Qed.

Lemma parses_directive_Y (t : str) (g : groups) :
  parses _strptime.directive_Y t g <->
  year_token t = true /\ g = [("Y"%string, t)].
Proof.
  unfold _strptime.directive_Y. split.
  - intros H. parses_inv; simpl; split; try reflexivity.
    repeat match goal with
           | H : _ = true |- _ => rewrite H; clear H
           end. reflexivity.
  - intros [H ->]. apply (parses_grp "Y" _ t []).
    destruct t as [|a [|b [|c [|d [|e t]]]]]; simpl in H; try discriminate.
    rewrite !andb_true_iff in H. destruct H as [[[Ha Hb] Hc] Hd].
    apply (parses_cat Dig _ [a] [b; c; d] [] []); [apply parses_dig; exact Ha|].
    apply (parses_cat Dig _ [b] [c; d] [] []); [apply parses_dig; exact Hb|].
    apply parses_two; apply parses_dig; assumption.
Qed.

Lemma parses_format_regex (t : str) (g : groups) :
  parses _strptime.format_regex t g <->
  exists d m y,
    t = d ++ [46] ++ m ++ [46] ++ y
    /\ day_token d = true /\ month_token m = true /\ year_token y = true
    /\ g = [("d"%string, d); ("m"%string, m); ("Y"%string, y)].
Proof.
  unfold _strptime.format_regex. split.
  - intros H.
    apply parses_cat_inv in H. destruct H as (d & t1 & gd & g1 & -> & -> & Hd & H).
    apply parses_cat_inv in H. destruct H as (p1 & t2 & gp1 & g2 & -> & -> & Hp1 & H).
    apply parses_cat_inv in H. destruct H as (m & t3 & gm & g3 & -> & -> & Hm & H).
    apply parses_cat_inv in H. destruct H as (p2 & y & gp2 & gy & -> & -> & Hp2 & Hy).
    apply parses_lit_inv in Hp1, Hp2. destruct Hp1 as [-> ->], Hp2 as [-> ->].
    apply parses_directive_d in Hd. apply parses_directive_m in Hm.
    apply parses_directive_Y in Hy.
    destruct Hd as [Hd ->], Hm as [Hm ->], Hy as [Hy ->].
    exists d, m, y. repeat split; assumption.
  - intros (d & m & y & -> & Hd & Hm & Hy & ->).
    apply (parses_cat _ _ d _ [("d"%string, d)]
             [("m"%string, m); ("Y"%string, y)]);
      [apply parses_directive_d; auto|].
    apply (parses_cat _ _ [46] _ [] [("m"%string, m); ("Y"%string, y)]);
      [apply parses_lit|].
    apply (parses_cat _ _ m _ [("m"%string, m)] [("Y"%string, y)]);
      [apply parses_directive_m; auto|].
    apply (parses_cat _ _ [46] _ [] [("Y"%string, y)]); [apply parses_lit|].
    apply parses_directive_Y; auto.
Qed.

Lemma is_decimal_not_dot (c : Z) : is_decimal c = true -> c <> 46.
Proof. intros H ->. vm_compute in H. discriminate. Qed.

Lemma day_token_shape (t : str) :
  day_token t = true ->
  (exists a, t = [a] /\ a <> 46)
  \/ (exists a b, t = [a; b] /\ a <> 46 /\ b <> 46).
Proof.
  destruct t as [|a [|b [|c t]]]; simpl; try discriminate.
  - rewrite in_range_spec. intros H. left. exists a. split; [reflexivity|lia].
  - rewrite !orb_true_iff, !andb_true_iff, !Z.eqb_eq, !in_range_spec.
    intros H. right. exists a, b. split; [reflexivity|].
    destruct H as [[[[-> H]|[Ha H]]|[-> H]]|[-> H]];
      try apply is_decimal_not_dot in H; split; lia.
Qed.

Lemma month_token_shape (t : str) :
  month_token t = true ->
  (exists a, t = [a] /\ a <> 46)
  \/ (exists a b, t = [a; b] /\ a <> 46 /\ b <> 46).
Proof.
  destruct t as [|a [|b [|c t]]]; simpl; try discriminate.
  - rewrite in_range_spec. intros H. left. exists a. split; [reflexivity|lia].
  - rewrite !orb_true_iff, !andb_true_iff, !Z.eqb_eq, !in_range_spec.
    intros H. right. exists a, b. split; [reflexivity|].
    destruct H as [[-> H]|[-> H]]; split; lia.
Qed.

Lemma short_token_split (t t' s s' : str) :
  (exists a, t = [a] /\ a <> 46)
  \/ (exists a b, t = [a; b] /\ a <> 46 /\ b <> 46) ->
  (exists a, t' = [a] /\ a <> 46)
  \/ (exists a b, t' = [a; b] /\ a <> 46 /\ b <> 46) ->
  t ++ 46 :: s = t' ++ 46 :: s' -> t = t' /\ s = s'.
Proof.
  intros [(a & -> & Ha)|(a & b & -> & Ha & Hb)]
         [(a' & -> & Ha')|(a' & b' & -> & Ha' & Hb')] E;
    simpl in E;
    repeat (apply cons_eq_inv in E; destruct E as [? E]);
    subst; try congruence; auto.
Qed.

Lemma year_token_split (y y' s s' : str) :
  year_token y = true -> year_token y' = true ->
  y ++ s = y' ++ s' -> y = y' /\ s = s'.
Proof.
  destruct y as [|a [|b [|c [|d [|e y]]]]]; simpl; try discriminate.
  destruct y' as [|a' [|b' [|c' [|d' [|e' y']]]]]; simpl; try discriminate.
  intros _ _ E.
  repeat (apply cons_eq_inv in E; destruct E as [? E]). subst. auto.
Qed.

Lemma format_unambiguous (d m y rest d' m' y' rest' : str) :
  day_token d = true -> month_token m = true -> year_token y = true ->
  day_token d' = true -> month_token m' = true -> year_token y' = true ->
  (d ++ [46] ++ m ++ [46] ++ y) ++ rest
  = (d' ++ [46] ++ m' ++ [46] ++ y') ++ rest' ->
  d = d' /\ m = m' /\ y = y' /\ rest = rest'.
Proof.
  intros Hd Hm Hy Hd' Hm' Hy' E.
  repeat rewrite <- app_assoc in E. simpl in E.
  apply short_token_split in E;
    [|apply day_token_shape; assumption|apply day_token_shape; assumption].
  destruct E as [-> E].
  apply short_token_split in E;
    [|apply month_token_shape; assumption
     |apply month_token_shape; assumption].
  destruct E as [-> E].
  apply year_token_split in E; [|assumption|assumption].
  destruct E as [-> ->]. auto.
Qed.

Lemma re_match_format (d m y : str) :
  day_token d = true -> month_token m = true -> year_token y = true ->
  re_match _strptime.format_regex (d ++ [46] ++ m ++ [46] ++ y)
  = Some (d ++ [46] ++ m ++ [46] ++ y, [],
          [("d"%string, d); ("m"%string, m); ("Y"%string, y)]).
Proof.
  intros Hd Hm Hy. set (v := d ++ [46] ++ m ++ [46] ++ y).
  assert (Hin : In (v, [], [("d"%string, d); ("m"%string, m); ("Y"%string, y)])
                   (matches _strptime.format_regex v)).
  { rewrite <- (app_nil_r v) at 2. apply matches_complete.
    apply parses_format_regex. exists d, m, y. auto. }
  unfold re_match.
  destruct (matches _strptime.format_regex v) as [|[[t0 rest0] g0] l] eqn:E;
    [destruct Hin|].
  assert (H0 : In (t0, rest0, g0) (matches _strptime.format_regex v))
    by (rewrite E; left; reflexivity).
  apply matches_sound in H0. destruct H0 as [Hv P0].
  apply parses_format_regex in P0.
  destruct P0 as (d0 & m0 & y0 & -> & Hd0 & Hm0 & Hy0 & ->).
  rewrite <- (app_nil_r v) in Hv. unfold v in Hv.
  apply format_unambiguous in Hv; try assumption.
  destruct Hv as (-> & -> & -> & <-). reflexivity.
Qed.

Lemma re_match_format_inv (v t rest : str) (g : groups) :
  re_match _strptime.format_regex v = Some (t, rest, g) ->
  (len v =? len t) = true ->
  exists d m y,
    v = d ++ [46] ++ m ++ [46] ++ y
    /\ day_token d = true /\ month_token m = true /\ year_token y = true
    /\ g = [("d"%string, d); ("m"%string, m); ("Y"%string, y)].
Proof.
  unfold re_match. intros H Hlen.
  destruct (matches _strptime.format_regex v) as [|x l] eqn:E;
    [discriminate|]. simpl in H. injection H as ->.
  assert (H0 : In (t, rest, g) (matches _strptime.format_regex v))
    by (rewrite E; left; reflexivity).
  apply matches_sound in H0. destruct H0 as [Hv P].
  apply Z.eqb_eq in Hlen. unfold len in Hlen. rewrite Hv in Hlen.
  rewrite length_app in Hlen.
  assert (rest = []) by (destruct rest; [reflexivity | simpl in Hlen; lia]).
  subst rest. rewrite app_nil_r in Hv. subst t.
  apply parses_format_regex in P. exact P.
Qed.

Lemma new_datetime_cases (y m d : Z) :
  (date_valid (mkdate y m d) = true
   /\ new_datetime y m d = Ok (mkdatetime y m d 0 0 0 0))
  \/ (date_valid (mkdate y m d) = false
      /\ exists msg, new_datetime y m d = Raise (ValueError msg)).
Proof.
  unfold new_datetime, check_date_fields, date_valid, MINYEAR, MAXYEAR. simpl.
  destruct (1 <=? y), (y <=? 9999); simpl; eauto.
  destruct (1 <=? m), (m <=? 12); simpl; eauto.
  destruct (1 <=? d), (d <=? days_in_month y m); simpl; eauto.
Qed.

Lemma strptime_reads (value : str) (Y M D : Z) :
  reads_as value Y M D ->
  _strptime.strptime value =
    (_ <- new_date Y M D ;; new_datetime Y M D).
Proof.
  intros (d & m & y & -> & Hd & Hm & Hy & HD & HM & HY).
  unfold _strptime.strptime. rewrite (re_match_format d m y Hd Hm Hy).
  rewrite Z.eqb_refl. cbn [negb].
  unfold _strptime.int_group. cbn [groupdict String.eqb Ascii.eqb Bool.eqb].
  rewrite HY, HM, HD. reflexivity.
Qed.

Lemma strptime_Ok (value : str) (dt : datetime) :
  _strptime.strptime value = Ok dt <->
  exists Y M D,
    reads_as value Y M D /\ date_valid (mkdate Y M D) = true
    /\ dt = mkdatetime Y M D 0 0 0 0.
Proof.
  split.
  - unfold _strptime.strptime.
    destruct (re_match _strptime.format_regex value)
      as [[[t rest] g]|] eqn:E; [|discriminate].
    destruct (len value =? len t) eqn:Hlen; [|discriminate]. cbn [negb].
    destruct (re_match_format_inv value t rest g E Hlen)
      as (d & m & y & Hv & Hd & Hm & Hy & ->).
    unfold _strptime.int_group. cbn [groupdict String.eqb Ascii.eqb Bool.eqb].
    destruct (int y) as [Y|] eqn:HY; [|discriminate].
    destruct (int m) as [M|] eqn:HM; [|discriminate].
    destruct (int d) as [D|] eqn:HD; [|discriminate].
    cbn [bind].
    destruct (new_date_cases Y M D) as [[Hval ->]|[Hval [msg ->]]];
      [|discriminate]. cbn [bind].
    destruct (new_datetime_cases Y M D) as [[_ ->]|[Hval' _]];
      [|congruence].
    intros H. injection H as <-. exists Y, M, D.
    split; [exists d, m, y; repeat split; assumption | split; [exact Hval | reflexivity]].
  - intros (Y & M & D & Hr & Hval & ->).
    rewrite (strptime_reads value Y M D Hr).
    destruct (new_date_cases Y M D) as [[_ ->]|[Hval' _]]; [|congruence].
    cbn [bind].
    destruct (new_datetime_cases Y M D) as [[_ ->]|[Hval' _]];
      [reflexivity|congruence].
Qed.

Lemma int_group_raises (g : groups) (n : string) (e : exn) :
  _strptime.int_group g n = Raise e -> exists msg, e = ValueError msg.
Proof.
  unfold _strptime.int_group.
  destruct (groupdict g n) as [t|]; [destruct (int t)|];
    try discriminate; intros H; injection H as <-; eauto.
Qed.

Lemma strptime_raises (value : str) (e : exn) :
  _strptime.strptime value = Raise e -> exists msg, e = ValueError msg.
Proof.
  unfold _strptime.strptime.
  destruct (re_match _strptime.format_regex value) as [[[t rest] g]|];
    [|intros H; injection H as <-; eauto].
  destruct (negb (len value =? len t)); [intros H; injection H as <-; eauto|].
  destruct (_strptime.int_group g "Y") as [Y|e1] eqn:EY;
    [|intros H; injection H as <-; eapply int_group_raises; exact EY].
  destruct (_strptime.int_group g "m") as [M|e1] eqn:EM;
    [|intros H; injection H as <-; eapply int_group_raises; exact EM].
  destruct (_strptime.int_group g "d") as [D|e1] eqn:ED;
    [|intros H; injection H as <-; eapply int_group_raises; exact ED].
  cbn [bind].
  destruct (new_date_cases Y M D) as [[_ ->]|[_ [msg ->]]]; cbn [bind];
    [|intros H; injection H as <-; eauto].
  destruct (new_datetime_cases Y M D) as [[_ ->]|[_ [msg ->]]];
    [discriminate | intros H; injection H as <-; eauto].
Qed.

Lemma Birthday_init_cases (value : str) :
  (exists dt, _strptime.strptime value = Ok dt
              /\ Birthday_init value = Ok (mkBirthday dt))
  \/ ((forall dt, _strptime.strptime value <> Ok dt)
      /\ Birthday_init value =
           Raise (ValueError "Invalid date format. Use DD.MM.YYYY")).
Proof.
  unfold Birthday_init.
  destruct (_strptime.strptime value) as [dt|e] eqn:E.
  - left. exists dt. split; reflexivity.
  - right. split; [discriminate|].
    destruct (strptime_raises value e E) as [msg ->]. reflexivity.
Qed.

Lemma ascii_digit_to_decimal (c : Z) :
  ascii_digit c = true -> to_decimal c = Some (c - 48).
Proof.
  unfold ascii_digit, to_decimal, DECIMAL_ZEROS. intros H.
  cbn [List.find]. change (48 + 9) with 57. rewrite H. reflexivity.
Qed.

Lemma ascii_digit_is_decimal (c : Z) :
  ascii_digit c = true -> is_decimal c = true.
Proof.
  intros H. unfold is_decimal. rewrite (ascii_digit_to_decimal c H).
  reflexivity.
Qed.

Lemma int_ascii_digits (t : str) :
  t <> [] -> forallb ascii_digit t = true ->
  int t = int_digits 0 t.
Proof.
  destruct t as [|c t]; [congruence|]. intros _ H. simpl in H.
  apply andb_true_iff in H. destruct H as [H _].
  apply in_range_spec in H. unfold int. cbn [lstrip].
  replace (c =? 32) with false by (symmetry; apply Z.eqb_neq; lia).
  reflexivity.
Qed.

Lemma DDMMYYYY_inv (v : str) (Y M D : Z) :
  DDMMYYYY_fields v = Some (Y, M, D) ->
  exists d1 d2 m1 m2 y1 y2 y3 y4,
    v = [d1; d2; 46; m1; m2; 46; y1; y2; y3; y4]
    /\ forallb ascii_digit [d1; d2; m1; m2; y1; y2; y3; y4] = true
    /\ Y = 1000 * (y1 - 48) + 100 * (y2 - 48) + 10 * (y3 - 48) + (y4 - 48)
    /\ M = 10 * (m1 - 48) + (m2 - 48)
    /\ D = 10 * (d1 - 48) + (d2 - 48).
Proof.
  unfold DDMMYYYY_fields.
  destruct v as [|d1 [|d2 [|p1 [|m1 [|m2 [|p2 [|y1 [|y2 [|y3 [|y4 [|x v]]]]]]]]]]];
    try discriminate.
  destruct (is_DDMMYYYY [d1; d2; p1; m1; m2; p2; y1; y2; y3; y4]) eqn:E;
    [|discriminate].
  intros H.
  apply (f_equal (fun o => match o with Some x => x | None => (0, 0, 0) end))
    in H. cbv beta iota in H.
  unfold is_DDMMYYYY in E. rewrite !andb_true_iff, !Z.eqb_eq in E.
  destruct E as [[E -> ] ->].
  exists d1, d2, m1, m2, y1, y2, y3, y4.
  split; [reflexivity|]. split; [exact E|].
  apply pair_equal_spec in H. destruct H as [H <-].
  apply pair_equal_spec in H. destruct H as [<- <-]. auto.
Qed.

Lemma DDMMYYYY_reads (v : str) (Y M D : Z) :
  DDMMYYYY_fields v = Some (Y, M, D) ->
  date_valid (mkdate Y M D) = true -> reads_as v Y M D.
Proof.
  intros Hf Hval. apply DDMMYYYY_inv in Hf.
  destruct Hf as (d1 & d2 & m1 & m2 & y1 & y2 & y3 & y4
                  & -> & Hdig & HY & HM & HD).
  apply date_valid_ranges in Hval. cbn [year month day] in Hval.
  pose proof Hdig as Hdig'.
  cbn [forallb] in Hdig. rewrite !andb_true_iff in Hdig.
  destruct Hdig as (A1 & A2 & A3 & A4 & A5 & A6 & A7 & A8 & _).
  exists [d1; d2], [m1; m2], [y1; y2; y3; y4].
  split; [reflexivity|].
  pose proof A1 as B1. pose proof A2 as B2. pose proof A3 as B3.
  pose proof A4 as B4.
  unfold ascii_digit in B1, B2, B3, B4. rewrite in_range_spec in B1, B2, B3, B4.
  split; [|split; [|split; [|split; [|split]]]].
  - cbn [day_token]. rewrite (ascii_digit_is_decimal d2 A2), andb_true_r.
    rewrite !orb_true_iff, !andb_true_iff, !Z.eqb_eq, !in_range_spec. lia.
  - cbn [month_token].
    rewrite !orb_true_iff, !andb_true_iff, !Z.eqb_eq, !in_range_spec. lia.
  - cbn [year_token].
    rewrite !ascii_digit_is_decimal by assumption. reflexivity.
  - rewrite int_ascii_digits;
      [|discriminate|cbn [forallb]; rewrite A1, A2; reflexivity].
    cbn [int_digits]. rewrite !ascii_digit_to_decimal by assumption.
    f_equal. lia.
  - rewrite int_ascii_digits;
      [|discriminate|cbn [forallb]; rewrite A3, A4; reflexivity].
    cbn [int_digits]. rewrite !ascii_digit_to_decimal by assumption.
    f_equal. lia.
  - rewrite int_ascii_digits;
      [|discriminate|cbn [forallb]; rewrite A5, A6, A7, A8; reflexivity].
    cbn [int_digits]. rewrite !ascii_digit_to_decimal by assumption.
    f_equal. lia.
Qed.

Lemma DDMMYYYY_strftime_prefix (v : str) (Y M D : Z) :
  DDMMYYYY_fields v = Some (Y, M, D) ->
  strftime_dmY Y M D = firstn 6 v ++ decimal Y.
Proof.
  intros Hf. apply DDMMYYYY_inv in Hf.
  destruct Hf as (d1 & d2 & m1 & m2 & y1 & y2 & y3 & y4
                  & -> & Hdig & HY & HM & HD).
  cbn [forallb] in Hdig. unfold ascii_digit in Hdig.
  rewrite !andb_true_iff, !in_range_spec in Hdig.
  rewrite strftime_dmY_prefix by lia. cbn [firstn]. f_equal.
  repeat match goal with
         | |- _ :: _ = _ :: _ => f_equal
         end; try reflexivity; Z.div_mod_to_equations; lia.
Qed.

Lemma DDMMYYYY_strftime (v : str) (Y M D : Z) :
  DDMMYYYY_fields v = Some (Y, M, D) -> 1000 <= Y ->
  strftime_dmY Y M D = v.
Proof.
  intros Hf Hk. apply DDMMYYYY_inv in Hf.
  destruct Hf as (d1 & d2 & m1 & m2 & y1 & y2 & y3 & y4
                  & -> & Hdig & HY & HM & HD).
  cbn [forallb] in Hdig. unfold ascii_digit in Hdig.
  rewrite !andb_true_iff, !in_range_spec in Hdig.
  rewrite strftime_dmY_shape by lia.
  repeat match goal with
         | |- _ :: _ = _ :: _ => f_equal
         end; try reflexivity; Z.div_mod_to_equations; lia.
Qed.

Lemma DDMMYYYY_strftime_short (v : str) (Y M D : Z) :
  DDMMYYYY_fields v = Some (Y, M, D) -> Y < 1000 ->
  strftime_dmY Y M D <> v.
Proof.
  intros Hf Hk E. rewrite (DDMMYYYY_strftime_prefix _ _ _ _ Hf) in E.
  apply DDMMYYYY_inv in Hf.
  destruct Hf as (d1 & d2 & m1 & m2 & y1 & y2 & y3 & y4
                  & -> & Hdig & HY & HM & HD).
  cbn [forallb] in Hdig. unfold ascii_digit in Hdig.
  rewrite !andb_true_iff, !in_range_spec in Hdig.
  pose proof (decimal_short Y ltac:(lia)) as Hlen.
  apply (f_equal (@List.length Z)) in E.
  cbn [firstn] in E. rewrite length_app in E. cbn [List.length] in E. lia.
Qed.

Lemma Birthday_init_reads (value : str) (Y M D : Z) :
  reads_as value Y M D -> date_valid (mkdate Y M D) = true ->
  Birthday_init value = Ok (mkBirthday (mkdatetime Y M D 0 0 0 0)).
Proof.
  intros Hr Hval.
  assert (E : _strptime.strptime value = Ok (mkdatetime Y M D 0 0 0 0)).
  { apply strptime_Ok. exists Y, M, D. auto. }
  unfold Birthday_init. rewrite E. reflexivity.
Qed.

(** C4, as the spec words it, fails: [strptime] reads a day and a month
    of one digit, so "1.1.2024" is accepted though it is not of the form
    DD.MM.YYYY. *)
Lemma Birthday_init_accepts_short_day :
  let value := u "1.1.2024" in
  ~ ((exists b, Birthday_init value = Ok b)
     <-> (exists Y M D, DDMMYYYY_fields value = Some (Y, M, D)
                        /\ date_valid (mkdate Y M D) = true)).
Proof.
  intros value [H _].
  destruct H as (Y & M & D & H & _).
  - eexists. reflexivity.
  - discriminate.
Qed.

(** C4 (amended): Birthday construction succeeds if and only if the value
    is a day, a full stop, a month, a full stop and a year, where the day
    is written in one or two digits (a one-digit day possibly after a zero
    or a blank), the month in one or two digits and the year in exactly
    four decimal digits, and the three numbers are a real calendar date
    of the years 1 to 9999; the result is that date.  In particular every
    string of the form DD.MM.YYYY that denotes such a date is accepted.
    Every other string fails with the ValueError
    "Invalid date format. Use DD.MM.YYYY". *)
Theorem Birthday_init_spec (value : str) :
  (forall b, Birthday_init value = Ok b <->
     exists Y M D,
       reads_as value Y M D /\ date_valid (mkdate Y M D) = true
       /\ b = mkBirthday (mkdatetime Y M D 0 0 0 0))
  /\ ((forall b, Birthday_init value <> Ok b) ->
      Birthday_init value =
        Raise (ValueError "Invalid date format. Use DD.MM.YYYY"))
  /\ (forall Y M D,
        DDMMYYYY_fields value = Some (Y, M, D) ->
        date_valid (mkdate Y M D) = true ->
        Birthday_init value = Ok (mkBirthday (mkdatetime Y M D 0 0 0 0))).
Proof.
  split; [|split].
  - intros b. split.
    + intros H. destruct (Birthday_init_cases value) as [(dt & E & Hb)|[_ Hb]];
        [|congruence].
      rewrite Hb in H. injection H as <-.
      apply strptime_Ok in E. destruct E as (Y & M & D & Hr & Hval & ->).
      exists Y, M, D. auto.
    + intros (Y & M & D & Hr & Hval & ->).
      apply Birthday_init_reads; assumption.
  - intros H. destruct (Birthday_init_cases value) as [(dt & _ & Hb)|[_ Hb]];
      [|exact Hb].
    exfalso. apply (H _ Hb).
  - intros Y M D Hf Hval. apply Birthday_init_reads; [|exact Hval].
    apply DDMMYYYY_reads; assumption.
Qed.

(** C8, as the spec words it, fails: "01.01.0999" has the form DD.MM.YYYY
    and is a real calendar date, and Birthday construction succeeds, but
    [strftime('%d.%m.%Y')] writes the year as a plain number: formatting
    the parsed value gives "01.01.999", not the input. *)
Lemma Birthday_round_trip_fails_before_1000 :
  let value := u "01.01.0999" in
  DDMMYYYY_fields value = Some (999, 1, 1)
  /\ date_valid (mkdate 999 1 1) = true
  /\ Birthday_init value = Ok (mkBirthday (mkdatetime 999 1 1 0 0 0 0))
  /\ datetime_strftime (mkdatetime 999 1 1 0 0 0 0) = u "01.01.999"
  /\ ~ (exists b, Birthday_init value = Ok b
                  /\ datetime_strftime (birthday_value b) = value).
Proof.
  intros value. repeat split.
  intros (b & Hb & E). vm_compute in Hb. injection Hb as <-.
  vm_compute in E. discriminate.
Qed.

(** C8 (amended): for every string of the form DD.MM.YYYY that denotes a
    real calendar date, Birthday construction succeeds, and formatting the
    parsed value back with [strftime('%d.%m.%Y')], as [Record.__str__]
    does, gives the day and the month of the string followed by the year
    as a plain decimal number.  That reproduces the string exactly when
    the year is 1000 or later, and differs from it (the leading zeros of
    the year are gone) when the year is before 1000. *)
Theorem Birthday_round_trip (value : str) (Y M D : Z) :
  DDMMYYYY_fields value = Some (Y, M, D) ->
  date_valid (mkdate Y M D) = true ->
  exists b,
    Birthday_init value = Ok b
    /\ datetime_strftime (birthday_value b) = firstn 6 value ++ decimal Y
    /\ (1000 <= Y ->
        datetime_strftime (birthday_value b) = value
        /\ forall r, birthday r = Some b -> birthday_str r = value)
    /\ (Y < 1000 ->
        datetime_strftime (birthday_value b) <> value
        /\ forall r, birthday r = Some b -> birthday_str r <> value).
Proof.
  intros Hf Hval. exists (mkBirthday (mkdatetime Y M D 0 0 0 0)).
  split; [|split; [|split]].
  - apply Birthday_init_reads; [|exact Hval].
    apply DDMMYYYY_reads; assumption.
  - apply DDMMYYYY_strftime_prefix. exact Hf.
  - intros Hk.
    assert (E : datetime_strftime (mkdatetime Y M D 0 0 0 0) = value)
      by (apply DDMMYYYY_strftime; assumption).
    split; [exact E|].
    intros r Hb. unfold birthday_str. rewrite Hb. exact E.
  - intros Hk.
    assert (E : datetime_strftime (mkdatetime Y M D 0 0 0 0) <> value)
      by (apply DDMMYYYY_strftime_short; assumption).
    split; [exact E|].
    intros r Hb. unfold birthday_str. rewrite Hb. exact E.
Qed.

Lemma Birthday_init_spec_witness :
  Birthday_init (u "15.06.2024")
  = Ok (mkBirthday (mkdatetime 2024 6 15 0 0 0 0))
  /\ Birthday_init (u "2024-06-15")
     = Raise (ValueError "Invalid date format. Use DD.MM.YYYY").
Proof.
  split.
  - apply (Birthday_init_spec (u "15.06.2024")); reflexivity.
  - apply (Birthday_init_spec (u "2024-06-15")). intros b. discriminate.
Defined.

Lemma Birthday_round_trip_witness :
  exists b,
    Birthday_init (u "15.06.2024") = Ok b
    /\ datetime_strftime (birthday_value b) = u "15.06.2024".
Proof.
  destruct (Birthday_round_trip (u "15.06.2024") 2024 6 15)
    as (b & Hb & _ & Hround & _); [reflexivity|reflexivity|].
  exists b. split; [exact Hb|]. apply Hround. lia.
Defined.

Example Birthday_init_examples :
  Birthday_init (u "1.1.2024") = Ok (mkBirthday (mkdatetime 2024 1 1 0 0 0 0))
  /\ Birthday_init (u "29.02.2023")
     = Raise (ValueError "Invalid date format. Use DD.MM.YYYY")
  /\ Birthday_init (u "01.01.0000")
     = Raise (ValueError "Invalid date format. Use DD.MM.YYYY")
  /\ Birthday_init (u "15.06.2024 ")
     = Raise (ValueError "Invalid date format. Use DD.MM.YYYY")
  /\ Birthday_init [49; 1637; 46; 48; 54; 46; 1634; 1632; 1634; 1636]
     = Ok (mkBirthday (mkdatetime 2024 6 15 0 0 0 0)).
Proof. repeat split. Qed.

(** * More of the program: records, the book, the loop, the handlers *)

(** ** More on records *)

Lemma find_phone_in_None (ps : list Phone) (t : str) :
  find_phone_in ps t = None <-> forall p, In p ps -> Phone_str p <> t.
Proof.
  induction ps as [|q ps IH]; simpl.
  - split; [intros _ p [] | reflexivity].
  - destruct (str_eqb (Phone_str q) t) eqn:E.
    + apply str_eqb_spec in E. split; [discriminate|].
      intros H. exfalso. apply (H q); [left; reflexivity | exact E].
    + apply str_eqb_neq in E. rewrite IH. split.
      * intros H p [<-|Hp]; [exact E | apply H; exact Hp].
      * intros H p Hp. apply H. right; exact Hp.
Qed.

Lemma find_phone_in_without_other (t t' : str) (ps : list Phone) :
  t' <> t -> find_phone_in (without t ps) t' = find_phone_in ps t'.
Proof.
  intros Hne. induction ps as [|q ps IH]; [reflexivity|]. simpl.
  destruct (str_eq_dec (Phone_str q) t) as [E|E].
  - rewrite IH. replace (str_eqb (Phone_str q) t') with false; [reflexivity|].
    symmetry. apply str_eqb_neq. congruence.
  - simpl. rewrite IH. reflexivity.
Qed.

Lemma without_idempotent (t : str) (ps : list Phone) :
  without t (without t ps) = without t ps.
Proof.
  apply without_absent. intros p Hp.
  induction ps as [|q ps IH]; [destruct Hp|]. simpl in Hp.
  destruct (str_eq_dec (Phone_str q) t) as [E|E]; [apply IH; exact Hp|].
  destruct Hp as [<-|Hp]; [exact E | apply IH; exact Hp].
Qed.

(** X1: after [remove_phone(t)] the text [t] is no longer found, every
    other text is found exactly as before, removing again changes nothing,
    and removing a text that was not found leaves the record as it was. *)
Theorem remove_phone_then_find (r : Record_) (t : str) :
  find_phone (remove_phone r t) t = None
  /\ (forall t', t' <> t ->
      find_phone (remove_phone r t) t' = find_phone r t')
  /\ remove_phone (remove_phone r t) t = remove_phone r t
  /\ (find_phone r t = None -> remove_phone r t = r).
Proof.
  unfold find_phone, remove_phone. simpl. rewrite !filter_without.
  split; [apply find_phone_in_without|]. split; [|split].
  - intros t' Hne. apply find_phone_in_without_other. exact Hne.
  - rewrite without_idempotent. reflexivity.
  - intros H. rewrite (without_absent t (phones r)).
    + destruct r; reflexivity.
    + apply find_phone_in_None. exact H.
Qed.

Lemma remove_phone_then_find_witness :
  let r := mkRecord (mkName (u "Ann"))
             [mkPhone (u "0501234567"); mkPhone (u "0670000000")] None in
  find_phone (remove_phone r (u "0501234567")) (u "0670000000")
  = find_phone r (u "0670000000")
  /\ remove_phone r (u "0999999999") = r.
Proof.
  intros r.
  destruct (remove_phone_then_find r (u "0501234567")) as (_ & H & _).
  destruct (remove_phone_then_find r (u "0999999999")) as (_ & _ & _ & H').
  split; [apply H; vm_compute; discriminate | apply H'; reflexivity].
Defined.

(** X2: [edit_phone] with a new value that is not a Phone raises the
    ValueError of [add_phone], but only after the old entries have been
    removed: the record is left without them and nothing is appended. *)
Theorem edit_phone_bad_value (r : Record_) (old_phone : str) (o : object) :
  (forall p, o <> PhoneObj p) ->
  snd (edit_phone r old_phone o)
  = Some (ValueError "Invalid phone value. Use Phone instance")
  /\ fst (edit_phone r old_phone o) = remove_phone r old_phone
  /\ find_phone (fst (edit_phone r old_phone o)) old_phone = None.
Proof.
  intros Ho. unfold edit_phone.
  assert (E : add_phone (remove_phone r old_phone) o =
              (remove_phone r old_phone,
               Some (ValueError "Invalid phone value. Use Phone instance"))).
  { destruct o as [p| | |]; try reflexivity. exfalso. apply (Ho p).
    reflexivity. }
  rewrite E. simpl. repeat split.
  unfold find_phone, remove_phone. simpl. rewrite filter_without.
  apply find_phone_in_without.
Qed.

Lemma edit_phone_bad_value_witness :
  let r := mkRecord (mkName (u "Ann")) [mkPhone (u "0501234567")] None in
  find_phone (fst (edit_phone r (u "0501234567") (StrObj (u "0670000000"))))
    (u "0501234567") = None.
Proof.
  intros r.
  apply (edit_phone_bad_value r (u "0501234567") (StrObj (u "0670000000"))).
  intros p. discriminate.
Defined.

(** X3: [add_phone] of a Phone raises nothing, and a lookup afterwards
    returns what it returned before when that was a phone, else the new
    phone when its text is the one looked up: an earlier phone with the
    same text is the one found. *)
Theorem add_phone_then_find (r : Record_) (p : Phone) (t : str) :
  snd (add_phone r (PhoneObj p)) = None
  /\ find_phone (fst (add_phone r (PhoneObj p))) t =
       match find_phone r t with
       | Some q => Some q
       | None => if str_eqb (Phone_str p) t then Some p else None
       end
  /\ (exists q, find_phone (fst (add_phone r (PhoneObj p))) (Phone_str p)
                = Some q /\ Phone_str q = Phone_str p).
Proof.
  unfold add_phone, find_phone. simpl. rewrite !find_phone_in_app. simpl.
  split; [reflexivity|]. split; [reflexivity|].
  destruct (find_phone_in (phones r) (Phone_str p)) as [q|] eqn:E.
  - exists q. split; [reflexivity|]. apply find_phone_in_Some in E. tauto.
  - exists p. rewrite str_eqb_refl. auto.
Qed.

(** X4: [find_phone] returns the first phone, in insertion order, whose
    text is the one asked for, and [None] exactly when no phone has it. *)
Theorem find_phone_first_match (r : Record_) (t : str) :
  (forall p, find_phone r t = Some p ->
     exists before after,
       phones r = before ++ p :: after /\ Phone_str p = t
       /\ forall q, In q before -> Phone_str q <> t)
  /\ (find_phone r t = None <-> forall p, In p (phones r) -> Phone_str p <> t).
Proof.
  unfold find_phone. split; [|apply find_phone_in_None].
  induction (phones r) as [|q ps IH]; intros p H; [discriminate|].
  simpl in H. destruct (str_eqb (Phone_str q) t) eqn:E.
  - injection H as <-. apply str_eqb_spec in E.
    exists [], ps. repeat split; [exact E | intros q' []].
  - apply str_eqb_neq in E. destruct (IH p H) as (b & a & -> & Hp & Hb).
    exists (q :: b), a. repeat split; [exact Hp|].
    intros q' [<-|Hq']; [exact E | apply Hb; exact Hq'].
Qed.

Lemma find_phone_first_match_witness :
  let r := mkRecord (mkName (u "Ann"))
             [mkPhone (u "0501234567"); mkPhone (u "0670000000")] None in
  exists before after,
    phones r = before ++ mkPhone (u "0670000000") :: after
    /\ Phone_str (mkPhone (u "0670000000")) = u "0670000000"
    /\ forall q, In q before -> Phone_str q <> u "0670000000".
Proof.
  intros r.
  apply (find_phone_first_match r (u "0670000000")). reflexivity.
Defined.

(** ** More on the address book *)

Lemma dict_get_set_other (d : dict) (k k' : str) (v : Record_) :
  k' <> k -> dict_get (dict_set d k v) k' = dict_get d k'.
Proof.
  intros Hne. induction d as [|[k0 v0] d IH]; simpl.
  - replace (str_eqb k k') with false; [reflexivity|].
    symmetry. apply str_eqb_neq. congruence.
  - destruct (str_eqb k0 k) eqn:E; simpl.
    + apply str_eqb_spec in E. subst k0.
      replace (str_eqb k k') with false; [reflexivity|].
      symmetry. apply str_eqb_neq. congruence.
    + rewrite IH. reflexivity.
Qed.

Lemma dict_get_del_other (d : dict) (k k' : str) :
  k' <> k -> dict_get (dict_del d k) k' = dict_get d k'.
Proof.
  intros Hne. induction d as [|[k0 v0] d IH]; simpl; [reflexivity|].
  destruct (str_eqb k0 k) eqn:E; simpl.
  - apply str_eqb_spec in E. subst k0.
    replace (str_eqb k k') with false; [reflexivity|].
    symmetry. apply str_eqb_neq. congruence.
  - rewrite IH. reflexivity.
Qed.

Lemma dict_keys_del_absent (d : dict) (k : str) :
  dict_get d k = None -> dict_del d k = d.
Proof.
  induction d as [|[k0 v0] d IH]; simpl; [reflexivity|].
  destruct (str_eqb k0 k); [discriminate|]. intros H. rewrite IH; auto.
Qed.

Lemma dict_keys_del_filter (d : dict) (k : str) :
  dict_wf d ->
  dict_keys (dict_del d k)
  = filter (fun k' => negb (str_eqb k' k)) (dict_keys d).
Proof.
  unfold dict_wf. induction d as [|[k0 v0] d IH]; simpl; [reflexivity|].
  intros H. inversion H as [|? ? Hnin Hnd]; subst.
  destruct (str_eqb k0 k) eqn:E; simpl.
  - apply str_eqb_spec in E. subst k0. symmetry.
    apply forallb_filter_id. apply forallb_forall. intros x Hx.
    apply negb_true_iff, str_eqb_neq. intros ->. contradiction.
  - rewrite IH by exact Hnd. reflexivity.
Qed.

(** X5: [add_record] leaves the entry of every other name as it was; when
    the name is already a key the keys and their order do not change, and
    when it is not the new entry goes to the end. *)
Theorem add_record_elsewhere (book : AddressBook) (record : Record_) :
  (forall n, n <> name_value (name record) ->
     find (add_record book record) n = find book n)
  /\ (forall old, find book (name_value (name record)) = Some old ->
      dict_keys (data (add_record book record)) = dict_keys (data book))
  /\ (find book (name_value (name record)) = None ->
      data (add_record book record) = data book
                                      ++ [(name_value (name record), record)]).
Proof.
  unfold find, add_record. simpl. split; [|split].
  - intros n Hn. apply dict_get_set_other. exact Hn.
  - intros old H. rewrite dict_keys_set. unfold dict_contains. rewrite H.
    reflexivity.
  - generalize (name_value (name record)). intros k.
    induction (data book) as [|[k0 v0] d IH]; simpl; [reflexivity|].
    destruct (str_eqb k0 k); [discriminate|]. intros H. rewrite IH; auto.
Qed.

Lemma add_record_elsewhere_witness :
  find (add_record sample_book (Record_init (u "Zed"))) (u "Ann")
  = find sample_book (u "Ann")
  /\ dict_keys (data (add_record sample_book (Record_init (u "Bob"))))
     = dict_keys (data sample_book).
Proof.
  split.
  - apply (add_record_elsewhere sample_book (Record_init (u "Zed"))).
    vm_compute. discriminate.
  - destruct (add_record_elsewhere sample_book (Record_init (u "Bob")))
      as (_ & H & _).
    apply (H (sample_record "Bob" 1985 6 15)). reflexivity.
Defined.

(** X6: adding two records of the same name one after the other leaves the
    book that adding the second alone gives: the first is replaced as a
    whole, nothing of it is merged. *)
Theorem add_record_twice (book : AddressBook) (first second : Record_) :
  name first = name second ->
  add_record (add_record book first) second = add_record book second.
Proof.
  intros E. unfold add_record. simpl. f_equal. rewrite E.
  generalize (name_value (name second)). intros k.
  induction (data book) as [|[k0 v0] d IH]; simpl.
  - rewrite str_eqb_refl. reflexivity.
  - destruct (str_eqb k0 k) eqn:E0; simpl; rewrite E0; [reflexivity|].
    rewrite IH. reflexivity.
Qed.

Lemma add_record_twice_witness :
  add_record (add_record sample_book (sample_record "Ann" 2001 2 3))
    (Record_init (u "Ann"))
  = add_record sample_book (Record_init (u "Ann")).
Proof.
  apply (add_record_twice sample_book (sample_record "Ann" 2001 2 3)
           (Record_init (u "Ann"))).
  reflexivity.
Defined.

(** X7: [delete] of a name that is not a key leaves the book as it is;
    [delete] never touches the entry of another name; the keys afterwards
    are the keys before, in their order, without the name. *)
Theorem delete_spec (book : AddressBook) (n : str) :
  (find book n = None -> delete book n = book)
  /\ (forall n', n' <> n -> find (delete book n) n' = find book n')
  /\ (dict_wf (data book) ->
      dict_keys (data (delete book n))
      = filter (fun k => negb (str_eqb k n)) (dict_keys (data book))).
Proof.
  unfold find, delete, dict_contains. split; [|split].
  - intros H. rewrite H. reflexivity.
  - intros n' Hn. destruct (dict_get (data book) n); [|reflexivity].
    simpl. apply dict_get_del_other. exact Hn.
  - intros Hwf. destruct (dict_get (data book) n) eqn:E; simpl.
    + apply dict_keys_del_filter. exact Hwf.
    + rewrite <- (dict_keys_del_filter _ n Hwf).
      rewrite dict_keys_del_absent by exact E. reflexivity.
Qed.

Lemma delete_spec_witness :
  delete sample_book (u "Zed") = sample_book
  /\ find (delete sample_book (u "Bob")) (u "Ann") = find sample_book (u "Ann").
Proof.
  split.
  - apply (delete_spec sample_book (u "Zed")). reflexivity.
  - apply (delete_spec sample_book (u "Bob")). vm_compute. discriminate.
Defined.

Lemma keyed_dict_set (d : dict) (k : str) (v : Record_) :
  name_value (name v) = k ->
  Forall (fun item => name_value (name (snd item)) = fst item) d ->
  Forall (fun item => name_value (name (snd item)) = fst item)
         (dict_set d k v).
Proof.
  intros Hv H. induction H as [|[k0 v0] d H0 H1 IH]; simpl.
  - constructor; [exact Hv | constructor].
  - destruct (str_eqb k0 k) eqn:E.
    + apply str_eqb_spec in E. subst k0. constructor; [exact Hv | exact H1].
    + constructor; [exact H0 | exact IH].
Qed.

Lemma Forall_dict_del (P : str * Record_ -> Prop) (d : dict) (k : str) :
  Forall P d -> Forall P (dict_del d k).
Proof.
  intros H. induction H as [|[k0 v0] d H0 H1 IH]; simpl; [constructor|].
  destruct (str_eqb k0 k); [exact H1 | constructor; assumption].
Qed.

Lemma built_invariant (book : AddressBook) :
  built book -> dict_wf (data book) /\ keyed_by_name book.
Proof.
  unfold keyed_by_name.
  induction 1 as [|book record _ [IHw IHk]|book n _ [IHw IHk]].
  - split; constructor.
  - split; [apply dict_set_wf; exact IHw|].
    simpl. apply keyed_dict_set; [reflexivity | exact IHk].
  - unfold delete. destruct (dict_contains (data book) n); [|auto].
    simpl. split; [apply dict_del_wf; exact IHw|].
    apply Forall_dict_del. exact IHk.
Qed.

Lemma keyed_names (d : dict) :
  Forall (fun item => name_value (name (snd item)) = fst item) d ->
  map record_name (map snd d) = map fst d.
Proof.
  induction 1 as [|[k v] d H _ IH]; [reflexivity|]. simpl in *.
  unfold record_name at 1. rewrite H, IH. reflexivity.
Qed.

Lemma NoDup_filter {A : Type} (f : A -> bool) (g : A -> str) (l : list A) :
  NoDup (map g l) -> NoDup (map g (filter f l)).
Proof.
  induction l as [|a l IH]; simpl; intros H; [constructor|].
  inversion H as [|? ? Hnin Hnd]; subst.
  destruct (f a); [|apply IH; exact Hnd]. simpl.
  constructor; [|apply IH; exact Hnd].
  intros Hin. apply Hnin. apply in_map_iff in Hin.
  destruct Hin as [x [Hx Hin]]. apply filter_In in Hin.
  apply in_map_iff. exists x. tauto.
Qed.

Lemma dict_get_In (d : dict) (n : str) (r : Record_) :
  dict_get d n = Some r -> In (n, r) d.
Proof.
  induction d as [|[k v] d IH]; intros H; [discriminate|]. simpl in H.
  destruct (str_eqb k n) eqn:E.
  - apply str_eqb_spec in E. injection H as <-. subst. left; reflexivity.
  - right. apply IH. exact H.
Qed.

Lemma dict_In_get (d : dict) (n : str) (r : Record_) :
  dict_wf d -> In (n, r) d -> dict_get d n = Some r.
Proof.
  unfold dict_wf. induction d as [|[k v] d IH]; intros Hwf H; [destruct H|].
  inversion Hwf as [|? ? Hnin Hnd]; subst. simpl.
  destruct H as [H|H].
  - injection H as -> ->. rewrite str_eqb_refl. reflexivity.
  - destruct (str_eqb k n) eqn:E; [|apply IH; assumption].
    apply str_eqb_spec in E. subst k. exfalso. apply Hnin.
    apply in_map_iff. exists (n, r). auto.
Qed.

(** X8: in a book built from the empty one with [add_record] and [delete],
    every key is the name of its record, so when [get_upcoming_birthdays]
    returns no name appears twice in its list, and every name in it is a
    key whose record has a birthday. *)
Theorem built_book_upcoming_names (book : AddressBook) (today : date)
    (out : list entry) :
  built book ->
  get_upcoming_birthdays book today = Ok out ->
  dict_wf (data book)
  /\ (forall n r, find book n = Some r -> name_value (name r) = n)
  /\ NoDup (map e_name out)
  /\ (forall e, In e out ->
      exists r, find book (e_name e) = Some r /\ birthday r <> None).
Proof.
  intros Hb Hout. destruct (built_invariant book Hb) as [Hwf Hk].
  unfold keyed_by_name in Hk.
  assert (Hfind : forall n r, find book n = Some r ->
                              In (n, r) (data book))
    by (intros n r; apply dict_get_In).
  assert (Hin : forall n r, In (n, r) (data book) -> find book n = Some r)
    by (intros n r; apply dict_In_get; exact Hwf).
  unfold get_upcoming_birthdays in Hout. apply upcoming_loop_Ok in Hout.
  destruct Hout as [-> _]. simpl.
  assert (Hnames : map e_name
            (map (entry_of today)
               (filter (in_window today) (dict_values (data book)))) =
          map record_name
            (filter (in_window today) (dict_values (data book))))
    by (rewrite map_map; reflexivity).
  split; [exact Hwf|]. split; [|split].
  - intros n r H. apply Hfind in H.
    rewrite Forall_forall in Hk. apply (Hk (n, r) H).
  - rewrite Hnames. apply NoDup_filter. unfold dict_values.
    rewrite keyed_names by exact Hk. exact Hwf.
  - intros e He. apply in_map_iff in He. destruct He as [r [<- Hr]].
    apply filter_In in Hr. destruct Hr as [Hr Hw].
    unfold dict_values in Hr. apply in_map_iff in Hr.
    destruct Hr as [[k v] [Hv Hkv]]. simpl in Hv. subst v.
    exists r. simpl. rewrite Forall_forall in Hk.
    pose proof (Hk (k, r) Hkv) as Hn. simpl in Hn. rewrite Hn.
    split; [apply Hin; exact Hkv|].
    apply in_window_spec in Hw. destruct Hw as [b [-> _]]. discriminate.
Qed.

Lemma built_book_upcoming_names_witness :
  NoDup [u "Ann"; u "Bob"].
Proof.
  assert (Hb : built sample_book) by (repeat constructor).
  exact (proj1 (proj2 (proj2
    (built_book_upcoming_names sample_book sample_today
       [mkEntry (u "Ann") (u "12.06.2024"); mkEntry (u "Bob") (u "17.06.2024")]
       Hb eq_refl)))).
Defined.

(** ** More on the upcoming birthdays *)

Lemma upcoming_loop_cases (today : date) (rs : list Record_) :
  forall acc,
  (exists out, upcoming_loop today rs acc = Ok out)
  \/ (exists msg, upcoming_loop today rs acc = Raise (ValueError msg)).
Proof.
  induction rs as [|r rs IH]; intros acc; simpl; [eauto|].
  pose proof (upcoming_step_cases today acc r) as Hs.
  destruct (birthday r) as [b|].
  - destruct (rebasable today (birthday_date b)).
    + destruct Hs as [_ ->]. cbn [bind]. apply IH.
    + destruct Hs as [msg ->]. cbn [bind]. eauto.
  - rewrite Hs. cbn [bind]. apply IH.
Qed.

(** X9: [get_upcoming_birthdays] returns exactly when, for every birthday
    in the book, its month and day are a date of today's year and, if
    that date is before today, of the next year too; when it does not
    return it raises a ValueError, never another exception. *)
Theorem upcoming_birthdays_outcome (book : AddressBook) (today : date) :
  ((exists out, get_upcoming_birthdays book today = Ok out)
   <-> forall r b, In r (dict_values (data book)) -> birthday r = Some b ->
       rebasable today (birthday_date b) = true)
  /\ (forall e, get_upcoming_birthdays book today = Raise e ->
      exists msg, e = ValueError msg).
Proof.
  unfold get_upcoming_birthdays. split; [split|].
  - intros [out H] r b Hin Hb. apply upcoming_loop_Ok in H.
    destruct H as [_ H]. apply (H r b Hin Hb).
  - intros H. apply upcoming_loop_returns. exact H.
  - intros e H.
    destruct (upcoming_loop_cases today (dict_values (data book)) [])
      as [[out E]|[msg E]]; rewrite E in H; [discriminate|].
    injection H as <-. eauto.
Qed.

Lemma is_leap_succ (y : Z) : is_leap y = true -> is_leap (y + 1) = false.
Proof.
  unfold is_leap. rewrite andb_true_iff, Z.eqb_eq. intros [H _].
  apply andb_false_iff. left. apply Z.eqb_neq.
  Z.div_mod_to_equations. lia.
Qed.

Lemma leap_day_valid_iff (y : Z) :
  date_valid (mkdate y 2 29) = true -> is_leap y = true.
Proof.
  unfold date_valid, days_in_month. cbn [year month day].
  destruct (is_leap y); [reflexivity|].
  change ((2 =? 2) && false) with false. cbv iota.
  change (index DAYS_IN_MONTH 2) with 28. change (29 <=? 28) with false.
  rewrite !andb_false_r. discriminate.
Qed.

(** X10: with a birthday on February 29 in the book, a today in a leap
    year and later than February 29 of it, [get_upcoming_birthdays]
    raises a ValueError (the birthday is moved to the next year, which has
    no February 29). *)
Theorem leap_day_birthday_next_year_raises (book : AddressBook)
    (today : date) (r : Record_) (b : Birthday) :
  In r (dict_values (data book)) -> birthday r = Some b ->
  month (birthday_date b) = 2 -> day (birthday_date b) = 29 ->
  is_leap (year today) = true ->
  lt (mkdate (year today) 2 29) today = true ->
  exists msg, get_upcoming_birthdays book today = Raise (ValueError msg).
Proof.
  intros Hin Hb Hm Hd Hl Hlt. unfold get_upcoming_birthdays.
  eapply upcoming_loop_raises; [exact Hin | exact Hb|].
  unfold rebasable. cbv zeta. rewrite Hm, Hd, Hlt.
  destruct (date_valid (mkdate (year today + 1) 2 29)) eqn:E;
    [|apply andb_false_r].
  apply leap_day_valid_iff in E. rewrite (is_leap_succ _ Hl) in E.
  discriminate.
Qed.

Lemma leap_day_birthday_next_year_raises_witness :
  exists msg,
    get_upcoming_birthdays leap_book (mkdate 2024 3 1)
    = Raise (ValueError msg).
Proof.
  apply (leap_day_birthday_next_year_raises leap_book (mkdate 2024 3 1)
           (sample_record "Leo" 2024 2 29)
           (mkBirthday (mkdatetime 2024 2 29 0 0 0 0)));
    try reflexivity.
  left; reflexivity.
Defined.

Lemma congratulation_offset (d : date) :
  date_valid d = true ->
  0 <= toordinal (congratulation d) - toordinal d <= 2.
Proof.
  intros Hv. unfold congratulation. destruct (is_weekend d) eqn:Hw; [|lia].
  pose proof (weekend_monday_in_range d Hv Hw) as Hr.
  unfold plus_days. destruct (fromordinal_valid _ Hr) as [_ ->].
  unfold is_weekend in Hw. rewrite orb_true_iff, !Z.eqb_eq in Hw. lia.
Qed.

(** X11: every congratulation date emitted renders a date from today up to
    nine days after today (seven days of window, at most two more to the
    Monday). *)
Theorem congratulation_within_nine_days (book : AddressBook) (today : date)
    (out : list entry) :
  get_upcoming_birthdays book today = Ok out ->
  Forall
    (fun e =>
       exists d, date_valid d = true
                 /\ date_strftime d = e_congradulation_date e
                 /\ 0 <= sub_days d today <= 9)
    out.
Proof.
  unfold get_upcoming_birthdays. intros Hout.
  apply upcoming_loop_Ok in Hout. destruct Hout as [-> Hvalid]. simpl.
  apply Forall_forall. intros e He. apply in_map_iff in He.
  destruct He as [r [<- Hr]]. apply filter_In in Hr.
  destruct Hr as [Hin Hw].
  apply in_window_spec in Hw. destruct Hw as [b [Hb Hdays]].
  destruct (Hvalid r b Hin Hb) as [_ Hv].
  unfold entry_of. rewrite Hb. cbn [e_congradulation_date].
  destruct (congratulation_spec _ Hv) as (Hcv & _ & _).
  pose proof (congratulation_offset _ Hv) as Hoff.
  eexists. split; [exact Hcv|]. split; [reflexivity|].
  unfold days_until, sub_days in *. lia.
Qed.

Lemma congratulation_within_nine_days_witness :
  exists d, date_valid d = true
            /\ date_strftime d = u "12.06.2024"
            /\ 0 <= sub_days d sample_today <= 9.
Proof.
  exact (Forall_inv
    (congratulation_within_nine_days sample_book sample_today
       [mkEntry (u "Ann") (u "12.06.2024"); mkEntry (u "Bob") (u "17.06.2024")]
       eq_refl)).
Defined.

Lemma days_before_month_mono (y m1 m2 : Z) :
  1 <= m1 -> m1 < m2 -> m2 <= 12 ->
  days_before_month y m1 + days_in_month y m1 <= days_before_month y m2.
Proof.
  intros H1 H2 H3. unfold days_before_month, days_in_month.
  destruct (month_cases m1 ltac:(lia)) as
    [->|[->|[->|[->|[->|[->|[->|[->|[->|[->|[->| ->]]]]]]]]]]];
  destruct (month_cases m2 ltac:(lia)) as
    [->|[->|[->|[->|[->|[->|[->|[->|[->|[->|[->| ->]]]]]]]]]]];
    try lia; destruct (is_leap y); calc_index; lia.
Qed.

Ltac bool_to_prop :=
  repeat (progress rewrite ?orb_true_iff, ?andb_true_iff, ?orb_false_iff,
            ?andb_false_iff, ?Z.ltb_lt, ?Z.ltb_ge, ?Z.leb_le, ?Z.eqb_eq,
            ?Z.eqb_neq).

Ltac bool_to_prop_in H :=
  repeat (progress rewrite ?orb_true_iff, ?andb_true_iff, ?orb_false_iff,
            ?andb_false_iff, ?Z.ltb_lt, ?Z.ltb_ge, ?Z.leb_le, ?Z.eqb_eq,
            ?Z.eqb_neq in H).

Lemma lt_toordinal (d1 d2 : date) :
  date_valid d1 = true -> date_valid d2 = true ->
  lt d1 d2 = true -> toordinal d1 < toordinal d2.
Proof.
  intros V1 V2 H. apply date_valid_spec in V1, V2.
  destruct V1 as (Hy1 & Hm1 & Hd1), V2 as (Hy2 & Hm2 & Hd2).
  pose proof (days_in_year_bound _ _ _ Hm1 Hd1) as [B1 _].
  pose proof (days_in_year_bound _ _ _ Hm2 Hd2) as [B2 _].
  unfold lt in H. unfold toordinal, ymd2ord.
  bool_to_prop_in H.
  destruct H as [H|[Ey [H|[Em H]]]].
  - pose proof (days_before_year_succ (year d1)) as Hs.
    pose proof (days_before_year_mono (year d1 + 1) (year d2) ltac:(lia)).
    lia.
  - rewrite Ey in *.
    pose proof (days_before_month_mono (year d2) (month d1) (month d2)
                  ltac:(lia) H ltac:(lia)).
    lia.
  - rewrite Ey, Em. lia.
Qed.

Lemma lt_trichotomy (d1 d2 : date) :
  lt d1 d2 = false -> d1 = d2 \/ lt d2 d1 = true.
Proof.
  destruct d1 as [y1 m1 x1], d2 as [y2 m2 x2]. unfold lt. cbn [year month day].
  intros H. bool_to_prop_in H. bool_to_prop.
  destruct (Z.eq_dec y1 y2) as [->|]; [|right; lia].
  destruct (Z.eq_dec m1 m2) as [->|]; [|right; lia].
  destruct (Z.eq_dec x1 x2) as [->|]; [left; reflexivity | right; lia].
Qed.

Lemma rebased_not_before (today bd : date) :
  date_valid today = true -> date_valid (rebased today bd) = true ->
  0 <= days_until today bd.
Proof.
  intros Vt Vr. unfold days_until, sub_days. unfold rebased in *.
  cbv zeta in *.
  destruct (lt (mkdate (year today) (month bd) (day bd)) today) eqn:Hlt.
  - assert (H : lt today (mkdate (year today + 1) (month bd) (day bd))
                = true).
    { unfold lt. cbn [year]. apply orb_true_iff. left. apply Z.ltb_lt. lia. }
    pose proof (lt_toordinal _ _ Vt Vr H). lia.
  - destruct (lt_trichotomy _ _ Hlt) as [->|H]; [lia|].
    pose proof (lt_toordinal _ _ Vt Vr H). lia.
Qed.

(** X12: when the clock shows a valid date and [get_upcoming_birthdays]
    returns, [days_until] is never negative for any birthday of the book
    (the lower test of the window always holds), and a record whose
    birthday has today's month and day has [days_until = 0] and is in
    the list. *)
Theorem birthday_today_is_upcoming (book : AddressBook) (today : date)
    (out : list entry) :
  date_valid today = true ->
  get_upcoming_birthdays book today = Ok out ->
  forall r b, In r (dict_values (data book)) -> birthday r = Some b ->
    0 <= days_until today (birthday_date b)
    /\ (month (birthday_date b) = month today ->
        day (birthday_date b) = day today ->
        days_until today (birthday_date b) = 0
        /\ In (record_name r) (map e_name out)).
Proof.
  intros Vt Hout r b Hin Hb. unfold get_upcoming_birthdays in Hout.
  apply upcoming_loop_Ok in Hout. destruct Hout as [-> Hvalid].
  destruct (Hvalid r b Hin Hb) as [_ Hv].
  split; [apply rebased_not_before; assumption|].
  intros Hm Hd.
  assert (E : days_until today (birthday_date b) = 0).
  { unfold days_until, rebased, sub_days. cbv zeta. rewrite Hm, Hd.
    replace (mkdate (year today) (month today) (day today)) with today
      by (destruct today; reflexivity).
    replace (lt today today) with false; [lia|].
    symmetry. unfold lt. bool_to_prop. lia. }
  split; [exact E|]. simpl. rewrite map_map.
  change (fun x => e_name (entry_of today x)) with record_name.
  apply in_map. apply filter_In. split; [exact Hin|].
  apply in_window_spec. exists b. split; [exact Hb | lia].
Qed.

Lemma birthday_today_is_upcoming_witness :
  In (u "Ann") [u "Ann"; u "Bob"].
Proof.
  assert (H : In (sample_record "Ann" 1990 6 12)
                 (dict_values (data sample_book))) by (left; reflexivity).
  destruct (birthday_today_is_upcoming sample_book (mkdate 2024 6 12)
              [mkEntry (u "Ann") (u "12.06.2024");
               mkEntry (u "Bob") (u "17.06.2024")]
              eq_refl eq_refl _ _ H eq_refl) as [_ H'].
  exact (proj2 (H' eq_refl eq_refl)).
Defined.

(** ** Splitting a line into words *)

Lemma split_from_words (s : str) :
  forall w, forallb nonspace w = true -> Forall is_word (split_from w s).
Proof.
  induction s as [|c s IH]; intros w Hw; simpl.
  - destruct w as [|x w]; constructor; [|constructor].
    split; [discriminate | exact Hw].
  - destruct (isspace c) eqn:E.
    + destruct w as [|x w]; [apply IH; reflexivity|].
      constructor; [split; [discriminate | exact Hw] | apply IH; reflexivity].
    + apply IH. rewrite forallb_app, Hw. simpl. unfold nonspace. rewrite E.
      reflexivity.
Qed.

Lemma str_split_words (s : str) : Forall is_word (str_split s).
Proof. apply split_from_words. reflexivity. Qed.

Lemma split_from_nil (s : str) :
  forall w, split_from w s = [] <-> w = [] /\ forallb isspace s = true.
Proof.
  induction s as [|c s IH]; intros w; simpl.
  - destruct w; split; try tauto; try discriminate.
    intros [H _]; discriminate.
  - destruct (isspace c) eqn:E; simpl.
    + destruct w as [|x w].
      * rewrite IH. tauto.
      * split; [discriminate | intros [H _]; discriminate].
    + rewrite IH. split; [|intros [_ H]; discriminate].
      intros [H _]. destruct w; discriminate.
Qed.

Lemma split_from_word (w' : str) :
  forall w s, forallb nonspace w' = true ->
  split_from w (w' ++ s) = split_from (w ++ w') s.
Proof.
  induction w' as [|c w' IH]; intros w s H; simpl.
  - rewrite app_nil_r. reflexivity.
  - simpl in H. apply andb_true_iff in H. destruct H as [Hc H].
    unfold nonspace in Hc. apply negb_true_iff in Hc. rewrite Hc.
    rewrite IH by exact H. rewrite <- app_assoc. reflexivity.
Qed.

(** X13: the words of a line written as words separated by single blanks
    are those words: [split] undoes [' '.join] on lists of words. *)
Theorem split_join_words (words : list str) :
  Forall is_word words -> str_split (str_join [32] words) = words.
Proof.
  unfold str_split. induction 1 as [|w ws [Hne Hw] Hws IH]; [reflexivity|].
  destruct ws as [|w2 ws].
  - simpl. rewrite <- (app_nil_r w) at 1. rewrite split_from_word by exact Hw.
    simpl. destruct w; [congruence | reflexivity].
  - change (str_join [32] (w :: w2 :: ws))
      with (w ++ 32 :: str_join [32] (w2 :: ws)).
    rewrite split_from_word by exact Hw. cbn [app].
    destruct w as [|x w]; [congruence|]. cbn [split_from].
    change (isspace 32) with true. cbv iota. rewrite IH. reflexivity.
Qed.

Lemma split_join_words_witness :
  str_split (str_join [32] [u "add"; u "Ann"; u "0501234567"])
  = [u "add"; u "Ann"; u "0501234567"].
Proof.
  apply (split_join_words [u "add"; u "Ann"; u "0501234567"]).
  repeat constructor; discriminate.
Defined.

(** X14: what [user_input.split()] hands to [main] are words, none empty,
    none with whitespace in it; there is none exactly when the line is
    empty or all whitespace; together they are the characters of the line
    that are not whitespace, in order. *)
Theorem split_gives_words (s : str) :
  Forall is_word (str_split s)
  /\ (str_split s = [] <-> forallb isspace s = true)
  /\ List.concat (str_split s) = filter nonspace s.
Proof.
  split; [apply str_split_words|]. split.
  - unfold str_split. rewrite split_from_nil. tauto.
  - unfold str_split.
    assert (H : forall w, List.concat (split_from w s) = w ++ filter nonspace s).
    { induction s as [|c s IH]; intros w; simpl.
      - destruct w; simpl; rewrite ?app_nil_r; reflexivity.
      - unfold nonspace at 1. destruct (isspace c); simpl.
        + destruct w; simpl; rewrite IH; reflexivity.
        + rewrite IH, <- app_assoc. reflexivity. }
    apply (H []).
Qed.

Lemma word_differs (w t : str) (c : Z) :
  is_word w -> In c t -> isspace c = true -> str_eqb w t = false.
Proof.
  intros [_ Hw] Hc Hs. apply str_eqb_neq. intros ->.
  rewrite forallb_forall in Hw. specialize (Hw c Hc).
  unfold nonspace in Hw. rewrite Hs in Hw. discriminate.
Qed.

Lemma word_differs_change_phone (w : str) :
  is_word w -> str_eqb w (u "change phone") = false.
Proof.
  intros H. apply (word_differs w _ 32 H); [|reflexivity].
  simpl. tauto.
Qed.

Lemma word_differs_add_birthday (w : str) :
  is_word w -> str_eqb w (u "add birthday") = false.
Proof.
  intros H. apply (word_differs w _ 32 H); [|reflexivity].
  simpl. tauto.
Qed.

Lemma word_differs_show_birthday (w : str) :
  is_word w -> str_eqb w (u "show birthday") = false.
Proof.
  intros H. apply (word_differs w _ 32 H); [|reflexivity].
  simpl. tauto.
Qed.

(** ** Printing *)

Lemma writable_ascii (t : terminal) (s : str) :
  forallb (fun c => c <? 128) s = true -> writable t s = true.
Proof.
  unfold writable. rewrite !forallb_forall. intros H c Hc.
  rewrite (H c Hc). reflexivity.
Qed.

Lemma writable_app (t : terminal) (a b : str) :
  writable t (a ++ b) = writable t a && writable t b.
Proof. apply forallb_app. Qed.

Lemma writable_console (s : str) : writable console s = true.
Proof.
  unfold writable. apply forallb_forall. intros c _. apply orb_true_r.
Qed.

Lemma print_complaint (t : terminal) (book : AddressBook) (line : str) :
  print t book (complaint t line)
  = ([Print (complaint t line)], book, Returns None).
Proof.
  unfold print. rewrite writable_ascii by apply complaint_ascii.
  reflexivity.
Qed.

Lemma written_all (t : terminal) (lines : list str) :
  forallb (writable t) lines = true -> written t lines = lines.
Proof.
  induction lines as [|line rest IH]; simpl; [reflexivity|].
  destruct (writable t line); [|discriminate].
  intros H. rewrite (IH H). reflexivity.
Qed.

Lemma print_lines_cases (t : terminal) (book : AddressBook)
    (lines : list str) :
  (forallb (writable t) lines = true
   /\ print_lines t book lines = (map Print lines, book, Returns None))
  \/ (forallb (writable t) lines = false
      /\ exists msg,
           print_lines t book lines
           = (map Print (written t lines), book,
              Throws (UnicodeEncodeError msg))).
Proof.
  induction lines as [|line rest IH]; [left; split; reflexivity|].
  cbn [print_lines forallb written]. unfold print.
  destruct (writable t line); cbn [and_then andb].
  - destruct IH as [[Hall ->]|[Hall [msg ->]]].
    + left. split; [exact Hall | reflexivity].
    + right. split; [exact Hall|]. exists msg. reflexivity.
  - right. split; [reflexivity|]. eexists. reflexivity.
Qed.

Lemma print_lines_console (book : AddressBook) (lines : list str) :
  print_lines console book lines = (map Print lines, book, Returns None).
Proof.
  destruct (print_lines_cases console book lines) as [[_ H]|[H _]];
    [exact H|].
  exfalso. rewrite (proj2 (forallb_forall _ _)) in H; [discriminate|].
  intros line _. apply writable_console.
Qed.

(** ** The loop of [main] *)

(** What an iteration does, without the branches no word can select. *)
Lemma main_step_live (today : date) (book : AddressBook) (line : str)
    (command : str) (args : list str) :
  str_split line = command :: args ->
  main_step today book line =
    if str_eqb command (u "close") || str_eqb command (u "exit") then
      ([Print (u "Good bye!")], book, Returns Break)
    else if str_eqb command (u "hello") then
      ([Print (u "How can I help you?")], book, Returns Continue)
    else if str_eqb command (u "add") then main_add args book
    else if str_eqb command (u "phone") then main_phone args book
    else if str_eqb command (u "all") then main_all book
    else if str_eqb command (u "birthdays") then
      call_handler (handlers.birthdays console today args book)
    else ([Print (u "Invalid command.")], book, Returns Continue).
Proof.
  intros H. unfold main_step. rewrite H.
  pose proof (str_split_words line) as Hw. rewrite H in Hw.
  apply Forall_inv in Hw.
  rewrite (word_differs_change_phone _ Hw), (word_differs_add_birthday _ Hw),
    (word_differs_show_birthday _ Hw).
  reflexivity.
Qed.

(** X15: a line whose first word is none of close, exit, hello, add,
    phone, all, birthdays prints "Invalid command." and changes nothing.
    The branches of [main] for "change phone", "add birthday" and
    "show birthday" compare one word with a text of two, so such lines end
    here too. *)
Theorem main_unknown_command (today : date) (book : AddressBook) (line : str)
    (command : str) (args : list str) :
  str_split line = command :: args ->
  ~ In command [u "close"; u "exit"; u "hello"; u "add"; u "phone"; u "all";
                u "birthdays"] ->
  main_step today book line
  = ([Print (u "Invalid command.")], book, Returns Continue).
Proof.
  intros H Hn. rewrite (main_step_live today book line command args H).
  assert (E : forall t, In t [u "close"; u "exit"; u "hello"; u "add";
                              u "phone"; u "all"; u "birthdays"] ->
                        str_eqb command t = false).
  { intros t Ht. apply str_eqb_neq. intros ->. contradiction. }
  rewrite !E by (simpl; tauto). reflexivity.
Qed.

Lemma main_unknown_command_witness :
  main_step sample_today sample_book (u "change phone Ann 0670000000")
  = ([Print (u "Invalid command.")], sample_book, Returns Continue)
  /\ main_step sample_today sample_book (u "show birthday Ann")
     = ([Print (u "Invalid command.")], sample_book, Returns Continue).
Proof.
  split.
  - apply (main_unknown_command sample_today sample_book _ (u "change")
             [u "phone"; u "Ann"; u "0670000000"]); [reflexivity|].
    simpl. intros H. repeat (destruct H as [H|H]; [discriminate|]). exact H.
  - apply (main_unknown_command sample_today sample_book _ (u "show")
             [u "birthday"; u "Ann"]); [reflexivity|].
    simpl. intros H. repeat (destruct H as [H|H]; [discriminate|]). exact H.
Defined.

Lemma main_add_cases (args : list str) (book : AddressBook) :
  match args with
  | [n; phone] =>
      if ten_unicode_digits phone then
        main_add args book =
          ([Print (u "Contact " ++ n ++ u " with phone " ++ phone
                   ++ u " added.")],
           add_record book (mkRecord (mkName n) [mkPhone phone] None),
           Returns Continue)
      else
        main_add args book =
          ([Print (u "Phone number must contain 10 digits.")], book,
           Returns Continue)
  | _ =>
      main_add args book =
        ([Print (u "Usage: add [name] [phone number]")], book,
         Returns Continue)
  end.
Proof.
  destruct args as [|n [|phone [|x args]]]; try reflexivity.
  unfold main_add. rewrite Phone_init_cases.
  destruct (ten_unicode_digits phone); reflexivity.
Qed.

Lemma birthdays_handler_returns (t : terminal) (today : date)
    (args : list str) (book : AddressBook) :
  exists out v,
    handlers.birthdays t today args book = (out, book, Returns v).
Proof.
  unfold handlers.birthdays, get_upcoming_birthdays.
  destruct (upcoming_loop_cases today (dict_values (data book)) [])
    as [[out ->]|[msg ->]].
  - destruct out as [|e out].
    + cbn. eauto.
    + match goal with
      | |- context [print_lines t book ?l] =>
          destruct (print_lines_cases t book l) as [[_ ->]|[_ [msg ->]]]
      end; cbn; eauto.
  - simpl. eauto.
Qed.

(** X16: an iteration of the loop of [main] raises only on a line that is
    empty or all whitespace (the unpacking of [split()] fails with a
    ValueError nothing catches, before anything is printed); on every
    other line it returns. *)
Theorem main_step_raises_only_on_blank_line (today : date)
    (book : AddressBook) (line : str) :
  (forallb isspace line = true ->
   main_step today book line
   = ([], book,
      Throws (Lib (ValueError
        "not enough values to unpack (expected at least 1, got 0)"))))
  /\ (forallb isspace line = false ->
      exists c, result_of (main_step today book line) = Returns c).
Proof.
  split.
  - intros H. unfold main_step.
    replace (str_split line) with (@nil str); [reflexivity|].
    symmetry. unfold str_split. apply split_from_nil. auto.
  - intros H. destruct (str_split line) as [|command args] eqn:E.
    + unfold str_split in E. apply split_from_nil in E. destruct E as [_ E].
      congruence.
    + rewrite (main_step_live today book line command args E).
      destruct (str_eqb command (u "close") || str_eqb command (u "exit"));
        [eexists; reflexivity|].
      destruct (str_eqb command (u "hello")); [eexists; reflexivity|].
      destruct (str_eqb command (u "add")).
      { pose proof (main_add_cases args book) as Ha.
        destruct args as [|n [|phone [|x args]]];
          try (rewrite Ha; eexists; reflexivity).
        destruct (ten_unicode_digits phone); rewrite Ha; eexists;
          reflexivity. }
      destruct (str_eqb command (u "phone")).
      { unfold main_phone. destruct args as [|n [|x args]];
          try (eexists; reflexivity).
        destruct (find book n) as [r|]; [|eexists; reflexivity].
        destruct (phones r); eexists; reflexivity. }
      destruct (str_eqb command (u "all")).
      { unfold main_all. destruct (data book); eexists; reflexivity. }
      destruct (str_eqb command (u "birthdays")); [|eexists; reflexivity].
      destruct (birthdays_handler_returns console today args book) as (o & v & ->).
      eexists; reflexivity.
Qed.

Lemma main_step_raises_only_on_blank_line_witness :
  main_step sample_today sample_book (u "   ")
  = ([], sample_book,
     Throws (Lib (ValueError
       "not enough values to unpack (expected at least 1, got 0)")))
  /\ exists c,
       result_of (main_step sample_today sample_book (u "birthdays"))
       = Returns c.
Proof.
  split.
  - apply (main_step_raises_only_on_blank_line sample_today sample_book
             (u "   ")). reflexivity.
  - apply (main_step_raises_only_on_blank_line sample_today sample_book
             (u "birthdays")). reflexivity.
Defined.

Lemma Forall_dict_set (P : str * Record_ -> Prop) (d : dict) (k : str)
    (v : Record_) :
  P (k, v) -> Forall P d -> Forall P (dict_set d k v).
Proof.
  intros Hv H. induction H as [|[k0 v0] d H0 H1 IH]; simpl.
  - constructor; [exact Hv | constructor].
  - destruct (str_eqb k0 k) eqn:E.
    + apply str_eqb_spec in E. subst k0. constructor; [exact Hv | exact H1].
    + constructor; [exact H0 | exact IH].
Qed.

Lemma add_record_session (book : AddressBook) (n phone : str) :
  session_book book -> ten_unicode_digits phone = true ->
  session_book (add_record book (mkRecord (mkName n) [mkPhone phone] None)).
Proof.
  intros (Hw & Hk & Hf) Hp. unfold session_book, keyed_by_name, add_record.
  simpl. split; [apply dict_set_wf; exact Hw|]. split.
  - apply Forall_dict_set; [reflexivity | exact Hk].
  - apply Forall_dict_set; [|exact Hf].
    split; [reflexivity|]. exists (mkPhone phone). auto.
Qed.

Lemma main_step_session (today : date) (book : AddressBook) (line : str) :
  session_book book ->
  session_book (book_after (main_step today book line)).
Proof.
  intros Hs. destruct (str_split line) as [|command args] eqn:E.
  - unfold main_step. rewrite E. exact Hs.
  - rewrite (main_step_live today book line command args E).
    destruct (str_eqb command (u "close") || str_eqb command (u "exit"));
      [exact Hs|].
    destruct (str_eqb command (u "hello")); [exact Hs|].
    destruct (str_eqb command (u "add")).
    { pose proof (main_add_cases args book) as Ha.
      destruct args as [|n [|phone [|x args]]];
        try (rewrite Ha; exact Hs).
      destruct (ten_unicode_digits phone) eqn:Hp; rewrite Ha; [|exact Hs].
      apply add_record_session; assumption. }
    destruct (str_eqb command (u "phone")).
    { unfold main_phone. destruct args as [|n [|x args]]; try exact Hs.
      destruct (find book n) as [r|]; [|exact Hs].
      destruct (phones r); exact Hs. }
    destruct (str_eqb command (u "all")).
    { unfold main_all. destruct (data book); exact Hs. }
    destruct (str_eqb command (u "birthdays")); [|exact Hs].
    destruct (birthdays_handler_returns console today args book) as (o & v & ->).
    exact Hs.
Qed.

Lemma main_loop_session (inputs : list (date * str)) :
  forall book, session_book book ->
  session_book (book_after (main_loop book inputs)).
Proof.
  induction inputs as [|[today line] rest IH]; intros book Hs; [exact Hs|].
  simpl. pose proof (main_step_session today book line Hs) as H1.
  destruct (main_step today book line) as [[out book'] [[|]|e]];
    unfold book_after in *; simpl in *; try exact H1.
  specialize (IH book' H1).
  destruct (main_loop book' rest) as [[out' book''] r]. exact IH.
Qed.

(** X17: in the book any session of [main] ends with, every key is the
    name of its record, and every record has no birthday and exactly one
    phone, a valid one. *)
Theorem main_session_book (inputs : list (date * str)) :
  let book := book_after (main inputs) in
  dict_wf (data book)
  /\ forall n r, find book n = Some r ->
       name_value (name r) = n /\ birthday r = None
       /\ exists p, phones r = [p]
                    /\ ten_unicode_digits (phone_value p) = true.
Proof.
  assert (H : session_book (book_after (main inputs))).
  { pose proof (main_loop_session inputs (mkAddressBook [])) as H.
    unfold main. destruct (main_loop (mkAddressBook []) inputs) as [[o b] r].
    apply H. repeat split; constructor. }
  destruct H as (Hw & Hk & Hf). split; [exact Hw|].
  intros n r Hfind. apply dict_get_In in Hfind.
  unfold keyed_by_name in Hk. rewrite Forall_forall in Hk, Hf.
  pose proof (Hk _ Hfind) as H1. pose proof (Hf _ Hfind) as [H2 H3].
  auto.
Qed.

Lemma upcoming_loop_no_birthdays (today : date) (rs : list Record_) :
  Forall (fun r => birthday r = None) rs ->
  forall acc, upcoming_loop today rs acc = Ok acc.
Proof.
  induction 1 as [|r rs Hr _ IH]; intros acc; [reflexivity|]. simpl.
  unfold upcoming_step. rewrite Hr. cbn [bind]. apply IH.
Qed.

(** X18: on a book a session of [main] can hold, the command "birthdays"
    prints "No upcoming birthdays for next week." whatever the day, and
    changes nothing. *)
Theorem main_birthdays_in_session (today : date) (book : AddressBook)
    (line : str) (args : list str) :
  session_book book ->
  str_split line = u "birthdays" :: args ->
  main_step today book line
  = ([Print (u "No upcoming birthdays for next week.")], book,
     Returns Continue).
Proof.
  intros (_ & _ & Hf) E.
  rewrite (main_step_live today book line _ args E).
  change (call_handler (handlers.birthdays console today args book) =
          ([Print (u "No upcoming birthdays for next week.")], book,
           Returns Continue)).
  unfold handlers.birthdays, get_upcoming_birthdays.
  rewrite upcoming_loop_no_birthdays; [reflexivity|].
  unfold dict_values. apply Forall_forall. intros r Hr.
  apply in_map_iff in Hr. destruct Hr as [[k v] [<- Hkv]].
  rewrite Forall_forall in Hf. apply (Hf _ Hkv).
Qed.

Lemma main_birthdays_in_session_witness :
  let book := book_after (main [(sample_today, u "add Ann 0501234567")]) in
  main_step sample_today book (u "birthdays")
  = ([Print (u "No upcoming birthdays for next week.")], book,
     Returns Continue).
Proof.
  intros book.
  apply (main_birthdays_in_session sample_today book (u "birthdays") []);
    [|reflexivity].
  repeat split; repeat constructor; try (simpl; tauto).
  exists (mkPhone (u "0501234567")). split; reflexivity.
Defined.

Lemma main_step_add (today : date) (book : AddressBook) (line : str)
    (args : list str) :
  str_split line = u "add" :: args ->
  main_step today book line = main_add args book.
Proof.
  intros E. rewrite (main_step_live today book line _ args E). reflexivity.
Qed.

Lemma main_step_phone (today : date) (book : AddressBook) (line : str)
    (args : list str) :
  str_split line = u "phone" :: args ->
  main_step today book line = main_phone args book.
Proof.
  intros E. rewrite (main_step_live today book line _ args E). reflexivity.
Qed.

(** X19: "add NAME PHONE" with a valid phone prints the confirmation and
    leaves under NAME a record with that one phone and no birthday,
    whatever was there before; "phone NAME" then prints that phone. *)
Theorem main_add_then_phone (today today' : date) (book : AddressBook)
    (line line' n phone : str) :
  str_split line = [u "add"; n; phone] ->
  ten_unicode_digits phone = true ->
  str_split line' = [u "phone"; n] ->
  let book' := book_after (main_step today book line) in
  main_step today book line
  = ([Print (u "Contact " ++ n ++ u " with phone " ++ phone ++ u " added.")],
     book', Returns Continue)
  /\ find book' n = Some (mkRecord (mkName n) [mkPhone phone] None)
  /\ main_step today' book' line'
     = ([Print (u "Phone number for " ++ n ++ u ": " ++ phone)], book',
        Returns Continue).
Proof.
  intros E Hp E'. rewrite (main_step_add today book line _ E).
  pose proof (main_add_cases [n; phone] book) as Ha. cbv iota in Ha.
  rewrite Hp in Ha. rewrite Ha. unfold book_after. cbn [fst snd].
  assert (Hf : find (add_record book (mkRecord (mkName n) [mkPhone phone] None))
                 n = Some (mkRecord (mkName n) [mkPhone phone] None)).
  { unfold find, add_record. simpl. apply dict_get_set_same. }
  split; [reflexivity|]. split; [exact Hf|].
  rewrite (main_step_phone today' _ line' _ E').
  unfold main_phone. rewrite Hf. reflexivity.
Qed.

Lemma main_add_then_phone_witness :
  let book' :=
    book_after (main_step sample_today sample_book
                  (u "add Ann 0670000000")) in
  main_step sample_today book' (u "phone Ann")
  = ([Print (u "Phone number for Ann: 0670000000")], book', Returns Continue).
Proof.
  intros book'.
  apply (main_add_then_phone sample_today sample_today sample_book
           (u "add Ann 0670000000") (u "phone Ann") (u "Ann")
           (u "0670000000")); reflexivity.
Defined.

(** X20: the only lines that change the book in an iteration of the loop
    of [main] are "add NAME PHONE" with a valid phone, and they change it
    by [add_record] of a new record with that one phone. *)
Theorem main_step_changes_book_only_on_add (today : date)
    (book : AddressBook) (line : str) :
  book_after (main_step today book line) = book
  \/ exists n phone,
       str_split line = [u "add"; n; phone]
       /\ ten_unicode_digits phone = true
       /\ book_after (main_step today book line)
          = add_record book (mkRecord (mkName n) [mkPhone phone] None).
Proof.
  destruct (str_split line) as [|command args] eqn:E.
  - left. unfold main_step. rewrite E. reflexivity.
  - rewrite (main_step_live today book line command args E).
    destruct (str_eqb command (u "close") || str_eqb command (u "exit"));
      [left; reflexivity|].
    destruct (str_eqb command (u "hello")); [left; reflexivity|].
    destruct (str_eqb command (u "add")) eqn:Eadd.
    { apply str_eqb_spec in Eadd. subst command.
      pose proof (main_add_cases args book) as Ha.
      destruct args as [|n [|phone [|x args]]];
        try (rewrite Ha; left; reflexivity).
      destruct (ten_unicode_digits phone) eqn:Hp; rewrite Ha;
        [|left; reflexivity].
      right. exists n, phone. auto. }
    left. destruct (str_eqb command (u "phone")).
    { unfold main_phone. destruct args as [|n [|x args]]; try reflexivity.
      destruct (find book n) as [r|]; [|reflexivity].
      destruct (phones r); reflexivity. }
    destruct (str_eqb command (u "all")).
    { unfold main_all. destruct (data book); reflexivity. }
    destruct (str_eqb command (u "birthdays")); [|reflexivity].
    destruct (birthdays_handler_returns console today args book) as (o & v & ->).
    reflexivity.
Qed.

Lemma main_loop_exit (book : AddressBook) (today : date) (line : str)
    (command : str) (args : list str) (rest : list (date * str)) :
  str_split line = command :: args ->
  command = u "close" \/ command = u "exit" ->
  main_loop book ((today, line) :: rest)
  = ([Prompt (u "Enter a command: "); Print (u "Good bye!")], book,
     Returns tt).
Proof.
  intros E Hc. cbn [main_loop].
  rewrite (main_step_live today book line command args E).
  destruct Hc as [-> | ->]; reflexivity.
Qed.

(** X21: the loop of [main] ends at a line whose first word is close or
    exit, with "Good bye!"; the lines after it are never read. *)
Theorem main_stops_at_exit (before after : list (date * str)) (today : date)
    (line : str) (command : str) (args : list str) :
  str_split line = command :: args ->
  command = u "close" \/ command = u "exit" ->
  main (before ++ (today, line) :: after) = main (before ++ [(today, line)])
  /\ main ((today, line) :: after)
     = ([Print (u "Welcome to the assistant bot!");
         Prompt (u "Enter a command: "); Print (u "Good bye!")],
        mkAddressBook [], Returns tt).
Proof.
  intros E Hc. split.
  - unfold main.
    assert (H : forall book,
      main_loop book (before ++ (today, line) :: after)
      = main_loop book (before ++ [(today, line)])).
    { induction before as [|[t l] before IH]; intros book.
      - simpl app. rewrite !(main_loop_exit book today line command args _ E Hc).
        reflexivity.
      - simpl. destruct (main_step t book l) as [[out book'] [[|]|e]];
          try reflexivity.
        rewrite IH. reflexivity. }
    rewrite H. reflexivity.
  - unfold main.
    rewrite (main_loop_exit _ today line command args after E Hc).
    reflexivity.
Qed.

Lemma main_stops_at_exit_witness :
  main [(sample_today, u "exit"); (sample_today, u "add Ann 0501234567")]
  = ([Print (u "Welcome to the assistant bot!");
      Prompt (u "Enter a command: "); Print (u "Good bye!")],
     mkAddressBook [], Returns tt).
Proof.
  apply (main_stops_at_exit [] [(sample_today, u "add Ann 0501234567")]
           sample_today (u "exit") (u "exit") []);
    [reflexivity | right; reflexivity].
Defined.

(** X22: on a book a session of [main] can hold, "all" changes nothing and
    prints "No contacts found." for the empty book, and else
    "All contacts:" and then, for every entry in insertion order, the line
    "Contact name: KEY, phones: PHONE, birthday: Not Set". *)
Theorem main_all_in_session (today : date) (book : AddressBook) (line : str)
    (args : list str) :
  session_book book ->
  str_split line = u "all" :: args ->
  book_after (main_step today book line) = book
  /\ result_of (main_step today book line) = Returns Continue
  /\ match data book with
     | [] => printed (main_step today book line)
             = [Print (u "No contacts found.")]
     | items =>
         exists lines,
           printed (main_step today book line)
           = Print (u "All contacts:") :: lines
           /\ Forall2
                (fun item ev =>
                   exists p,
                     phones (snd item) = [p]
                     /\ ev = Print (u "Contact name: " ++ fst item
                                    ++ u ", phones: " ++ phone_value p
                                    ++ u ", birthday: Not Set"))
                items lines
     end.
Proof.
  intros (_ & Hk & Hf) E.
  rewrite (main_step_live today book line _ args E).
  change (book_after (main_all book) = book
          /\ result_of (main_all book) = Returns Continue
          /\ match data book with
             | [] => printed (main_all book) = [Print (u "No contacts found.")]
             | items =>
                 exists lines,
                   printed (main_all book) = Print (u "All contacts:") :: lines
                   /\ Forall2
                        (fun item ev =>
                           exists p,
                             phones (snd item) = [p]
                             /\ ev = Print (u "Contact name: " ++ fst item
                                            ++ u ", phones: " ++ phone_value p
                                            ++ u ", birthday: Not Set"))
                        items lines
             end).
  unfold main_all, keyed_by_name in *.
  destruct (data book) as [|item items] eqn:Ed; [repeat split|].
  repeat split.
  exists (map (fun it => Print (Record_str (snd it))) (item :: items)).
  split; [reflexivity|].
  apply Forall2_map_r. intros it Hit.
  rewrite Forall_forall in Hk, Hf.
  pose proof (Hk it Hit) as Hn. destruct (Hf it Hit) as [Hb [p [Hp _]]].
  exists p. split; [exact Hp|].
  unfold Record_str, birthday_str. rewrite Hp, Hb, Hn. reflexivity.
Qed.

Lemma main_all_in_session_witness :
  printed (main_step sample_today (mkAddressBook []) (u "all"))
  = [Print (u "No contacts found.")].
Proof.
  apply (main_all_in_session sample_today (mkAddressBook []) (u "all") []);
    [|reflexivity].
  repeat split; constructor.
Defined.

(** ** The handlers *)

Lemma decimal_ascii (n : Z) :
  0 <= n < 10000 -> forallb (fun c => c <? 128) (decimal n) = true.
Proof.
  intros H.
  apply (forall_range_spec (Z.to_nat 10000) 0
           (fun n => forallb (fun c => c <? 128) (decimal n))).
  - vm_compute. reflexivity.
  - rewrite Z2Nat.id; lia.
Qed.

Lemma strftime_dmY_ascii (Y M D : Z) :
  date_valid (mkdate Y M D) = true ->
  forallb (fun c => c <? 128) (strftime_dmY Y M D) = true.
Proof.
  intros H. apply date_valid_ranges in H. cbn [year month day] in H.
  rewrite strftime_dmY_prefix by lia.
  rewrite forallb_app, decimal_ascii by lia. rewrite andb_true_r.
  cbn [forallb]. rewrite !andb_true_iff, !Z.ltb_lt.
  repeat split; Z.div_mod_to_equations; lia.
Qed.

Lemma writable_framed (t : terminal) (a n b : str) :
  forallb (fun c => c <? 128) a = true ->
  forallb (fun c => c <? 128) b = true ->
  writable t (a ++ n ++ b) = writable t n.
Proof.
  intros Ha Hb.
  rewrite !writable_app, (writable_ascii t a Ha), (writable_ascii t b Hb).
  rewrite andb_true_r. reflexivity.
Qed.

(** A [print] inside [try ... except ValueError as e: print(str(e))],
    under the decorator: the line, or the complaint about it. *)
Lemma print_or_complain (t : terminal) (book : AddressBook) (line : str) :
  input_error (except_ValueError_print t (print t book line))
  = ([Print (if writable t line then line else complaint t line)], book,
     Returns None).
Proof.
  unfold print at 1. destruct (writable t line).
  - reflexivity.
  - cbn [except_ValueError_print]. rewrite print_complaint. reflexivity.
Qed.

Lemma add_birthday_handler_cases (t : terminal) (args : list str)
    (book : AddressBook) :
  handlers.add_birthday t args book =
    match args with
    | [n; birthday_text] =>
        match find book n with
        | Some record =>
            match _strptime.strptime birthday_text with
            | Ok dt =>
                let line := u "Birthday added for " ++ n ++ u "." in
                ([Print (if writable t n then line else complaint t line)],
                 store book n
                   (mkRecord (name record) (phones record)
                      (Some (mkBirthday dt))),
                 Returns None)
            | Raise _ =>
                ([Print (u "Invalid date format. Use DD.MM.YYYY")], book,
                 Returns None)
            end
        | None =>
            let line := u "Contact " ++ n ++ u " not found." in
            ([Print (if writable t n then line else complaint t line)],
             book, Returns None)
        end
    | _ =>
        ([Print (u "Usage: add birthday [name] [birthdaydate]")], book,
         Returns None)
    end.
Proof.
  unfold handlers.add_birthday.
  destruct args as [|n [|text [|x args]]]; try reflexivity.
  cbv zeta.
  destruct (find book n) as [record|].
  - destruct (Birthday_init_cases text) as [(dt & E & ->)|[Hn ->]].
    + rewrite E. cbn [add_birthday].
      rewrite print_or_complain, writable_framed by reflexivity.
      reflexivity.
    + destruct (_strptime.strptime text) as [dt|e]; [|reflexivity].
      exfalso. apply (Hn dt). reflexivity.
  - rewrite print_or_complain, writable_framed by reflexivity.
    reflexivity.
Qed.

Lemma show_birthday_handler_cases (t : terminal) (args : list str)
    (book : AddressBook) :
  handlers.show_birthday t args book =
    match args with
    | [n] =>
        let line :=
          match find book n with
          | Some record =>
              match birthday record with
              | Some b =>
                  n ++ u " birthday is on "
                  ++ datetime_strftime (birthday_value b) ++ u "."
              | None => u "No birthday set for " ++ n ++ u "."
              end
          | None => u "Contact " ++ n ++ u " not found."
          end in
        ([Print (if writable t line then line else complaint t line)], book,
         Returns None)
    | _ => ([Print (u "Usage: show birthday [name]")], book, Returns None)
    end.
Proof.
  unfold handlers.show_birthday.
  destruct args as [|n [|x args]]; try reflexivity.
  cbv zeta.
  destruct (find book n) as [record|]; [destruct (birthday record)|];
    apply print_or_complain.
Qed.

(** X23: for a contact of the book and a text [strptime] reads as a real
    date, the handler [add_birthday] stores the date with the record, name
    and phones kept, and prints the confirmation; [show_birthday] then
    prints the date as [strftime('%d.%m.%Y')] formats it.  On a terminal
    that cannot write the name, each prints the text of the
    UnicodeEncodeError instead, and the date is stored all the same.  For
    a text of the form DD.MM.YYYY the date shown is the text itself when
    the year is 1000 or later, and differs from it when the year is
    before 1000. *)
Theorem add_birthday_then_show (t : terminal) (book : AddressBook)
    (n text : str) (record : Record_) (Y M D : Z) :
  find book n = Some record ->
  reads_as text Y M D -> date_valid (mkdate Y M D) = true ->
  let book' := book_after (handlers.add_birthday t [n; text] book) in
  let added := u "Birthday added for " ++ n ++ u "." in
  let shown := n ++ u " birthday is on " ++ strftime_dmY Y M D ++ u "." in
  find book' n
  = Some (mkRecord (name record) (phones record)
            (Some (mkBirthday (mkdatetime Y M D 0 0 0 0))))
  /\ (writable t n = true ->
      handlers.add_birthday t [n; text] book
      = ([Print added], book', Returns None)
      /\ handlers.show_birthday t [n] book'
         = ([Print shown], book', Returns None))
  /\ (writable t n = false ->
      handlers.add_birthday t [n; text] book
      = ([Print (complaint t added)], book', Returns None)
      /\ handlers.show_birthday t [n] book'
         = ([Print (complaint t shown)], book', Returns None))
  /\ (DDMMYYYY_fields text = Some (Y, M, D) -> 1000 <= Y ->
      strftime_dmY Y M D = text)
  /\ (DDMMYYYY_fields text = Some (Y, M, D) -> Y < 1000 ->
      strftime_dmY Y M D <> text).
Proof.
  intros Hf Hr Hv.
  assert (E : _strptime.strptime text = Ok (mkdatetime Y M D 0 0 0 0)).
  { apply strptime_Ok. exists Y, M, D. auto. }
  rewrite add_birthday_handler_cases, Hf, E. unfold book_after.
  cbv zeta. cbn [fst snd].
  assert (Hf' : find (store book n
                        (mkRecord (name record) (phones record)
                           (Some (mkBirthday (mkdatetime Y M D 0 0 0 0))))) n
                = Some (mkRecord (name record) (phones record)
                          (Some (mkBirthday (mkdatetime Y M D 0 0 0 0))))).
  { unfold find, store. simpl. apply dict_get_set_same. }
  assert (Hw : writable t (n ++ u " birthday is on " ++ strftime_dmY Y M D
                           ++ u ".") = writable t n).
  { rewrite writable_app, (app_assoc _ _ (u ".")), writable_app.
    rewrite (writable_ascii t (_ ++ _)), (writable_ascii t (u "."));
      [|reflexivity|].
    - rewrite !andb_true_r. reflexivity.
    - rewrite forallb_app, strftime_dmY_ascii by exact Hv. reflexivity. }
  split; [exact Hf'|]. split; [|split; [|split]].
  - intros Hn. rewrite Hn. split; [reflexivity|].
    rewrite show_birthday_handler_cases, Hf'. cbv zeta.
    cbn [birthday birthday_value]. unfold datetime_strftime.
    cbn [dt_year dt_month dt_day]. rewrite Hw, Hn. reflexivity.
  - intros Hn. rewrite Hn. split; [reflexivity|].
    rewrite show_birthday_handler_cases, Hf'. cbv zeta.
    cbn [birthday birthday_value]. unfold datetime_strftime.
    cbn [dt_year dt_month dt_day]. rewrite Hw, Hn. reflexivity.
  - apply DDMMYYYY_strftime.
  - apply DDMMYYYY_strftime_short.
Qed.

Lemma add_birthday_then_show_witness :
  let book' :=
    book_after
      (handlers.add_birthday ascii_terminal [u "Ann"; u "1.1.2024"]
         sample_book) in
  handlers.show_birthday ascii_terminal [u "Ann"] book'
  = ([Print (u "Ann birthday is on 01.01.2024.")], book', Returns None).
Proof.
  intros book'.
  assert (Hr : reads_as (u "1.1.2024") 2024 1 1).
  { exists (u "1"), (u "1"), (u "2024"). repeat split. }
  destruct (add_birthday_then_show ascii_terminal sample_book (u "Ann")
              (u "1.1.2024") (sample_record "Ann" 1990 6 12) 2024 1 1
              eq_refl Hr eq_refl) as (_ & H & _).
  exact (proj2 (H eq_refl)).
Defined.

Lemma dict_set_present_keys (d : dict) (k : str) (v old : Record_) :
  dict_get d k = Some old -> dict_keys (dict_set d k v) = dict_keys d.
Proof.
  intros H. rewrite dict_keys_set. unfold dict_contains. rewrite H.
  reflexivity.
Qed.

(** X24: the handler [add_birthday] returns [None] whatever its arguments
    and whatever the terminal can write; it keeps the keys of the book and
    their order and the name and the phones of every record, and it
    changes the book only when it was given two arguments, the second a
    text [strptime] reads as a date. *)
Theorem add_birthday_handler_frame (t : terminal) (args : list str)
    (book : AddressBook) :
  let book' := book_after (handlers.add_birthday t args book) in
  result_of (handlers.add_birthday t args book) = Returns None
  /\ dict_keys (data book') = dict_keys (data book)
  /\ (forall n r', find book' n = Some r' ->
      exists r, find book n = Some r
                /\ name r' = name r /\ phones r' = phones r)
  /\ (book' <> book ->
      exists n text dt,
        args = [n; text] /\ _strptime.strptime text = Ok dt).
Proof.
  rewrite add_birthday_handler_cases. unfold book_after, result_of.
  assert (Hsame : forall out : list event,
    snd (out, book, @Returns (option str) None) = Returns None
    /\ dict_keys (data (snd (fst (out, book, @Returns (option str) None))))
       = dict_keys (data book)
    /\ (forall n r',
          find (snd (fst (out, book, @Returns (option str) None))) n = Some r' ->
          exists r, find book n = Some r
                    /\ name r' = name r /\ phones r' = phones r)
    /\ (snd (fst (out, book, @Returns (option str) None)) <> book ->
        exists n text dt,
          args = [n; text] /\ _strptime.strptime text = Ok dt)).
  { intros out. cbn [fst snd]. repeat split; try reflexivity.
    - intros n r' H. exists r'. auto.
    - intros H. exfalso. apply H. reflexivity. }
  destruct args as [|n [|text [|x args]]]; try apply Hsame.
  destruct (find book n) as [record|] eqn:Hf; [|apply Hsame].
  destruct (_strptime.strptime text) as [dt|e] eqn:E; [|apply Hsame].
  cbv zeta. cbn [fst snd]. split; [reflexivity|]. split; [|split].
  - unfold store. simpl. apply (dict_set_present_keys _ _ _ record). exact Hf.
  - intros n' r' H. unfold find, store in H. simpl in H.
    destruct (str_eq_dec n' n) as [->|Hne].
    + rewrite dict_get_set_same in H. injection H as <-.
      exists record. auto.
    + rewrite dict_get_set_other in H by exact Hne. exists r'. auto.
  - intros _. exists n, text, dt. auto.
Qed.

(** X25: none of the three handlers raises, whatever the terminal can
    write: [add_birthday] and [show_birthday] return [None], [birthdays]
    returns what the decorator makes of its call; [show_birthday] and
    [birthdays] leave the book as it was. *)
Theorem handlers_never_raise (t : terminal) (today : date)
    (args : list str) (book : AddressBook) :
  result_of (handlers.add_birthday t args book) = Returns None
  /\ handlers.show_birthday t args book
     = (printed (handlers.show_birthday t args book), book, Returns None)
  /\ exists v,
       handlers.birthdays t today args book
       = (printed (handlers.birthdays t today args book), book, Returns v).
Proof.
  split; [|split].
  - rewrite add_birthday_handler_cases. unfold result_of.
    destruct args as [|n [|text [|x args]]]; try reflexivity.
    destruct (find book n); [|reflexivity].
    destruct (_strptime.strptime text); reflexivity.
  - rewrite show_birthday_handler_cases.
    destruct args as [|n [|x args]]; reflexivity.
  - destruct (birthdays_handler_returns t today args book) as (o & v & ->).
    exists v. reflexivity.
Qed.

Lemma birthday_lines (today : date) (rs : list Record_) :
  map (fun contact =>
         e_name contact ++ u " birthday is on "
         ++ e_congradulation_date contact ++ u ".")
    (map (entry_of today) rs)
  = map (birthday_line today) rs.
Proof. rewrite map_map. reflexivity. Qed.

(** X26: when [get_upcoming_birthdays] returns, the handler [birthdays]
    prints "No upcoming birthdays for next week." if no record is in the
    window, and else "Upcoming birthdays for next week:" and a line
    "NAME birthday is on DATE." for each record in the window, in order,
    up to the first line the terminal cannot write; it returns [None] when
    every line was written, and else "An error occured. Please try
    again.", the print having raised a UnicodeEncodeError.  When
    [get_upcoming_birthdays] raises (a February 29 birthday in a year
    without one), the handler prints nothing at all and returns
    "Invalid command format.".  The book is never changed. *)
Theorem birthdays_handler_prints (t : terminal) (today : date)
    (args : list str) (book : AddressBook) :
  book_after (handlers.birthdays t today args book) = book
  /\ ((forall r b, In r (dict_values (data book)) -> birthday r = Some b ->
       rebasable today (birthday_date b) = true) ->
      let lines :=
        map (birthday_line today)
          (filter (in_window today) (dict_values (data book))) in
      printed (handlers.birthdays t today args book)
      = match lines with
        | [] => [Print (u "No upcoming birthdays for next week.")]
        | _ =>
            Print (u "Upcoming birthdays for next week:")
            :: map Print (written t lines)
        end
      /\ result_of (handlers.birthdays t today args book)
         = if forallb (writable t) lines then Returns None
           else Returns (Some (u "An error occured. Please try again.")))
  /\ ((exists r b, In r (dict_values (data book)) /\ birthday r = Some b
                   /\ rebasable today (birthday_date b) = false) ->
      handlers.birthdays t today args book
      = ([], book, Returns (Some (u "Invalid command format.")))).
Proof.
  split; [|split].
  - destruct (birthdays_handler_returns t today args book) as (o & v & ->).
    reflexivity.
  - intros H. cbv zeta. unfold handlers.birthdays, get_upcoming_birthdays.
    destruct (upcoming_loop_returns today _ H []) as [out Hout].
    rewrite Hout. apply upcoming_loop_Ok in Hout. destruct Hout as [-> _].
    simpl app.
    destruct (filter (in_window today) (dict_values (data book)))
      as [|r due]; [split; reflexivity|].
    cbn [map]. rewrite birthday_lines.
    set (lines := birthday_line today r :: map (birthday_line today) due).
    match goal with
    | |- context [print_lines t book (?h :: ?l)] =>
        change l with lines;
        destruct (print_lines_cases t book (h :: lines))
          as [[Hall ->]|[Hall [msg ->]]]
    end.
    + change (forallb (writable t) lines = true) in Hall.
      rewrite Hall, (written_all t lines Hall). split; reflexivity.
    + change (forallb (writable t) lines = false) in Hall.
      rewrite Hall. split; reflexivity.
  - intros (r & b & Hin & Hb & Hreb).
    unfold handlers.birthdays, get_upcoming_birthdays.
    destruct (upcoming_loop_raises today _ r b Hin Hb Hreb []) as [msg ->].
    reflexivity.
Qed.

Lemma accent_book_rebasable (r : Record_) (b : Birthday) :
  In r (dict_values (data accent_book)) -> birthday r = Some b ->
  rebasable sample_today (birthday_date b) = true.
Proof.
  intros Hin Hb. vm_compute in Hin.
  destruct Hin as [<-|[<-|[<-|[]]]]; vm_compute in Hb;
    try discriminate; injection Hb as <-; reflexivity.
Qed.

Lemma birthdays_handler_prints_witness :
  handlers.birthdays ascii_terminal (mkdate 2025 2 25) [] leap_book
  = ([], leap_book, Returns (Some (u "Invalid command format.")))
  /\ printed (handlers.birthdays ascii_terminal sample_today [] accent_book)
     = [Print (u "Upcoming birthdays for next week:");
        Print (u "Ann birthday is on 12.06.2024.")]
  /\ result_of (handlers.birthdays ascii_terminal sample_today [] accent_book)
     = Returns (Some (u "An error occured. Please try again.")).
Proof.
  split.
  - apply (birthdays_handler_prints ascii_terminal (mkdate 2025 2 25) []
             leap_book).
    exists (sample_record "Leo" 2024 2 29),
           (mkBirthday (mkdatetime 2024 2 29 0 0 0 0)).
    split; [left; reflexivity | split; reflexivity].
  - destruct (birthdays_handler_prints ascii_terminal sample_today []
                accent_book) as (_ & H & _).
    destruct (H accent_book_rebasable) as [-> ->]. split; reflexivity.
Defined.

Example birthdays_handler_examples :
  handlers.birthdays console sample_today [] accent_book
  = ([Print (u "Upcoming birthdays for next week:");
      Print (u "Ann birthday is on 12.06.2024.");
      Print ([90; 111; 235] ++ u " birthday is on 13.06.2024.");
      Print (u "Bob birthday is on 17.06.2024.")],
     accent_book, Returns None)
  /\ handlers.show_birthday ascii_terminal [[90; 111; 235]] accent_book
     = ([Print (u "'ascii' codec can't encode character")], accent_book,
        Returns None)
  /\ printed
       (handlers.show_birthday ascii_terminal [u "Old"]
          (book_after
             (handlers.add_birthday ascii_terminal [u "Old"; u "01.01.0999"]
                (add_record sample_book (Record_init (u "Old"))))))
     = [Print (u "Old birthday is on 01.01.999.")].
Proof. repeat split. Qed.

Lemma upcoming_birthdays_outcome_witness :
  exists out, get_upcoming_birthdays sample_book sample_today = Ok out.
Proof.
  apply (upcoming_birthdays_outcome sample_book sample_today).
  exact sample_book_rebasable.
Defined.

Lemma split_gives_words_witness : str_split (u "   ") = [].
Proof. apply (split_gives_words (u "   ")). reflexivity. Defined.

Lemma main_session_book_witness :
  dict_wf
    (data (book_after
             (main [(sample_today, u "add Ann 0501234567");
                    (sample_today, u "add birthday Ann 01.01.2000")]))).
Proof.
  exact (proj1 (main_session_book
                  [(sample_today, u "add Ann 0501234567");
                   (sample_today, u "add birthday Ann 01.01.2000")])).
Defined.

Lemma add_birthday_handler_frame_witness :
  dict_keys
    (data (book_after
             (handlers.add_birthday ascii_terminal
                [u "Eve"; u "01.01.2000"] sample_book)))
  = dict_keys (data sample_book).
Proof.
  exact (proj1 (proj2 (add_birthday_handler_frame ascii_terminal
                         [u "Eve"; u "01.01.2000"] sample_book))).
Defined.

Example session_of_main :
  printed (main [(sample_today, u "add Ann 0501234567");
                 (sample_today, u "add birthday Ann 01.01.2000");
                 (sample_today, u "change phone Ann 0670000000");
                 (sample_today, u "phone Ann");
                 (sample_today, u "all");
                 (sample_today, u "close")])
  = [Print (u "Welcome to the assistant bot!");
     Prompt (u "Enter a command: ");
     Print (u "Contact Ann with phone 0501234567 added.");
     Prompt (u "Enter a command: ");
     Print (u "Usage: add [name] [phone number]");
     Prompt (u "Enter a command: ");
     Print (u "Invalid command.");
     Prompt (u "Enter a command: ");
     Print (u "Phone number for Ann: 0501234567");
     Prompt (u "Enter a command: ");
     Print (u "All contacts:");
     Print (u "Contact name: Ann, phones: 0501234567, birthday: Not Set");
     Prompt (u "Enter a command: ");
     Print (u "Good bye!")].
Proof. reflexivity. Qed.
